(** * spike-cli: the multiplexing engine, embedded and verified

    A shallow embedding of the TypeScript sources of the MCP multiplexer
    (name namespacer, toolset controller, upstream fleet manager, reconnect
    back-off, fuzzy scorer, agent loop and slash-command session engine),
    followed by the properties established about them.

    Conventions of the embedding.
    - JavaScript strings are [string]; the alphabet covered is ASCII, which
      is where tool names, server names and command names live.
    - A [Map] that the code iterates is an association list in insertion
      order; a [Map] or [Set] only queried by key is a [gmap] / [gset].
    - A thrown [Error] is the [Throw] outcome carrying the error message.
    - Functions of the JavaScript runtime that the code calls
      ([JSON.parse], [JSON.stringify], [Number]) are fields of the
      [JsRuntime] class. *)

From Stdlib Require Import ZArith Lia Ascii String List Permutation Sorted DecimalString.
From stdpp Require Import gmap strings list.

Set Warnings "-register-all,-clear-no-such-hyp".
Local Open Scope Z_scope.

(* ===================================================================== *)
(** * JavaScript primitives used by the sources *)
(* ===================================================================== *)

Module Js.

(** [s.startsWith(p)] *)
Fixpoint startsWith (s p : string) {struct p} : bool :=
  match p with
  | EmptyString => true
  | String c p' =>
      match s with
      | EmptyString => false
      | String d s' => if Ascii.eqb d c then startsWith s' p' else false
      end
  end.

(** [s.slice(n)] for [0 <= n] *)
Fixpoint slice (s : string) (n : nat) {struct n} : string :=
  match n with
  | O => s
  | S n' => match s with
            | EmptyString => EmptyString
            | String _ s' => slice s' n'
            end
  end.

(** [s.slice(0, n)] *)
Fixpoint sliceTo (s : string) (n : nat) {struct n} : string :=
  match n with
  | O => EmptyString
  | S n' => match s with
            | EmptyString => EmptyString
            | String c s' => String c (sliceTo s' n')
            end
  end.

(** [s.includes(p)] *)
Fixpoint includes (s p : string) : bool :=
  startsWith s p ||
  match s with
  | EmptyString => false
  | String _ s' => includes s' p
  end.

(** [s.endsWith(p)] *)
Definition endsWith (s p : string) : bool :=
  (String.length p <=? String.length s)%nat
  && String.eqb (slice s (String.length s - String.length p)) p.

(** [s.indexOf(c)] for a one-character needle; [None] stands for [-1]. *)
Fixpoint indexOf (s : string) (c : ascii) : option nat :=
  match s with
  | EmptyString => None
  | String d s' => if Ascii.eqb d c then Some O else S <$> indexOf s' c
  end.

(** [xs.join(sep)] *)
Fixpoint join (sep : string) (xs : list string) : string :=
  match xs with
  | [] => EmptyString
  | [x] => x
  | x :: rest => x +:+ sep +:+ join sep rest
  end.

(** [Array.prototype.sort] with a comparator: the sort is stable, so its
    result is the one of a stable insertion sort.  [before x y] says that
    the comparator does not put [y] strictly in front of [x]. *)
Section Sort.
Context {A : Type} (before : A -> A -> bool).

Fixpoint insertSorted (x : A) (l : list A) : list A :=
  match l with
  | [] => [x]
  | y :: l' => if before x y then x :: y :: l' else y :: insertSorted x l'
  end.

Fixpoint sort (l : list A) : list A :=
  match l with
  | [] => []
  | x :: l' => insertSorted x (sort l')
  end.
End Sort.

(** [xs.find(p)] *)
Fixpoint find {A : Type} (p : A -> bool) (l : list A) : option A :=
  match l with
  | [] => None
  | x :: l' => if p x then Some x else find p l'
  end.

(** [xs.some(p)] *)
Definition some {A : Type} (p : A -> bool) (l : list A) : bool := existsb p l.

End Js.

(** Outcome of a call that may throw: the value returned, or the message of
    the [Error] thrown. *)
Inductive Outcome (A : Type) : Type :=
| Return (a : A)
| Throw (message : string).
Arguments Return {A} a.
Arguments Throw {A} message.

(** [xs.some(p)], [xs.filter(p)] and [xs.map(f)] when the callback may
    throw: the callback is applied from left to right and the first error
    ends the iteration ([some] stops at the first [true]). *)
Fixpoint someThrowing {A : Type} (p : A -> Outcome bool) (l : list A)
  : Outcome bool :=
  match l with
  | [] => Return false
  | x :: l' =>
      match p x with
      | Throw err => Throw err
      | Return true => Return true
      | Return false => someThrowing p l'
      end
  end.

Fixpoint filterThrowing {A : Type} (p : A -> Outcome bool) (l : list A)
  : Outcome (list A) :=
  match l with
  | [] => Return []
  | x :: l' =>
      match p x with
      | Throw err => Throw err
      | Return keep =>
          match filterThrowing p l' with
          | Throw err => Throw err
          | Return kept => Return (if keep then x :: kept else kept)
          end
      end
  end.

Fixpoint mapThrowing {A B : Type} (f : A -> Outcome B) (l : list A)
  : Outcome (list B) :=
  match l with
  | [] => Return []
  | x :: l' =>
      match f x with
      | Throw err => Throw err
      | Return y =>
          match mapThrowing f l' with
          | Throw err => Throw err
          | Return ys => Return (y :: ys)
          end
      end
  end.

(* ===================================================================== *)
(** * multiplexer/namespace.ts *)
(* ===================================================================== *)

Module Namespace.

Definition DEFAULT_SEPARATOR : string := "__".

Definition namespaceTool (serverName toolName separator : string) : string :=
  serverName +:+ separator +:+ toolName.

Record ParsedTool := { serverName : string; toolName : string }.

(** The [for (const server of sorted)] loop of [parseNamespacedTool]. *)
Fixpoint parseLoop (namespacedName separator : string) (sorted : list string)
  : option ParsedTool :=
  match sorted with
  | [] => None
  | server :: rest =>
      let prefix := server +:+ separator in
      if Js.startsWith namespacedName prefix
      then Some {| serverName := server;
                   toolName := Js.slice namespacedName (String.length prefix) |}
      else parseLoop namespacedName separator rest
  end.

(** [(a, b) => b.length - a.length]: [a] stays in front of [b] unless [b]
    is strictly longer. *)
Definition byLengthDesc (a b : string) : bool :=
  (String.length b <=? String.length a)%nat.

Definition parseNamespacedTool (namespacedName : string)
    (knownServers : list string) (separator : string) : option ParsedTool :=
  let sorted := Js.sort byLengthDesc knownServers in
  parseLoop namespacedName separator sorted.

Definition stripNamespace (namespacedName serverName separator : string)
  : string :=
  let prefix := serverName +:+ separator in
  if Js.startsWith namespacedName prefix
  then Js.slice namespacedName (String.length prefix)
  else namespacedName.

End Namespace.

(* ===================================================================== *)
(** * JSON values and plain objects *)
(* ===================================================================== *)

(** A JSON value.  Numbers that occur in schemas, arguments and results of
    the embedded code are never computed with; they are kept as integers. *)
Inductive json : Type :=
| JNull
| JBool (b : bool)
| JNum (n : Z)
| JStr (s : string)
| JArr (items : list json)
| JObj (fields : list (string * json)).

(** A plain object ([Record<string, unknown>]): own properties in insertion
    order.  (An engine lists the keys that are array indices first, in
    ascending order; the objects modelled here are argument maps and
    schemas, and no statement depends on the order of their keys.) *)
Abbreviation JsObject := (list (string * json)).

Module Obj.

(** Property names every plain object inherits from [Object.prototype]. *)
Definition objectPrototypeKeys : list string :=
  [ "constructor"; "hasOwnProperty"; "isPrototypeOf"; "propertyIsEnumerable";
    "toLocaleString"; "toString"; "valueOf"; "__proto__";
    "__defineGetter__"; "__defineSetter__"; "__lookupGetter__";
    "__lookupSetter__" ]%string.

Definition inherited (key : string) : bool :=
  existsb (String.eqb key) objectPrototypeKeys.

(** Own property lookup. *)
Fixpoint get {V : Type} (o : list (string * V)) (key : string) : option V :=
  match o with
  | [] => None
  | (k, v) :: rest => if String.eqb k key then Some v else get rest key
  end.

(** [o[key] = v]: an existing own property keeps its place. *)
Fixpoint set {V : Type} (o : list (string * V)) (key : string) (v : V)
  : list (string * V) :=
  match o with
  | [] => [(key, v)]
  | (k, w) :: rest =>
      if String.eqb k key then (k, v) :: rest else (k, w) :: set rest key v
  end.

(** [delete o[key]] / [Map.prototype.delete]. *)
Fixpoint remove {V : Type} (o : list (string * V)) (key : string)
  : list (string * V) :=
  match o with
  | [] => []
  | (k, w) :: rest =>
      if String.eqb k key then remove rest key else (k, w) :: remove rest key
  end.

Definition keys {V : Type} (o : list (string * V)) : list string := map fst o.

(** [{...a, ...b}] *)
Definition spread (a b : JsObject) : JsObject :=
  fold_left (fun acc kv => set acc (fst kv) (snd kv)) b a.

(** [key in o] for a plain object [o]: own or inherited. *)
Definition has (o : JsObject) (key : string) : bool :=
  match get o key with
  | Some _ => true
  | None => inherited key
  end.

(** Truthiness of a JSON value. *)
Definition truthy (v : json) : bool :=
  match v with
  | JNull => false
  | JBool b => b
  | JNum n => negb (n =? 0)
  | JStr s => negb (String.eqb s "")
  | JArr _ | JObj _ => true
  end.

(** Truthiness of [o[key]]: an inherited member is a function or an object. *)
Definition truthyAt (o : JsObject) (key : string) : bool :=
  match get o key with
  | Some v => truthy v
  | None => inherited key
  end.

(** Decimal rendering of an integer, as a template literal does. *)
Definition showNumber (n : Z) : string :=
  NilZero.string_of_int (Z.to_int n).

(** The own enumerable properties a spread [{...v}] copies from a value. *)
Fixpoint indexed (i : nat) (items : list json) : JsObject :=
  match items with
  | [] => []
  | x :: rest => (showNumber (Z.of_nat i), x) :: indexed (S i) rest
  end.

Fixpoint chars (s : string) : list json :=
  match s with
  | EmptyString => []
  | String c s' => JStr (String c EmptyString) :: chars s'
  end.

Definition ownProps (v : json) : JsObject :=
  match v with
  | JObj fields => fields
  | JArr items => indexed 0 items
  | JStr s => indexed 0 (chars s)
  | JNull | JBool _ | JNum _ => []
  end.

End Obj.

(** Built-ins of the JavaScript runtime that the sources call. *)
Class JsRuntime := {
  (** [JSON.parse(text)]; [None] when it throws a [SyntaxError]. *)
  JSON_parse : string -> option json;
  (** [JSON.stringify(value)] *)
  JSON_stringify : json -> string;
  (** [JSON.stringify(value, null, 2)] *)
  JSON_stringify_pretty : json -> string;
  (** [Number(text)] *)
  Number_of_string : string -> json
}.

(* ===================================================================== *)
(** * util/glob.ts *)
(* ===================================================================== *)

Module Glob.

(** [.] of a regular expression without the [s] flag. *)
Definition lineTerminator (c : ascii) : bool :=
  Ascii.eqb c "010" || Ascii.eqb c "013".

(** The characters the source escapes: [. + ^ $ { } ( ) | [ ] \]. *)
Definition escapedChars : list ascii :=
  [ "."; "+"; "^"; "$"; "{"; "}"; "("; ")"; "|"; "["; "]"; "\" ]%char.

(** [pattern.replace(/[.+^${}()|[\]\\]/g, "\\$&").replace(/\*/g, ".*")] *)
Fixpoint escaped (pattern : string) : string :=
  match pattern with
  | EmptyString => EmptyString
  | String c pattern' =>
      (if Ascii.eqb c "*" then ".*"
       else if existsb (Ascii.eqb c) escapedChars
            then String "\" (String c EmptyString)
            else String c EmptyString)
      +:+ escaped pattern'
  end.

(** The text handed to [new RegExp]. *)
Definition regexSource (pattern : string) : string :=
  "^" +:+ escaped pattern +:+ "$".

(** Message of the [SyntaxError] that [new RegExp] throws for a
    quantifier with nothing to repeat (as V8 words it). *)
Definition nothingToRepeat (pattern : string) : string :=
  "Invalid regular expression: /" +:+ regexSource pattern
  +:+ "/: Nothing to repeat".

(** A term of the regular expression between [^] and [$].  The source
    escapes every special character but [*] and [?]: a [*] becomes [.*],
    an escaped or ordinary character stands for itself, and a [?] is left
    to the regular expression, where it makes the term before it
    optional, or lazy when that term is already quantified. *)
Inductive Term :=
| Char (c : ascii)
| OptionalChar (c : ascii)
| AnyChars.

(** What the last term read still accepts after it. *)
Inductive Pending :=
| Nothing
| Plain (c : ascii)
| Optional (c : ascii)
| Star
| Lazy (term : Term).

Definition flush (pending : Pending) : list Term :=
  match pending with
  | Nothing => []
  | Plain c => [Char c]
  | Optional c => [OptionalChar c]
  | Star => [AnyChars]
  | Lazy term => [term]
  end.

(** [new RegExp(...)]: the terms of the expression, or [None] when a [?]
    has nothing to repeat (at the start, after [^], and after a lazy
    quantifier). *)
Fixpoint compile (pending : Pending) (pattern : string)
  : option (list Term) :=
  match pattern with
  | EmptyString => Some (flush pending)
  | String c pattern' =>
      if Ascii.eqb c "?" then
        match pending with
        | Nothing | Lazy _ => None
        | Plain p => compile (Optional p) pattern'
        | Optional p => compile (Lazy (OptionalChar p)) pattern'
        | Star => compile (Lazy AnyChars) pattern'
        end
      else
        app (flush pending)
          <$> compile (if Ascii.eqb c "*" then Star else Plain c) pattern'
  end.

(** [regex.test(name)] for the anchored expression made of [terms].
    Greedy and lazy quantifiers accept the same names. *)
Fixpoint test (terms : list Term) (name : string) {struct terms} : bool :=
  match terms with
  | [] => match name with EmptyString => true | _ => false end
  | Char p :: terms' =>
      match name with
      | EmptyString => false
      | String c name' => Ascii.eqb c p && test terms' name'
      end
  | OptionalChar p :: terms' =>
      test terms' name
      || match name with
         | EmptyString => false
         | String c name' => Ascii.eqb c p && test terms' name'
         end
  | AnyChars :: terms' =>
      (fix star (name : string) : bool :=
         test terms' name
         || match name with
            | EmptyString => false
            | String c name' => negb (lineTerminator c) && star name'
            end) name
  end.

Definition matchesGlob (name pattern : string) : Outcome bool :=
  match compile Nothing pattern with
  | None => Throw (nothingToRepeat pattern)
  | Some regex => Return (test regex name)
  end.

Definition matchesAnyGlob (name : string) (patterns : list string)
  : Outcome bool :=
  someThrowing (fun pattern => matchesGlob name pattern) patterns.

Record ToolFilterConfig := {
  allowed : option (list string);
  blocked : option (list string)
}.

Definition nonEmpty (patterns : option (list string)) : option (list string) :=
  match patterns with
  | Some (p :: ps) => Some (p :: ps)
  | _ => None
  end.

Definition negate (b : Outcome bool) : Outcome bool :=
  match b with
  | Return b => Return (negb b)
  | Throw err => Throw err
  end.

Definition filterTools {T : Type} (nameOf : T -> string) (tools : list T)
    (config : option ToolFilterConfig) : Outcome (list T) :=
  match config with
  | None => Return tools
  | Some config =>
      let result := Return tools in
      let result :=
        match nonEmpty (allowed config), result with
        | Some pats, Return result =>
            filterThrowing (fun t => matchesAnyGlob (nameOf t) pats) result
        | _, result => result
        end in
      let result :=
        match nonEmpty (blocked config), result with
        | Some pats, Return result =>
            filterThrowing (fun t => negate (matchesAnyGlob (nameOf t) pats))
                           result
        | _, result => result
        end in
      result
  end.

End Glob.

(* ===================================================================== *)
(** * multiplexer/types.ts and config/types.ts *)
(* ===================================================================== *)

Module ToolInfo.
Record t := {
  name : string;
  description : option string;
  inputSchema : JsObject
}.
End ToolInfo.

Module ContentItem.
(** [{ type: string; text?: string; [key: string]: unknown }] *)
Record t := {
  type : string;
  text : option string;
  rest : JsObject
}.

Definition toJson (c : t) : json :=
  JObj (("type"%string, JStr (type c))
        :: match text c with
           | Some s => [("text"%string, JStr s)]
           | None => []
           end ++ rest c).
End ContentItem.

Module CallToolResult.
Record t := {
  content : list ContentItem.t;
  isError : option bool
}.

Definition textResult (s : string) (err : option bool) : t :=
  {| content := [ {| ContentItem.type := "text";
                     ContentItem.text := Some s;
                     ContentItem.rest := [] |} ];
     isError := err |}.
End CallToolResult.

Module ServerConfig.
Inductive Transport :=
| Stdio (command : string) (args : option (list string))
| Url (url : string)
| Sse (url : string).

Record t := {
  transport : Transport;
  env : option (list (string * string));
  tools : option Glob.ToolFilterConfig
}.
End ServerConfig.

(* ===================================================================== *)
(** * multiplexer/toolset-manager.ts *)
(* ===================================================================== *)

Module ToolsetManager.

Record ToolsetConfig := {
  servers : list string;
  description : option string
}.

(** The callback [serverToolCountFn] is the caller's: it may throw (the
    one the [serve] command passes asks the fleet manager for the filtered
    tools of the server). *)
Record t := {
  toolsets : list (string * ToolsetConfig);
  loadedToolsets : gset string;
  serverToolCountFn : string -> Outcome Z
}.

(** [new ToolsetManager(toolsets, serverToolCountFn)] *)
Definition create (toolsets : list (string * ToolsetConfig))
    (serverToolCountFn : string -> Outcome Z) : t :=
  {| toolsets := toolsets;
     loadedToolsets := ∅;
     serverToolCountFn := serverToolCountFn |}.

Record ToolsetInfo := {
  info_name : string;
  info_description : option string;
  info_loaded : bool;
  info_servers : list string;
  info_toolCount : Z
}.

(** [servers.includes(serverName)] *)
Definition includes (servers : list string) (serverName : string) : bool :=
  existsb (String.eqb serverName) servers.

(** The [for (const [name, ts] of Object.entries(this.toolsets))] loop of
    [isServerVisible]. *)
Fixpoint loadedLoop (entries : list (string * ToolsetConfig))
    (loaded : gset string) (serverName : string) : bool :=
  match entries with
  | [] => false
  | (name, ts) :: rest =>
      if includes (servers ts) serverName && bool_decide (name ∈ loaded)
      then true
      else loadedLoop rest loaded serverName
  end.

Definition isServerVisible (tm : t) (serverName : string) : bool :=
  let belongsToToolset :=
    Js.some (fun ts => includes (servers ts) serverName)
            (map snd (toolsets tm)) in
  if negb belongsToToolset then true
  else loadedLoop (toolsets tm) (loadedToolsets tm) serverName.

Definition withLoaded (tm : t) (loaded : gset string) : t :=
  {| toolsets := toolsets tm;
     loadedToolsets := loaded;
     serverToolCountFn := serverToolCountFn tm |}.

(** [servers.reduce((sum, server) => sum + this.serverToolCountFn(server),
    sum)]: the first error of the callback ends the sum. *)
Fixpoint sumCounts (tm : t) (servers : list string) (sum : Z) : Outcome Z :=
  match servers with
  | [] => Return sum
  | server :: rest =>
      match serverToolCountFn tm server with
      | Throw err => Throw err
      | Return count => sumCounts tm rest (sum + count)
      end
  end.

Definition toolCountOf (tm : t) (servers : list string) : Outcome Z :=
  sumCounts tm servers 0.

Definition unknownToolset (name : string) : string :=
  "Unknown toolset: " +:+ name.

(** Message of the [TypeError] raised by [toolset.servers.join] when
    [toolset] is a member inherited from [Object.prototype]. *)
Definition joinOfUndefined : string :=
  "Cannot read properties of undefined (reading 'join')".

Definition loadToolset (tm : t) (name : string)
  : Outcome (list string * Z) * t :=
  match Obj.get (toolsets tm) name with
  | Some toolset =>
      let tm' := withLoaded tm ({[ name ]} ∪ loadedToolsets tm) in
      match toolCountOf tm (servers toolset) with
      | Return toolCount => (Return (servers toolset, toolCount), tm')
      | Throw err => (Throw err, tm')
      end
  | None =>
      if Obj.inherited name
      then (Throw joinOfUndefined,
            withLoaded tm ({[ name ]} ∪ loadedToolsets tm))
      else (Throw (unknownToolset name), tm)
  end.

Definition unloadToolset (tm : t) (name : string) : Outcome unit * t :=
  match Obj.get (toolsets tm) name with
  | None =>
      if Obj.inherited name
      then (Return tt, withLoaded tm (loadedToolsets tm ∖ {[ name ]}))
      else (Throw (unknownToolset name), tm)
  | Some _ => (Return tt, withLoaded tm (loadedToolsets tm ∖ {[ name ]}))
  end.

Definition listToolsets (tm : t) : Outcome (list ToolsetInfo) :=
  mapThrowing
    (fun '(name, ts) =>
       match toolCountOf tm (servers ts) with
       | Throw err => Throw err
       | Return toolCount =>
           Return {| info_name := name;
                     info_description := description ts;
                     info_loaded := bool_decide (name ∈ loadedToolsets tm);
                     info_servers := servers ts;
                     info_toolCount := toolCount |}
       end)
    (toolsets tm).

Definition infoToJson (i : ToolsetInfo) : json :=
  JObj (("name"%string, JStr (info_name i))
        :: match info_description i with
           | Some d => [("description"%string, JStr d)]
           | None => []
           end
        ++ [ ("loaded"%string, JBool (info_loaded i));
             ("servers"%string, JArr (map JStr (info_servers i)));
             ("toolCount"%string, JNum (info_toolCount i)) ]).

Definition nameProperty (descr : string) : json :=
  JObj [ ("name"%string,
          JObj [ ("type"%string, JStr "string");
                 ("description"%string, JStr descr) ]) ].

Definition getMetaTools : list ToolInfo.t :=
  [ {| ToolInfo.name := "spike__list_toolsets";
       ToolInfo.description := Some "List available toolsets and their status"%string;
       ToolInfo.inputSchema :=
         [ ("type"%string, JStr "object"); ("properties"%string, JObj []) ] |};
    {| ToolInfo.name := "spike__load_toolset";
       ToolInfo.description := Some "Load a toolset to make its tools available"%string;
       ToolInfo.inputSchema :=
         [ ("type"%string, JStr "object");
           ("properties"%string, nameProperty "Name of the toolset to load");
           ("required"%string, JArr [JStr "name"]) ] |};
    {| ToolInfo.name := "spike__unload_toolset";
       ToolInfo.description :=
         Some "Unload a previously loaded toolset, removing its tools from the active context to save context window space"%string;
       ToolInfo.inputSchema :=
         [ ("type"%string, JStr "object");
           ("properties"%string, nameProperty "Name of the toolset to unload");
           ("required"%string, JArr [JStr "name"]) ] |} ].

Definition isMetaTool (toolName : string) : bool :=
  String.eqb toolName "spike__list_toolsets"
  || String.eqb toolName "spike__load_toolset"
  || String.eqb toolName "spike__unload_toolset".

Definition quoted (s : string) : string :=
  String "034" EmptyString +:+ s +:+ String "034" EmptyString.

(** [typeof args.name === "string" ? args.name : ""] *)
Definition nameArg (args : JsObject) : string :=
  match Obj.get args "name" with
  | Some (JStr s) => s
  | _ => EmptyString
  end.

Definition handleMetaTool `{JsRuntime} (tm : t) (toolName : string)
    (args : JsObject) : Outcome CallToolResult.t * t :=
  if String.eqb toolName "spike__list_toolsets" then
    match listToolsets tm with
    | Throw err => (Throw err, tm)
    | Return toolsets =>
        (Return (CallToolResult.textResult
                   (JSON_stringify_pretty (JArr (map infoToJson toolsets)))
                   None),
         tm)
    end
  else if String.eqb toolName "spike__load_toolset" then
    let name := nameArg args in
    if String.eqb name "" then
      (Return (CallToolResult.textResult "Error: name is required" (Some true)),
       tm)
    else
      match loadToolset tm name with
      | (Return (loaded, toolCount), tm') =>
          (Return (CallToolResult.textResult
                     ("Loaded toolset " +:+ quoted name +:+ ": "
                      +:+ Js.join ", " loaded +:+ " ("
                      +:+ Obj.showNumber toolCount
                      +:+ " tools now available)") None),
           tm')
      | (Throw message, tm') =>
          (Return (CallToolResult.textResult ("Error: " +:+ message) (Some true)),
           tm')
      end
  else if String.eqb toolName "spike__unload_toolset" then
    let name := nameArg args in
    if String.eqb name "" then
      (Return (CallToolResult.textResult "Error: name is required" (Some true)),
       tm)
    else
      match Obj.get (toolsets tm) name with
      | None =>
          if Obj.inherited name then
            if negb (bool_decide (name ∈ loadedToolsets tm)) then
              (Return (CallToolResult.textResult
                         ("Toolset " +:+ quoted name
                          +:+ " is not currently loaded") (Some true)),
               tm)
            else (Throw joinOfUndefined, snd (unloadToolset tm name))
          else
            (Return (CallToolResult.textResult
                       ("Error: Unknown toolset: " +:+ name) (Some true)),
             tm)
      | Some toolset =>
          if negb (bool_decide (name ∈ loadedToolsets tm)) then
            (Return (CallToolResult.textResult
                       ("Toolset " +:+ quoted name
                        +:+ " is not currently loaded") (Some true)),
             tm)
          else
            (Return (CallToolResult.textResult
                       ("Unloaded toolset " +:+ quoted name +:+ ": servers "
                        +:+ Js.join ", " (servers toolset)
                        +:+ " are now hidden") None),
             snd (unloadToolset tm name))
      end
  else
    (Return (CallToolResult.textResult
               ("Unknown meta-tool: " +:+ toolName) (Some true)),
     tm).

End ToolsetManager.

(* ===================================================================== *)
(** * multiplexer/upstream-client.ts *)
(* ===================================================================== *)

Module UpstreamClient.

(** The remote end of one upstream, as the MCP SDK client presents it once
    the transport is up: the tools it lists and its reply to a call. *)
Record Remote := {
  listTools : list ToolInfo.t;
  remoteCall : string -> JsObject -> Outcome CallToolResult.t
}.

Record t := {
  name : string;
  config : ServerConfig.t;
  tools : list ToolInfo.t;
  connected : bool;
  remote : Remote
}.

(** What dialling an upstream yields: the remote end, or the error of the
    failed [client.connect] / [client.listTools]. *)
Definition Dial := string -> ServerConfig.t -> Outcome Remote.

(** [new UpstreamClient(name, config)] followed by [connect()] *)
Definition connect (dial : Dial) (name : string) (config : ServerConfig.t)
  : Outcome t :=
  match dial name config with
  | Return r =>
      Return {| name := name; config := config; tools := listTools r;
                connected := true; remote := r |}
  | Throw err => Throw err
  end.

Definition getTools (c : t) : list ToolInfo.t := tools c.

Definition callTool (c : t) (toolName : string) (args : JsObject)
  : Outcome CallToolResult.t :=
  if negb (connected c)
  then Throw ("Upstream " +:+ name c +:+ " is not connected")
  else remoteCall (remote c) toolName args.

(** [close()] never throws: a failure of the SDK's close is logged. *)
Definition close (c : t) : t :=
  {| name := name c; config := config c; tools := tools c;
     connected := false; remote := remote c |}.

End UpstreamClient.

(* ===================================================================== *)
(** * multiplexer/server-manager.ts *)
(* ===================================================================== *)

Module NamespacedTool.
Record t := {
  namespacedName : string;
  originalName : string;
  serverName : string;
  description : option string;
  inputSchema : JsObject
}.
End NamespacedTool.

Module ServerManager.

Record t := {
  upstreams : list (string * UpstreamClient.t);
  serverConfigs : gmap string ServerConfig.t;
  separator : string;
  noPrefix : bool;
  toolsetManager : option ToolsetManager.t
}.

(** [new ServerManager(options)] *)
Definition create (separator : option string) (noPrefix : option bool) : t :=
  {| upstreams := [];
     serverConfigs := ∅;
     separator := default Namespace.DEFAULT_SEPARATOR separator;
     noPrefix := default false noPrefix;
     toolsetManager := None |}.

Definition setToolsetManager (m : t) (manager : ToolsetManager.t) : t :=
  {| upstreams := upstreams m; serverConfigs := serverConfigs m;
     separator := separator m; noPrefix := noPrefix m;
     toolsetManager := Some manager |}.

Definition withUpstreams (m : t) (ups : list (string * UpstreamClient.t)) : t :=
  {| upstreams := ups; serverConfigs := serverConfigs m;
     separator := separator m; noPrefix := noPrefix m;
     toolsetManager := toolsetManager m |}.

Definition withServerConfigs (m : t) (cfgs : gmap string ServerConfig.t) : t :=
  {| upstreams := upstreams m; serverConfigs := cfgs;
     separator := separator m; noPrefix := noPrefix m;
     toolsetManager := toolsetManager m |}.

Definition getFilteredTools (m : t) (serverName : string)
    (client : UpstreamClient.t) : Outcome (list ToolInfo.t) :=
  let config := serverConfigs m !! serverName in
  let toolFilter := config ≫= ServerConfig.tools in
  Glob.filterTools ToolInfo.name (UpstreamClient.getTools client) toolFilter.

(** [this._toolsetManager && !this._toolsetManager.isServerVisible(name)] *)
Definition hidden (m : t) (serverName : string) : bool :=
  match toolsetManager m with
  | Some tm => negb (ToolsetManager.isServerVisible tm serverName)
  | None => false
  end.

Definition entryOf (m : t) (serverName : string) (tool : ToolInfo.t)
  : NamespacedTool.t :=
  let namespacedName :=
    if noPrefix m then ToolInfo.name tool
    else Namespace.namespaceTool serverName (ToolInfo.name tool) (separator m) in
  {| NamespacedTool.namespacedName := namespacedName;
     NamespacedTool.originalName := ToolInfo.name tool;
     NamespacedTool.serverName := serverName;
     NamespacedTool.description := ToolInfo.description tool;
     NamespacedTool.inputSchema := ToolInfo.inputSchema tool |}.

Definition metaEntryOf (metaTool : ToolInfo.t) : NamespacedTool.t :=
  {| NamespacedTool.namespacedName := ToolInfo.name metaTool;
     NamespacedTool.originalName := ToolInfo.name metaTool;
     NamespacedTool.serverName := "spike";
     NamespacedTool.description := ToolInfo.description metaTool;
     NamespacedTool.inputSchema := ToolInfo.inputSchema metaTool |}.

(** The [for (const [serverName, client] of this.upstreams)] loop of
    [getAllTools]: the array [tools] is threaded through it, [push]
    appends at the end, and an error of the filter ends it. *)
Fixpoint collectTools (m : t) (ups : list (string * UpstreamClient.t))
    (tools : list NamespacedTool.t) : Outcome (list NamespacedTool.t) :=
  match ups with
  | [] => Return tools
  | (serverName, client) :: rest =>
      if hidden m serverName then collectTools m rest tools
      else
        match getFilteredTools m serverName client with
        | Throw err => Throw err
        | Return filteredTools =>
            collectTools m rest
              (fold_left (fun tools tool => tools ++ [entryOf m serverName tool])
                         filteredTools tools)
        end
  end.

Definition getAllTools (m : t) : Outcome (list NamespacedTool.t) :=
  let tools : list NamespacedTool.t := [] in
  match collectTools m (upstreams m) tools with
  | Throw err => Throw err
  | Return tools =>
      match toolsetManager m with
      | Some _ =>
          Return (fold_left (fun tools metaTool => tools ++ [metaEntryOf metaTool])
                            ToolsetManager.getMetaTools tools)
      | None => Return tools
      end
  end.

Definition hasTool (tools : list ToolInfo.t) (name : string) : bool :=
  Js.some (fun t => String.eqb (ToolInfo.name t) name) tools.

(** The loop of [callTool] in [noPrefix] mode. *)
Fixpoint callUnprefixed (m : t) (ups : list (string * UpstreamClient.t))
    (namespacedName : string) (args : JsObject) : Outcome CallToolResult.t :=
  match ups with
  | [] => Throw ("Tool not found: " +:+ namespacedName)
  | (serverName, client) :: rest =>
      if hidden m serverName then callUnprefixed m rest namespacedName args
      else
        match getFilteredTools m serverName client with
        | Throw err => Throw err
        | Return filteredTools =>
            if hasTool filteredTools namespacedName
            then UpstreamClient.callTool client namespacedName args
            else callUnprefixed m rest namespacedName args
        end
  end.

Definition cannotResolve (namespacedName : string) : string :=
  "Cannot resolve tool: " +:+ namespacedName.
Definition serverNotConnected (serverName : string) : string :=
  "Server not connected: " +:+ serverName.
Definition toolsetNotLoaded (namespacedName : string) : string :=
  "Tool not found: " +:+ namespacedName +:+ " (toolset not loaded)".
Definition toolNotFound (namespacedName : string) : string :=
  "Tool not found: " +:+ namespacedName.

(** The part of [callTool] after the meta-tool and [noPrefix] branches.
    [missing] is what the branch [if (!client)] does with the server name
    that was parsed; in the source it throws [Server not connected]. *)
Definition callPrefixedWith (missing : string -> Outcome CallToolResult.t)
    (m : t) (namespacedName : string) (args : JsObject)
  : Outcome CallToolResult.t :=
  let parsed :=
    Namespace.parseNamespacedTool namespacedName (Obj.keys (upstreams m))
                                  (separator m) in
  match parsed with
  | None => Throw (cannotResolve namespacedName)
  | Some parsed =>
      match Obj.get (upstreams m) (Namespace.serverName parsed) with
      | None => missing (Namespace.serverName parsed)
      | Some client =>
          if hidden m (Namespace.serverName parsed)
          then Throw (toolsetNotLoaded namespacedName)
          else
            match getFilteredTools m (Namespace.serverName parsed) client with
            | Throw err => Throw err
            | Return filteredTools =>
                if negb (hasTool filteredTools (Namespace.toolName parsed))
                then Throw (toolNotFound namespacedName)
                else UpstreamClient.callTool client (Namespace.toolName parsed)
                                             args
            end
      end
  end.

(** [callTool] with the same hole: the result (or the error thrown) and
    the manager afterwards; only a meta-tool changes the manager. *)
Definition callToolWith `{JsRuntime}
    (missing : string -> Outcome CallToolResult.t) (m : t)
    (namespacedName : string) (args : JsObject)
  : Outcome CallToolResult.t * t :=
  match toolsetManager m with
  | Some tm =>
      if ToolsetManager.isMetaTool namespacedName then
        let '(r, tm') := ToolsetManager.handleMetaTool tm namespacedName args in
        (r, setToolsetManager m tm')
      else if noPrefix m
      then (callUnprefixed m (upstreams m) namespacedName args, m)
      else (callPrefixedWith missing m namespacedName args, m)
  | None =>
      if noPrefix m
      then (callUnprefixed m (upstreams m) namespacedName args, m)
      else (callPrefixedWith missing m namespacedName args, m)
  end.

(** [throw new Error(`Server not connected: ${parsed.serverName}`)] *)
Definition throwNotConnected (serverName : string) : Outcome CallToolResult.t :=
  Throw (serverNotConnected serverName).

Definition callPrefixed (m : t) (namespacedName : string) (args : JsObject)
  : Outcome CallToolResult.t :=
  callPrefixedWith throwNotConnected m namespacedName args.

Definition callTool `{JsRuntime} (m : t) (namespacedName : string)
    (args : JsObject) : Outcome CallToolResult.t * t :=
  callToolWith throwNotConnected m namespacedName args.

Definition getServerNames (m : t) : list string := Obj.keys (upstreams m).

Definition getServerTools (m : t) (serverName : string)
  : Outcome (list ToolInfo.t) :=
  match Obj.get (upstreams m) serverName with
  | None => Return []
  | Some client => getFilteredTools m serverName client
  end.

Definition isConnected (m : t) (serverName : string) : bool :=
  match Obj.get (upstreams m) serverName with
  | None => false
  | Some client => UpstreamClient.connected client
  end.

(** [reconnect]: the outcome and the manager afterwards.  [existing.close()]
    cannot throw; [client.connect()] can. *)
Definition reconnect (dial : UpstreamClient.Dial) (m : t) (serverName : string)
    (config : ServerConfig.t) : Outcome unit * t :=
  let m :=
    match Obj.get (upstreams m) serverName with
    | Some existing => withUpstreams m (Obj.remove (upstreams m) serverName)
    | None => m
    end in
  match UpstreamClient.connect dial serverName config with
  | Throw err => (Throw err, m)
  | Return client =>
      let m := withUpstreams m (Obj.set (upstreams m) serverName client) in
      let m := withServerConfigs m (<[ serverName := config ]> (serverConfigs m)) in
      (Return tt, m)
  end.

Definition disconnectServer (m : t) (serverName : string) : t :=
  match Obj.get (upstreams m) serverName with
  | Some client =>
      let m := withUpstreams m (Obj.remove (upstreams m) serverName) in
      withServerConfigs m (delete serverName (serverConfigs m))
  | None => m
  end.

End ServerManager.

(* ===================================================================== *)
(** * multiplexer/reconnect.ts *)
(* ===================================================================== *)

Module Reconnect.

Record ReconnectOptions := {
  maxAttempts : option Z;
  initialDelayMs : option Z;
  maxDelayMs : option Z
}.

(** [Required<ReconnectOptions>] *)
Record Options := {
  opt_maxAttempts : Z;
  opt_initialDelayMs : Z;
  opt_maxDelayMs : Z
}.

Definition DEFAULT_OPTIONS : Options :=
  {| opt_maxAttempts := 5; opt_initialDelayMs := 1000; opt_maxDelayMs := 30000 |}.

(** [{ ...DEFAULT_OPTIONS, ...options }] *)
Definition withDefaults (options : option ReconnectOptions) : Options :=
  match options with
  | None => DEFAULT_OPTIONS
  | Some o =>
      {| opt_maxAttempts := default (opt_maxAttempts DEFAULT_OPTIONS) (maxAttempts o);
         opt_initialDelayMs :=
           default (opt_initialDelayMs DEFAULT_OPTIONS) (initialDelayMs o);
         opt_maxDelayMs := default (opt_maxDelayMs DEFAULT_OPTIONS) (maxDelayMs o) |}
  end.

(** A JavaScript number that is a non-negative integer or [Infinity].
    Delays are positive integers below [2^53] and attempts are natural
    numbers; the products [initialDelayMs * 2^attempt] are then exact in
    binary64 until they leave its range, where they become [Infinity]. *)
Inductive number :=
| Finite (z : Z)
| PosInfinity.

Definition overflow : Z := 2 ^ 1024.

(** [Math.pow(2, attempt)] for a natural number [attempt]; the managers
    only pass attempts counted from [0], and the statements about
    [calculateBackoff] assume [0 <= attempt] (for a negative attempt the
    source has a fraction, which [number] does not have). *)
Definition pow2 (attempt : Z) : number :=
  if 2 ^ attempt <? overflow then Finite (2 ^ attempt) else PosInfinity.

(** [a * x] for a positive integer [a] *)
Definition times (a : Z) (x : number) : number :=
  match x with
  | Finite p => if a * p <? overflow then Finite (a * p) else PosInfinity
  | PosInfinity => PosInfinity
  end.

(** [Math.min(x, cap)] for a finite [cap] *)
Definition min (x : number) (cap : Z) : Z :=
  match x with
  | Finite z => Z.min z cap
  | PosInfinity => cap
  end.

Definition calculateBackoff (attempt : Z) (options : option ReconnectOptions)
  : Z :=
  let opts := withDefaults options in
  let delay := times (opt_initialDelayMs opts) (pow2 attempt) in
  min delay (opt_maxDelayMs opts).

End Reconnect.

(* ===================================================================== *)
(** * util/fuzzy.ts *)
(* ===================================================================== *)

Module Fuzzy.

(** Scores are multiples of [0.5]; they are stored in half-points, so the
    awards [+5], [+2], [+3], [+1] and the penalty [0.5] per skipped
    character read [10], [4], [6], [2] and [1]. *)
Definition halfPoints := Z.

Definition isUpperLetter (c : ascii) : bool :=
  ((65 <=? nat_of_ascii c) && (nat_of_ascii c <=? 90))%nat.
Definition isLowerLetter (c : ascii) : bool :=
  ((97 <=? nat_of_ascii c) && (nat_of_ascii c <=? 122))%nat.

Definition toLowerChar (c : ascii) : ascii :=
  if isUpperLetter c then ascii_of_nat (nat_of_ascii c + 32) else c.
Definition toUpperChar (c : ascii) : ascii :=
  if isLowerLetter c then ascii_of_nat (nat_of_ascii c - 32) else c.

Fixpoint toLowerCase (s : string) : string :=
  match s with
  | EmptyString => EmptyString
  | String c s' => String (toLowerChar c) (toLowerCase s')
  end.

Definition isWordBoundary (target : string) (index : nat) : bool :=
  if (index =? 0)%nat then true
  else
    let prev := String.get (index - 1) target in
    let curr := String.get index target in
    match prev, curr with
    | Some prev, Some curr =>
        if Ascii.eqb prev "_" || Ascii.eqb prev "-" then true
        else Ascii.eqb prev (toLowerChar prev)
             && Ascii.eqb curr (toUpperChar curr)
             && negb (Ascii.eqb curr (toLowerChar curr))
    | Some prev, None => Ascii.eqb prev "_" || Ascii.eqb prev "-"
    | None, _ => false
    end.

Definition sameChar (a b : option ascii) : bool :=
  match a, b with
  | Some a, Some b => Ascii.eqb a b
  | _, _ => false
  end.

(** The [for] loop of [fuzzyScore]; [remaining] counts the iterations
    left before [ti] reaches [t.length].  Returns [qi] and [score]. *)
Fixpoint walk (target t q : string) (remaining : nat) (ti qi : nat)
    (lastMatchIndex : Z) (score : halfPoints) : nat * halfPoints :=
  match remaining with
  | O => (qi, score)
  | S remaining' =>
      if (qi <? String.length q)%nat then
        if sameChar (String.get ti t) (String.get qi q) then
          let score := if (qi =? 0)%nat && (ti =? 0)%nat then score + 10 else score in
          let score :=
            if (0 <? ti)%nat && isWordBoundary target ti then score + 4 else score in
          let score :=
            if lastMatchIndex =? Z.of_nat ti - 1 then score + 6
            else if 0 <=? lastMatchIndex
                 then score - (Z.of_nat ti - lastMatchIndex - 1)
                 else score in
          let score := score + 2 in
          walk target t q remaining' (S ti) (S qi) (Z.of_nat ti) score
        else walk target t q remaining' (S ti) qi lastMatchIndex score
      else (qi, score)
  end.

Definition fuzzyScore (query target : string) : halfPoints :=
  if String.eqb query "" || String.eqb target "" then 0
  else
    let q := toLowerCase query in
    let t := toLowerCase target in
    let '(qi, score) := walk target t q (String.length t) 0 0 (-1) 0 in
    if (qi <? String.length q)%nat then 0 else score.

Definition fuzzyFilter {T : Type} (query : string) (items : list T)
    (getText : T -> string) : list T :=
  if String.eqb query "" then []
  else
    let scored :=
      List.filter (fun entry => 0 <? snd entry)
                  (map (fun item => (item, fuzzyScore query (getText item))) items) in
    let scored := Js.sort (fun a b => snd b <=? snd a) scored in
    map fst scored.

(** ** The scoring rule in the words of the specification

    Walking [t] left to right, the characters of [q] are matched in order,
    ignoring case.  Each match earns [+1]; [+2] more at a word boundary;
    [+3] more when it directly follows the previous match, otherwise
    [0.5] is taken off per character skipped since the previous match;
    [+5] when the first character of [q] matches at position [0]; and the
    score is [0] unless every character of [q] is matched.

    Two readings are parameters: [startIsBoundary] says whether position
    [0] counts as a word boundary, and [lower] is what "lower" means in
    "a lower-to-upper transition". *)
Section Reference.
Variable startIsBoundary : bool.
Variable lower : ascii -> bool.

(** Positions of [t] at which the characters of [q] are matched, and the
    characters of [q] left unmatched. *)
Fixpoint matchPositions (t q : list ascii) (pos : nat) {struct t}
  : list nat * list ascii :=
  match t, q with
  | _, [] => ([], [])
  | [], _ => ([], q)
  | c :: t', d :: q' =>
      if Ascii.eqb (toLowerChar c) (toLowerChar d)
      then let '(ps, unmatched) := matchPositions t' q' (S pos) in
           (pos :: ps, unmatched)
      else matchPositions t' q (S pos)
  end.

Definition wordBoundary (target : list ascii) (pos : nat) : bool :=
  match pos with
  | O => startIsBoundary
  | S before =>
      match nth_error target before, nth_error target pos with
      | Some prev, Some curr =>
          Ascii.eqb prev "_" || Ascii.eqb prev "-"
          || (lower prev && isUpperLetter curr)
      | _, _ => false
      end
  end.

Definition award (target : list ascii) (previous : option nat) (pos : nat)
  : halfPoints :=
  2
  + (if wordBoundary target pos then 4 else 0)
  + match previous with
    | None => 0
    | Some p =>
        if (pos =? S p)%nat then 6 else - (Z.of_nat pos - Z.of_nat p - 1)
    end.

Fixpoint awards (target : list ascii) (previous : option nat)
    (positions : list nat) : halfPoints :=
  match positions with
  | [] => 0
  | pos :: rest => award target previous pos + awards target (Some pos) rest
  end.

Definition prefixBonus (positions : list nat) : halfPoints :=
  match positions with
  | O :: _ => 10
  | _ => 0
  end.

Definition referenceScore (q t : string) : halfPoints :=
  let target := list_ascii_of_string t in
  let '(positions, unmatched) :=
    matchPositions target (list_ascii_of_string q) 0 in
  match unmatched with
  | [] => awards target None positions + prefixBonus positions
  | _ :: _ => 0
  end.
End Reference.

(** "lower" read as a lower-case letter. *)
Definition lowerLetter : ascii -> bool := isLowerLetter.
(** "lower" read as the source does: unchanged by lower-casing. *)
Definition lowerCased (c : ascii) : bool := Ascii.eqb c (toLowerChar c).

End Fuzzy.

(* ===================================================================== *)
(** * chat/tool-adapter.ts *)
(* ===================================================================== *)

Module Tool.
(** The tool definition of the LLM vendor's API. *)
Record t := {
  name : string;
  description : string;
  input_schema : JsObject
}.
End Tool.

Module ToolAdapter.

Definition normalizeInputSchema (schema : JsObject) : JsObject :=
  let normalized := schema in
  if negb (Obj.truthyAt normalized "type")
  then Obj.set normalized "type" (JStr "object")
  else normalized.

Definition mcpToolsToClaude (tools : list NamespacedTool.t) : list Tool.t :=
  map (fun tool =>
         {| Tool.name := NamespacedTool.namespacedName tool;
            Tool.description := default EmptyString (NamespacedTool.description tool);
            Tool.input_schema :=
              normalizeInputSchema (NamespacedTool.inputSchema tool) |})
      tools.

(** Schemas are read through the shapes the source casts them to:
    [properties] is a mapping from parameter names to objects and
    [required] is an array of strings.  [requiredOf] is the array the
    source reads when [required] is absent, [null] or an array of strings;
    on any other value the source has no cast at run time and fails or
    answers otherwise, so statements that read [required] of arbitrary
    schemas assume that shape ([requiredWellFormed] below). *)
Definition propertiesOf (inputSchema : JsObject)
  : option (list (string * JsObject)) :=
  match Obj.get inputSchema "properties" with
  | Some (JObj fields) => Some (map (fun kv => (fst kv, Obj.ownProps (snd kv))) fields)
  | _ => None
  end.

Definition requiredOf (inputSchema : JsObject) : list string :=
  match Obj.get inputSchema "required" with
  | Some (JArr items) =>
      flat_map (fun v => match v with JStr s => [s] | _ => [] end) items
  | _ => []
  end.

Record ParamInfo := {
  param_name : string;
  param_description : string;
  param_type : string
}.

Definition extractDefaults (inputSchema : JsObject) : JsObject :=
  match propertiesOf inputSchema with
  | None => []
  | Some props =>
      fold_left
        (fun defaults '(key, prop) =>
           match Obj.get prop "default" with
           | Some d => Obj.set defaults key d
           | None => defaults
           end)
        props []
  end.

Definition stringField (prop : JsObject) (key fallback : string) : string :=
  match Obj.get prop key with
  | Some (JStr s) => s
  | _ => fallback
  end.

Definition getRequiredParams (inputSchema : JsObject) : list ParamInfo :=
  let required := requiredOf inputSchema in
  match propertiesOf inputSchema with
  | None => []
  | Some props =>
      let defaults := extractDefaults inputSchema in
      map (fun name =>
             let prop := default [] (Obj.get props name) in
             {| param_name := name;
                param_description := stringField prop "description" "";
                param_type := stringField prop "type" "string" |})
          (List.filter (fun name => negb (Obj.has defaults name)) required)
  end.

Definition newline : string := String "010" EmptyString.

(** [callResult.content.map(c => c.text ?? JSON.stringify(c)).join("\n")] *)
Definition resultText `{JsRuntime} (r : CallToolResult.t) : string :=
  Js.join newline
    (map (fun c => match ContentItem.text c with
                   | Some s => s
                   | None => JSON_stringify (ContentItem.toJson c)
                   end)
         (CallToolResult.content r)).

Record Executed := {
  result : string;
  isError : bool
}.

(** [executeToolCall]: the text and error flag, and the manager afterwards. *)
Definition executeToolCall `{JsRuntime} (manager : ServerManager.t)
    (name : string) (input : JsObject) : Executed * ServerManager.t :=
  match ServerManager.callTool manager name input with
  | (Return callResult, manager') =>
      ({| result := resultText callResult;
          isError := default false (CallToolResult.isError callResult) |},
       manager')
  | (Throw message, manager') =>
      ({| result := "Tool error: " +:+ message; isError := true |}, manager')
  end.

End ToolAdapter.

(* ===================================================================== *)
(** * chat/loop.ts *)
(* ===================================================================== *)

Module AgentLoop.

Inductive ContentBlock :=
| Text (text : string)
| ToolUse (id name : string) (input : JsObject)
| ToolResult (tool_use_id content : string) (is_error : bool)
| OtherBlock (raw : json).

Inductive Content :=
| Plain (text : string)
| Blocks (blocks : list ContentBlock).

Inductive Role := user | assistant.

Record Message := { role : Role; content : Content }.

(** What one [createStream] request yields once drained: the text deltas
    and the content blocks, or the error of the stream. *)
Record StreamResult := {
  textDeltas : list string;
  blocks : list ContentBlock
}.

(** The chat client: [createStream(messages, tools)] answers from its own
    state [C]. *)
Record ChatClient (C : Type) := {
  createStream : C -> list Message -> list Tool.t -> Outcome StreamResult * C
}.
Arguments createStream {C}.

(** Everything the loop does that its caller can observe, in order: the
    requests sent to the client and the observer callbacks. *)
Inductive Event :=
| TurnStart (turn maxTurns : nat)
| Request (messages : list Message) (tools : list Tool.t)
| TextDelta (text : string)
| ToolCall (name : string)
| ToolCallStart (id name serverName : string) (input : JsObject)
| ToolCallEnd (id result : string) (isError : bool)
| TurnEnd.

Record State (C : Type) := {
  clientState : C;
  manager : ServerManager.t;
  messages : list Message;
  events : list Event
}.
Arguments clientState {C}.
Arguments manager {C}.
Arguments messages {C}.
Arguments events {C}.

Definition resolveServerName (manager : ServerManager.t) (toolName : string)
  : Outcome string :=
  match ServerManager.getAllTools manager with
  | Throw err => Throw err
  | Return allTools =>
      match Js.find (fun t => String.eqb (NamespacedTool.namespacedName t) toolName)
                    allTools with
      | Some t => Return (NamespacedTool.serverName t)
      | None => Return "unknown"
      end
  end.

Definition toolUseBlocks (blocks : list ContentBlock) : list ContentBlock :=
  List.filter (fun b => match b with ToolUse _ _ _ => true | _ => false end) blocks.

(** The [for (const toolUse of toolUseBlocks)] loop.  [resolveServerName]
    is called outside any [try]: its error ends the loop, with the manager,
    the events and the results as they are by then. *)
Fixpoint runToolCalls `{JsRuntime} (uses : list ContentBlock)
    (manager : ServerManager.t) (events : list Event)
    (toolResults : list ContentBlock)
  : Outcome unit * ServerManager.t * list Event * list ContentBlock :=
  match uses with
  | [] => (Return tt, manager, events, toolResults)
  | ToolUse id name input :: rest =>
      match resolveServerName manager name with
      | Throw err => (Throw err, manager, events, toolResults)
      | Return serverName =>
          let events :=
            events ++ [ToolCall name; ToolCallStart id name serverName input] in
          let '(executed, manager) :=
            ToolAdapter.executeToolCall manager name input in
          let events :=
            events ++ [ToolCallEnd id (ToolAdapter.result executed)
                                   (ToolAdapter.isError executed)] in
          let toolResults :=
            toolResults ++ [ToolResult id (ToolAdapter.result executed)
                                       (ToolAdapter.isError executed)] in
          runToolCalls rest manager events toolResults
      end
  | _ :: rest => runToolCalls rest manager events toolResults
  end.

Definition reachedMaximum : string :=
  ToolAdapter.newline +:+ "[Reached maximum turns]" +:+ ToolAdapter.newline.

(** The [for (let turn = 0; turn < maxTurns; turn++)] loop; [remaining] is
    [maxTurns - turn]. *)
Fixpoint turns `{JsRuntime} {C : Type} (client : ChatClient C)
    (tools : list Tool.t) (maxTurns remaining turn : nat) (st : State C)
  : Outcome unit * State C :=
  match remaining with
  | O =>
      (Return tt,
       {| clientState := clientState st; manager := manager st;
          messages := messages st;
          events := events st ++ [TextDelta reachedMaximum] |})
  | S remaining' =>
      let events := events st ++ [TurnStart (turn + 1) maxTurns] in
      let events := events ++ [Request (messages st) tools] in
      match createStream client (clientState st) (messages st) tools with
      | (Throw err, c) =>
          (Throw err,
           {| clientState := c; manager := manager st;
              messages := messages st; events := events |})
      | (Return response, c) =>
          let events := events ++ map TextDelta (textDeltas response) in
          let messages :=
            messages st ++ [ {| role := assistant;
                                content := Blocks (blocks response) |} ] in
          let uses := toolUseBlocks (blocks response) in
          match uses with
          | [] =>
              (Return tt,
               {| clientState := c; manager := manager st;
                  messages := messages; events := events ++ [TurnEnd] |})
          | _ :: _ =>
              match runToolCalls uses (manager st) events [] with
              | (Throw err, manager, events, _) =>
                  (Throw err,
                   {| clientState := c; manager := manager;
                      messages := messages; events := events |})
              | (Return _, manager, events, toolResults) =>
                  let events := events ++ [TurnEnd] in
                  let messages :=
                    messages ++ [ {| role := user;
                                     content := Blocks toolResults |} ] in
                  turns client tools maxTurns remaining' (S turn)
                        {| clientState := c; manager := manager;
                           messages := messages; events := events |}
              end
          end
      end
  end.

Definition runAgentLoop `{JsRuntime} {C : Type} (client : ChatClient C)
    (userMessage : Content) (maxTurns : option nat) (st : State C)
  : Outcome unit * State C :=
  let maxTurns := default 20%nat maxTurns in
  match ServerManager.getAllTools (manager st) with
  | Throw err => (Throw err, st)
  | Return allTools =>
      let tools := ToolAdapter.mcpToolsToClaude allTools in
      let st :=
        {| clientState := clientState st; manager := manager st;
           messages := messages st ++ [ {| role := user; content := userMessage |} ];
           events := events st |} in
      turns client tools maxTurns maxTurns 0 st
  end.

End AgentLoop.

(* ===================================================================== *)
(** * chat/slash-commands.ts *)
(* ===================================================================== *)

Module SessionState.

Record t := {
  created : gmap string (list string);
  idsByKey : gmap string (list string);
  configToolsCalled : gset string
}.

(** [new SessionState()] *)
Definition empty : t :=
  {| created := ∅; idsByKey := ∅; configToolsCalled := ∅ |}.

Definition recordCreate (s : t) (prefix : string) (ids : list string) : t :=
  let existing := default [] (created s !! prefix) in
  {| created := <[ prefix := existing ++ ids ]> (created s);
     idsByKey := idsByKey s;
     configToolsCalled := configToolsCalled s |}.

Definition hasCreated (s : t) (prefix : string) : bool :=
  match created s !! prefix with
  | Some (_ :: _) => true
  | _ => false
  end.

Definition getCreatedIds (s : t) (prefix : string) : list string :=
  default [] (created s !! prefix).

Definition pushId (ids : gmap string (list string)) (key value : string)
  : gmap string (list string) :=
  let existing := default [] (ids !! key) in
  <[ key := existing ++ [value] ]> ids.

(** The body of the [for (const [key, value] of Object.entries(parsed))]
    loop of [recordIds]. *)
Definition recordEntry (ids : gmap string (list string)) (entry : string * json)
  : gmap string (list string) :=
  let '(key, value) := entry in
  let ids :=
    match value with
    | JStr v => if Js.endsWith key "_id" then pushId ids key v else ids
    | _ => ids
    end in
  match value with
  | JStr v => if String.eqb key "id" then pushId ids "id" v else ids
  | _ => ids
  end.

Definition recordIds `{JsRuntime} (s : t) (result : string) : t :=
  match JSON_parse result with
  | None => s
  | Some parsed =>
      match parsed with
      | JObj _ | JArr _ =>
          {| created := created s;
             idsByKey := fold_left recordEntry (Obj.ownProps parsed) (idsByKey s);
             configToolsCalled := configToolsCalled s |}
      | _ => s
      end
  end.

Definition getLatestId (s : t) (paramName : string) : option string :=
  match idsByKey s !! paramName with
  | Some ids => last ids
  | None => None
  end.

Definition hasId (s : t) (paramName : string) : bool :=
  match idsByKey s !! paramName with
  | Some (_ :: _) => true
  | _ => false
  end.

Definition recordConfigCall (s : t) (toolName : string) : t :=
  {| created := created s;
     idsByKey := idsByKey s;
     configToolsCalled := {[ toolName ]} ∪ configToolsCalled s |}.

Definition hasConfigBeenCalled (s : t) (toolName : string) : bool :=
  bool_decide (toolName ∈ configToolsCalled s).

End SessionState.

Module Slash.

Definition CONFIG_PREREQUISITES : list (string * list string) :=
  [ ("set_project_root"%string,
     ["run_tests"; "list_tests"; "analyze_coverage"]%string) ].

(** [name in CONFIG_PREREQUISITES] *)
Definition isConfigPrerequisite (name : string) : bool :=
  match Obj.get CONFIG_PREREQUISITES name with
  | Some _ => true
  | None => Obj.inherited name
  end.

Definition isSpace (c : ascii) : bool :=
  let n := nat_of_ascii c in
  ((n =? 32) || ((9 <=? n) && (n <=? 13)))%nat.

Fixpoint trimStart (s : string) : string :=
  match s with
  | String c s' => if isSpace c then trimStart s' else s
  | EmptyString => EmptyString
  end.

Fixpoint trimEnd (s : string) : string :=
  match s with
  | EmptyString => EmptyString
  | String c s' =>
      match trimEnd s' with
      | EmptyString => if isSpace c then EmptyString else String c EmptyString
      | rest => String c rest
      end
  end.

(** [s.trim()] *)
Definition trim (s : string) : string := trimEnd (trimStart s).

Record ParsedSlashInput := { command : string; argsRaw : string }.

Definition parseSlashInput (input : string) : ParsedSlashInput :=
  let withoutSlash := Js.slice input 1 in
  match Js.indexOf withoutSlash " " with
  | None => {| command := trim withoutSlash; argsRaw := "" |}
  | Some spaceIndex =>
      {| command := trim (Js.sliceTo withoutSlash spaceIndex);
         argsRaw := trim (Js.slice withoutSlash (spaceIndex + 1)) |}
  end.

Definition extractPrefix (namespacedName serverName separator : string)
  : string :=
  let toolName := namespacedName in
  let nsPrefix := serverName +:+ separator in
  let toolName :=
    if Js.startsWith toolName nsPrefix
    then Js.slice toolName (String.length nsPrefix)
    else toolName in
  match Js.indexOf toolName "_" with
  | None => toolName
  | Some underscoreIndex => Js.sliceTo toolName underscoreIndex
  end.

(** The module's own [stripNamespace], separator ["__"] by default. *)
Definition stripNamespace (namespacedName serverName : string) : string :=
  let nsPrefix := serverName +:+ "__" in
  if Js.startsWith namespacedName nsPrefix
  then Js.slice namespacedName (String.length nsPrefix)
  else namespacedName.

Definition boolValue (value : string) : bool :=
  String.eqb (Fuzzy.toLowerCase value) "true" || String.eqb value "1".

Definition coerceValue `{JsRuntime} (value type : string) : json :=
  if String.eqb type "number" || String.eqb type "integer"
  then Number_of_string value
  else if String.eqb type "boolean" then JBool (boolValue value)
  else if String.eqb type "array" || String.eqb type "object"
  then match JSON_parse value with
       | Some v => v
       | None => JStr value
       end
  else JStr value.

Definition idKeys : list string :=
  ["id"; "game_id"; "player_id"; "app_id"; "session_id"]%string.

Definition extractIdsFromResult `{JsRuntime} (result : string) : list string :=
  match JSON_parse result with
  | None => []
  | Some JNull => []
  | Some parsed =>
      flat_map (fun key =>
                  match Obj.get (Obj.ownProps parsed) key with
                  | Some (JStr v) => [v]
                  | _ => []
                  end)
               idKeys
  end.

Definition BUILTIN_COMMANDS : list string :=
  ["tools"; "apps"; "servers"; "clear"; "model"; "help"; "quit"; "exit"]%string.

Definition strippedOf (t : NamespacedTool.t) : string :=
  stripNamespace (NamespacedTool.namespacedName t) (NamespacedTool.serverName t).

Definition resolveToolName (command : string) (tools : list NamespacedTool.t)
  : option NamespacedTool.t :=
  match Js.find (fun t => String.eqb (NamespacedTool.namespacedName t) command) tools with
  | Some exact => Some exact
  | None =>
  match Js.find (fun t => String.eqb (NamespacedTool.originalName t) command) tools with
  | Some exactOriginal => Some exactOriginal
  | None =>
  match Js.find (fun t => String.eqb (strippedOf t) command) tools with
  | Some exactStripped => Some exactStripped
  | None =>
      let fuzzyResults := Fuzzy.fuzzyFilter command tools strippedOf in
      match fuzzyResults with
      | [] => None
      | [only] => Some only
      | best :: runnerUp :: _ =>
          let bestScore := Fuzzy.fuzzyScore command (strippedOf best) in
          let runnerUpScore := Fuzzy.fuzzyScore command (strippedOf runnerUp) in
          if runnerUpScore * 2 <=? bestScore then Some best else Some best
      end
  end end end.

(** The loop that fills required identifier parameters from the session. *)
Definition autoFill (sessionState : SessionState.t) (required : list string)
    (mergedArgs : JsObject) : JsObject :=
  fold_left
    (fun mergedArgs paramName =>
       if Obj.has mergedArgs paramName then mergedArgs
       else if Js.endsWith paramName "_id" || String.eqb paramName "id" then
         match SessionState.getLatestId sessionState paramName with
         | Some latestId =>
             if negb (String.eqb latestId "")
             then Obj.set mergedArgs paramName (JStr latestId)
             else mergedArgs
         | None => mergedArgs
         end
       else mergedArgs)
    required mergedArgs.

(** The interactive input channel: the line typed at the n-th question. *)
Definition Readline := nat -> string.

Record SlashCommandContext := {
  manager : ServerManager.t;
  sessionState : SessionState.t;
  rl : option Readline
}.

(** What a slash command comes to.  The [output] text of the source is a
    rendering of this value, and the rendering is not modelled; [Thrown]
    is the error that leaves the handler when the manager cannot read its
    catalog ([getAllTools], [getServerTools]), which no [try] of the
    handler encloses. *)
Inductive DirectResult :=
| Builtin (command argsRaw : string)
| NoMatchingTool (command : string)
| InvalidJsonArgs (argsRaw : string)
| Cancelled (paramName : string)
| MissingRequired (missingParams : list ToolAdapter.ParamInfo)
| Called (tool : NamespacedTool.t) (mergedArgs : JsObject)
         (result : string) (isError : bool)
| Thrown (message : string).

(** The loop that prompts for the missing parameters: the completed
    arguments, or the name of the parameter whose answer was empty. *)
Fixpoint promptAll `{JsRuntime} (rl : Readline) (asked : nat)
    (missingParams : list ToolAdapter.ParamInfo) (mergedArgs : JsObject)
  : JsObject + string :=
  match missingParams with
  | [] => inl mergedArgs
  | param :: rest =>
      let value := trim (rl asked) in
      if String.eqb value "" then inr (ToolAdapter.param_name param)
      else
        promptAll rl (S asked) rest
          (Obj.set mergedArgs (ToolAdapter.param_name param)
                   (coerceValue value (ToolAdapter.param_type param)))
  end.

(** The bookkeeping of [handleDirectToolCall] after the call returned. *)
Definition bookkeeping `{JsRuntime} (sessionState : SessionState.t)
    (tool : NamespacedTool.t) (result : string) (isError : bool)
  : SessionState.t :=
  let sessionState :=
    if negb isError then SessionState.recordIds sessionState result
    else sessionState in
  let strippedName := strippedOf tool in
  let sessionState :=
    if isConfigPrerequisite strippedName
    then SessionState.recordConfigCall sessionState strippedName
    else sessionState in
  let prefix :=
    extractPrefix (NamespacedTool.namespacedName tool)
                  (NamespacedTool.serverName tool) "__" in
  if Js.includes (NamespacedTool.namespacedName tool) "create"
     || Js.includes (NamespacedTool.namespacedName tool) "bootstrap"
  then
    match extractIdsFromResult result with
    | [] => SessionState.recordCreate sessionState prefix ["_created"%string]
    | ids => SessionState.recordCreate sessionState prefix ids
    end
  else sessionState.

Definition execute `{JsRuntime} (ctx : SlashCommandContext)
    (tool : NamespacedTool.t) (mergedArgs : JsObject)
  : DirectResult * SlashCommandContext :=
  let '(executed, manager') :=
    ToolAdapter.executeToolCall (manager ctx)
      (NamespacedTool.namespacedName tool) mergedArgs in
  let result := ToolAdapter.result executed in
  let isError := ToolAdapter.isError executed in
  (Called tool mergedArgs result isError,
   {| manager := manager';
      sessionState := bookkeeping (sessionState ctx) tool result isError;
      rl := rl ctx |}).

(** After [const allTools = manager.getAllTools()]. *)
Definition directCall `{JsRuntime} (command argsRaw : string)
    (ctx : SlashCommandContext) (allTools : list NamespacedTool.t)
  : DirectResult * SlashCommandContext :=
  match resolveToolName command allTools with
  | None => (NoMatchingTool command, ctx)
  | Some tool =>
      let schema := NamespacedTool.inputSchema tool in
      let userArgs :=
        if String.eqb argsRaw "" then Some (JObj [])
        else JSON_parse argsRaw in
      match userArgs with
      | None => (InvalidJsonArgs argsRaw, ctx)
      | Some userArgs =>
          let defaults := ToolAdapter.extractDefaults schema in
          let mergedArgs := Obj.spread defaults (Obj.ownProps userArgs) in
          let required := ToolAdapter.requiredOf schema in
          let mergedArgs := autoFill (sessionState ctx) required mergedArgs in
          let missingParams :=
            List.filter
              (fun p => negb (Obj.has mergedArgs (ToolAdapter.param_name p)))
              (ToolAdapter.getRequiredParams schema) in
          match missingParams, rl ctx with
          | [], _ => execute ctx tool mergedArgs
          | _ :: _, Some rl =>
              match promptAll rl 0 missingParams mergedArgs with
              | inr paramName => (Cancelled paramName, ctx)
              | inl mergedArgs => execute ctx tool mergedArgs
              end
          | _ :: _, None => (MissingRequired missingParams, ctx)
          end
      end
  end.

Definition handleDirectToolCall `{JsRuntime} (command argsRaw : string)
    (ctx : SlashCommandContext) : DirectResult * SlashCommandContext :=
  match ServerManager.getAllTools (manager ctx) with
  | Throw err => (Thrown err, ctx)
  | Return allTools => directCall command argsRaw ctx allTools
  end.

(** [handleBuiltinCommand] only formats what it reads from the manager and
    the session: [tools] reads the catalog, [servers] the tools of every
    server, and either read can throw. *)
Definition handleBuiltinCommand (command argsRaw : string)
    (ctx : SlashCommandContext) : DirectResult :=
  if String.eqb command "tools" then
    match ServerManager.getAllTools (manager ctx) with
    | Throw err => Thrown err
    | Return _ => Builtin command argsRaw
    end
  else if String.eqb command "servers" then
    match mapThrowing (ServerManager.getServerTools (manager ctx))
                      (ServerManager.getServerNames (manager ctx)) with
    | Throw err => Thrown err
    | Return _ => Builtin command argsRaw
    end
  else Builtin command argsRaw.

(** [handleSlashCommand] *)
Definition handleSlashCommand `{JsRuntime} (input : string)
    (ctx : SlashCommandContext) : DirectResult * SlashCommandContext :=
  let parsed := parseSlashInput input in
  if existsb (String.eqb (command parsed)) BUILTIN_COMMANDS
  then (handleBuiltinCommand (command parsed) (argsRaw parsed) ctx, ctx)
  else handleDirectToolCall (command parsed) (argsRaw parsed) ctx.

(** [trackToolCallForSession], the hook of the agent loop. *)
Definition trackToolCallForSession `{JsRuntime} (toolName result : string)
    (isError : bool) (allTools : list NamespacedTool.t)
    (sessionState : SessionState.t) : SessionState.t :=
  if isError then sessionState
  else
    match Js.find (fun t => String.eqb (NamespacedTool.namespacedName t) toolName)
                  allTools with
    | None => sessionState
    | Some tool =>
        let sessionState := SessionState.recordIds sessionState result in
        let stripped := stripNamespace toolName (NamespacedTool.serverName tool) in
        let sessionState :=
          if isConfigPrerequisite stripped
          then SessionState.recordConfigCall sessionState stripped
          else sessionState in
        if Js.includes toolName "create" || Js.includes toolName "bootstrap"
        then
          let prefix := extractPrefix toolName (NamespacedTool.serverName tool) "__" in
          match extractIdsFromResult result with
          | [] => SessionState.recordCreate sessionState prefix ["_created"%string]
          | ids => SessionState.recordCreate sessionState prefix ids
          end
        else sessionState
    end.

End Slash.

(* ===================================================================== *)
(** * A runtime for the worked scenarios *)
(* ===================================================================== *)

(** The general results below hold for every [JsRuntime].  The worked
    scenarios are run with this one: a reader and a writer of JSON texts
    over ASCII with integer numbers.  On every text it accepts it returns
    the value [JSON.parse] returns; texts with fractional numbers or
    characters beyond the alphabet are not used in the scenarios. *)
Module MiniJson.

Definition isWs (c : ascii) : bool :=
  Ascii.eqb c " " || Ascii.eqb c "009" || Ascii.eqb c "010" || Ascii.eqb c "013".

Fixpoint skipWs (s : list ascii) : list ascii :=
  match s with
  | c :: rest => if isWs c then skipWs rest else s
  | [] => []
  end.

Definition digitOf (c : ascii) : option Z :=
  let n := nat_of_ascii c in
  if ((48 <=? n) && (n <=? 57))%nat then Some (Z.of_nat n - 48) else None.

Definition hexOf (c : ascii) : option nat :=
  let n := nat_of_ascii c in
  if ((48 <=? n) && (n <=? 57))%nat then Some (n - 48)%nat
  else if ((97 <=? n) && (n <=? 102))%nat then Some (n - 87)%nat
  else if ((65 <=? n) && (n <=? 70))%nat then Some (n - 55)%nat
  else None.

Definition unescape (e : ascii) : option ascii :=
  if Ascii.eqb e "034" then Some "034"%char
  else if Ascii.eqb e "\" then Some "\"%char
  else if Ascii.eqb e "/" then Some "/"%char
  else if Ascii.eqb e "b" then Some "008"%char
  else if Ascii.eqb e "f" then Some "012"%char
  else if Ascii.eqb e "n" then Some "010"%char
  else if Ascii.eqb e "r" then Some "013"%char
  else if Ascii.eqb e "t" then Some "009"%char
  else None.

(** [\u00hl] within the alphabet. *)
Definition unicodeEscape (a b c d : ascii) : option ascii :=
  match hexOf a, hexOf b, hexOf c, hexOf d with
  | Some 0%nat, Some 0%nat, Some h, Some l => Some (ascii_of_nat (16 * h + l))
  | _, _, _, _ => None
  end.

(** The characters of a string literal after its opening quote. *)
Fixpoint readString (s : list ascii) (acc : string)
  : option (string * list ascii) :=
  let put (c : ascii) := acc +:+ String c EmptyString in
  match s with
  | [] => None
  | c :: rest =>
      if Ascii.eqb c "034" then Some (acc, rest)
      else if Ascii.eqb c "\" then
        match rest with
        | [] => None
        | e :: rest =>
            if Ascii.eqb e "u" then
              match rest with
              | a :: b :: c :: d :: rest =>
                  match unicodeEscape a b c d with
                  | Some x => readString rest (put x)
                  | None => None
                  end
              | _ => None
              end
            else
              match unescape e with
              | Some x => readString rest (put x)
              | None => None
              end
        end
      else if (nat_of_ascii c <? 32)%nat then None
      else readString rest (put c)
  end.

Fixpoint readDigits (s : list ascii) (acc : Z) : Z * list ascii :=
  match s with
  | c :: rest =>
      match digitOf c with
      | Some d => readDigits rest (10 * acc + d)
      | None => (acc, s)
      end
  | [] => (acc, [])
  end.

(** An integer literal: [0] or a non-zero digit followed by digits. *)
Definition readNatural (s : list ascii) : option (Z * list ascii) :=
  match s with
  | c :: rest =>
      match digitOf c with
      | Some 0 =>
          match rest with
          | d :: _ => match digitOf d with
                      | Some _ => None
                      | None => Some (0, rest)
                      end
          | [] => Some (0, rest)
          end
      | Some d => Some (readDigits rest d)
      | None => None
      end
  | [] => None
  end.

Definition integral (r : option (Z * list ascii)) : option (json * list ascii) :=
  match r with
  | Some (n, rest) =>
      match rest with
      | c :: _ =>
          if Ascii.eqb c "." || Ascii.eqb c "e" || Ascii.eqb c "E"
          then None else Some (JNum n, rest)
      | [] => Some (JNum n, rest)
      end
  | None => None
  end.

(** [s] without the leading [word], when it starts with it. *)
Fixpoint after (word s : list ascii) {struct word} : option (list ascii) :=
  match word, s with
  | [], _ => Some s
  | w :: word', c :: s' => if Ascii.eqb w c then after word' s' else None
  | _ :: _, [] => None
  end.

Definition startsWithChar (c : ascii) (s : list ascii) : option (list ascii) :=
  match s with
  | d :: rest => if Ascii.eqb c d then Some rest else None
  | [] => None
  end.

Definition literal (word : string) (v : json) (s : list ascii)
  : option (json * list ascii) :=
  match after (list_ascii_of_string word) s with
  | Some rest => Some (v, rest)
  | None => None
  end.

Definition negative (r : option (Z * list ascii)) : option (Z * list ascii) :=
  match r with
  | Some (n, rest) => Some (- n, rest)
  | None => None
  end.

Fixpoint readValue (fuel : nat) (s : list ascii) : option (json * list ascii) :=
  match fuel with
  | O => None
  | S fuel =>
      match skipWs s with
      | [] => None
      | c :: rest =>
          if Ascii.eqb c "{" then
            match startsWithChar "}" (skipWs rest) with
            | Some rest => Some (JObj [], rest)
            | None =>
                (fix members (n : nat) (s : list ascii) (acc : JsObject)
                   : option (json * list ascii) :=
                   match n with
                   | O => None
                   | S n =>
                       match startsWithChar "034" (skipWs s) with
                       | None => None
                       | Some s =>
                           match readString s EmptyString with
                           | None => None
                           | Some (key, s) =>
                               match startsWithChar ":" (skipWs s) with
                               | None => None
                               | Some s =>
                                   match readValue fuel s with
                                   | None => None
                                   | Some (v, s) =>
                                       match skipWs s with
                                       | [] => None
                                       | d :: s =>
                                           if Ascii.eqb d ","
                                           then members n s (Obj.set acc key v)
                                           else if Ascii.eqb d "}"
                                           then Some (JObj (Obj.set acc key v), s)
                                           else None
                                       end
                                   end
                               end
                           end
                       end
                   end) fuel rest []
            end
          else if Ascii.eqb c "[" then
            match startsWithChar "]" (skipWs rest) with
            | Some rest => Some (JArr [], rest)
            | None =>
                (fix elements (n : nat) (s : list ascii) (acc : list json)
                   : option (json * list ascii) :=
                   match n with
                   | O => None
                   | S n =>
                       match readValue fuel s with
                       | None => None
                       | Some (v, s) =>
                           match skipWs s with
                           | [] => None
                           | d :: s =>
                               if Ascii.eqb d "," then elements n s (acc ++ [v])
                               else if Ascii.eqb d "]" then Some (JArr (acc ++ [v]), s)
                               else None
                           end
                       end
                   end) fuel rest []
            end
          else if Ascii.eqb c "034" then
            match readString rest EmptyString with
            | Some (str, rest) => Some (JStr str, rest)
            | None => None
            end
          else if Ascii.eqb c "t" then literal "rue" (JBool true) rest
          else if Ascii.eqb c "f" then literal "alse" (JBool false) rest
          else if Ascii.eqb c "n" then literal "ull" JNull rest
          else if Ascii.eqb c "-" then integral (negative (readNatural rest))
          else integral (readNatural (c :: rest))
      end
  end.

Definition parse (text : string) : option json :=
  let s := list_ascii_of_string text in
  match readValue (S (List.length s)) s with
  | Some (v, rest) =>
      match skipWs rest with
      | [] => Some v
      | _ :: _ => None
      end
  | None => None
  end.

Definition hexDigit (n : nat) : ascii :=
  if (n <? 10)%nat then ascii_of_nat (48 + n) else ascii_of_nat (87 + n).

Definition escapeChar (c : ascii) : string :=
  if Ascii.eqb c "034" then "\" +:+ String "034" EmptyString
  else if Ascii.eqb c "\" then "\\"
  else if Ascii.eqb c "008" then "\b"
  else if Ascii.eqb c "012" then "\f"
  else if Ascii.eqb c "010" then "\n"
  else if Ascii.eqb c "013" then "\r"
  else if Ascii.eqb c "009" then "\t"
  else if (nat_of_ascii c <? 32)%nat
  then "\u00" +:+ String (hexDigit (nat_of_ascii c / 16)) EmptyString
              +:+ String (hexDigit (nat_of_ascii c mod 16)) EmptyString
  else String c EmptyString.

Fixpoint escape (s : string) : string :=
  match s with
  | EmptyString => EmptyString
  | String c s' => escapeChar c +:+ escape s'
  end.

Definition quote (s : string) : string :=
  String "034" EmptyString +:+ escape s +:+ String "034" EmptyString.

Fixpoint spaces (n : nat) : string :=
  match n with
  | O => EmptyString
  | S n' => String " " (spaces n')
  end.

(** [JSON.stringify(v)] when [step] is [0], [JSON.stringify(v, null, step)]
    otherwise; [depth] is the current indentation. *)
Fixpoint write (step depth : nat) (v : json) : string :=
  let inner := (depth + step)%nat in
  let open := if (step =? 0)%nat then EmptyString
              else String "010" (spaces inner) in
  let close := if (step =? 0)%nat then EmptyString
               else String "010" (spaces depth) in
  let colon := if (step =? 0)%nat then ":"%string else ": "%string in
  match v with
  | JNull => "null"
  | JBool true => "true"
  | JBool false => "false"
  | JNum n => Obj.showNumber n
  | JStr s => quote s
  | JArr [] => "[]"
  | JArr items =>
      "[" +:+ open
      +:+ Js.join ("," +:+ open) (map (write step inner) items)
      +:+ close +:+ "]"
  | JObj [] => "{}"
  | JObj fields =>
      "{" +:+ open
      +:+ Js.join ("," +:+ open)
            (map (fun kv => quote (fst kv) +:+ colon +:+ write step inner (snd kv))
                 fields)
      +:+ close +:+ "}"
  end.

(** [Number(text)] for decimal integers; anything else is [NaN], which
    reaches an upstream as [null]. *)
Definition number (text : string) : json :=
  let s := list_ascii_of_string text in
  let r := match startsWithChar "-" s with
           | Some rest => negative (readNatural rest)
           | None => readNatural s
           end in
  match r with
  | Some (n, []) => JNum n
  | _ => JNull
  end.

End MiniJson.

Definition scenarioRuntime : JsRuntime := {|
  JSON_parse := MiniJson.parse;
  JSON_stringify := MiniJson.write 0 0;
  JSON_stringify_pretty := MiniJson.write 2 0;
  Number_of_string := MiniJson.number
|}.

(* ===================================================================== *)
(** * Worked scenarios *)
(* ===================================================================== *)

Module Scenario.

Definition dq : string := String "034" EmptyString.

(** The JSON text [{"key":"value"}]. *)
Definition single (key value : string) : string :=
  "{" +:+ dq +:+ key +:+ dq +:+ ":" +:+ dq +:+ value +:+ dq +:+ "}".

(** The JSON text [{"from":"e2","to":"e4"}]. *)
Definition moveArgs : string :=
  "{" +:+ dq +:+ "from" +:+ dq +:+ ":" +:+ dq +:+ "e2" +:+ dq +:+ ","
      +:+ dq +:+ "to" +:+ dq +:+ ":" +:+ dq +:+ "e4" +:+ dq +:+ "}".

Definition stringParam : json := JObj [("type"%string, JStr "string")].

Definition chess_create_game : ToolInfo.t :=
  {| ToolInfo.name := "chess_create_game";
     ToolInfo.description := Some "Create a game"%string;
     ToolInfo.inputSchema :=
       [ ("type"%string, JStr "object");
         ("properties"%string,
          JObj [ ("time_control"%string,
                  JObj [ ("type"%string, JStr "string");
                         ("default"%string, JStr "BLITZ_5") ]) ]) ] |}.

Definition chess_make_move : ToolInfo.t :=
  {| ToolInfo.name := "chess_make_move";
     ToolInfo.description := Some "Make a move"%string;
     ToolInfo.inputSchema :=
       [ ("type"%string, JStr "object");
         ("properties"%string,
          JObj [ ("game_id"%string, stringParam);
                 ("from"%string, stringParam);
                 ("to"%string, stringParam) ]);
         ("required"%string, JArr [JStr "game_id"; JStr "from"; JStr "to"]) ] |}.

Definition set_project_root : ToolInfo.t :=
  {| ToolInfo.name := "set_project_root";
     ToolInfo.description := None;
     ToolInfo.inputSchema :=
       [ ("type"%string, JStr "object"); ("properties"%string, JObj []) ] |}.

Definition run_tests : ToolInfo.t :=
  {| ToolInfo.name := "run_tests";
     ToolInfo.description := Some "Run tests"%string;
     ToolInfo.inputSchema :=
       [ ("type"%string, JStr "object"); ("properties"%string, JObj []) ] |}.

(** The chess upstream: creating a game replies [create]; a move is
    answered by [move], which sees the arguments it was sent. *)
Definition chessRemote (create : CallToolResult.t)
    (move : JsObject -> CallToolResult.t) : UpstreamClient.Remote :=
  {| UpstreamClient.listTools := [chess_create_game; chess_make_move];
     UpstreamClient.remoteCall := fun toolName args =>
       if String.eqb toolName "chess_create_game" then Return create
       else if String.eqb toolName "chess_make_move" then Return (move args)
       else Throw "unknown tool" |}.

Definition vitestRemote (reply : CallToolResult.t) : UpstreamClient.Remote :=
  {| UpstreamClient.listTools := [set_project_root; run_tests];
     UpstreamClient.remoteCall := fun _ _ => Return reply |}.

Definition stdio (command : string) : ServerConfig.t :=
  {| ServerConfig.transport := ServerConfig.Stdio command None;
     ServerConfig.env := None;
     ServerConfig.tools := None |}.

Definition connected (name : string) (r : UpstreamClient.Remote)
  : UpstreamClient.t :=
  {| UpstreamClient.name := name;
     UpstreamClient.config := stdio name;
     UpstreamClient.tools := UpstreamClient.listTools r;
     UpstreamClient.connected := true;
     UpstreamClient.remote := r |}.

(** A fleet of two upstreams, [chess] and [vitest], without toolsets. *)
Definition fleet (chess vitest : UpstreamClient.Remote) : ServerManager.t :=
  {| ServerManager.upstreams :=
       [ ("chess"%string, connected "chess" chess);
         ("vitest"%string, connected "vitest" vitest) ];
     ServerManager.serverConfigs :=
       <[ "vitest"%string := stdio "vitest" ]>
         (<[ "chess"%string := stdio "chess" ]> ∅);
     ServerManager.separator := "__";
     ServerManager.noPrefix := false;
     ServerManager.toolsetManager := None |}.

(** The configuration of [vitest] with the filter [{allowed: patterns}]. *)
Definition allowing (patterns : list string) : ServerConfig.t :=
  {| ServerConfig.transport := ServerConfig.Stdio "vitest" None;
     ServerConfig.env := None;
     ServerConfig.tools :=
       Some {| Glob.allowed := Some patterns; Glob.blocked := None |} |}.

Definition ok (text : string) : CallToolResult.t :=
  CallToolResult.textResult text (Some false).
Definition failed (text : string) : CallToolResult.t :=
  CallToolResult.textResult text (Some true).

Definition session (m : ServerManager.t) (s : SessionState.t)
    (rl : option Slash.Readline) : Slash.SlashCommandContext :=
  {| Slash.manager := m; Slash.sessionState := s; Slash.rl := rl |}.

(** The same fleet behind a toolset controller that groups [vitest] under
    the toolset [testing], nothing loaded yet. *)
Definition lazyFleet : ServerManager.t :=
  ServerManager.setToolsetManager
    (fleet (chessRemote (ok "created") (fun _ => ok "moved"))
           (vitestRemote (ok "3 tests passed")))
    {| ToolsetManager.toolsets :=
         [ ("testing"%string,
            {| ToolsetManager.servers := ["vitest"%string];
               ToolsetManager.description := None |}) ];
       ToolsetManager.loadedToolsets := ∅;
       ToolsetManager.serverToolCountFn := fun _ => Return 2 |}.

(** The callback the [serve] command gives the toolset controller:
    [serverName => manager.getServerTools(serverName).length]. *)
Definition toolCount (m : ServerManager.t) (serverName : string) : Outcome Z :=
  match ServerManager.getServerTools m serverName with
  | Throw err => Throw err
  | Return tools => Return (Z.of_nat (List.length tools))
  end.

(** The fleet of [chess] and [vitest] where [vitest] is configured with
    the filter [{allowed: ["?"]}]. *)
Definition questionFleet : ServerManager.t :=
  let m := fleet (chessRemote (ok "created") (fun _ => ok "moved"))
                 (vitestRemote (ok "3 tests passed")) in
  ServerManager.withServerConfigs m
    (<[ "vitest"%string := allowing ["?"%string] ]>
       (ServerManager.serverConfigs m)).

(** That fleet behind a toolset controller that groups [vitest] under the
    toolset [testing], after [testing] was loaded. *)
Definition questionLazyFleet : ServerManager.t :=
  ServerManager.setToolsetManager questionFleet
    (snd (ToolsetManager.loadToolset
            (ToolsetManager.create
               [ ("testing"%string,
                  {| ToolsetManager.servers := ["vitest"%string];
                     ToolsetManager.description := None |}) ]
               (toolCount questionFleet))
            "testing")).

(** A chat client that first asks to load the toolset [testing] and then
    answers in plain text; its state counts the requests. *)
Definition loadingClient : AgentLoop.ChatClient nat :=
  {| AgentLoop.createStream := fun n _ _ =>
       match n with
       | O =>
           (Return {| AgentLoop.textDeltas := [];
                      AgentLoop.blocks :=
                        [ AgentLoop.ToolUse "t1" "spike__load_toolset"
                            [("name"%string, JStr "testing")] ] |},
            S n)
       | S _ =>
           (Return {| AgentLoop.textDeltas := ["Loaded."%string];
                      AgentLoop.blocks := [AgentLoop.Text "Loaded."] |},
            S n)
       end |}.

(** A chat client that first asks for the tests to be run and then answers
    in plain text. *)
Definition testingClient : AgentLoop.ChatClient nat :=
  {| AgentLoop.createStream := fun n _ _ =>
       match n with
       | O =>
           (Return {| AgentLoop.textDeltas := [];
                      AgentLoop.blocks :=
                        [ AgentLoop.ToolUse "t1" "vitest__run_tests"
                            [("filter"%string, JStr "*.ts")] ] |},
            S n)
       | S _ =>
           (Return {| AgentLoop.textDeltas := ["All tests passed!"%string];
                      AgentLoop.blocks := [AgentLoop.Text "All tests passed!"] |},
            S n)
       end |}.

Definition requestsOf (events : list AgentLoop.Event) : list (list Tool.t) :=
  flat_map (fun e => match e with
                     | AgentLoop.Request _ tools => [tools]
                     | _ => []
                     end) events.

(** The catalog entries of the two chess tools. *)
Definition createEntry : NamespacedTool.t :=
  {| NamespacedTool.namespacedName := "chess__chess_create_game";
     NamespacedTool.originalName := "chess_create_game";
     NamespacedTool.serverName := "chess";
     NamespacedTool.description := ToolInfo.description chess_create_game;
     NamespacedTool.inputSchema := ToolInfo.inputSchema chess_create_game |}.

Definition moveEntry : NamespacedTool.t :=
  {| NamespacedTool.namespacedName := "chess__chess_make_move";
     NamespacedTool.originalName := "chess_make_move";
     NamespacedTool.serverName := "chess";
     NamespacedTool.description := ToolInfo.description chess_make_move;
     NamespacedTool.inputSchema := ToolInfo.inputSchema chess_make_move |}.

(** The arguments [{from: "e2", to: "e4"}] of the user and the same with
    [game_id: "game_abc"] filled in. *)
Definition userMove : JsObject :=
  [ ("from"%string, JStr "e2"); ("to"%string, JStr "e4") ].

Definition filledMove : JsObject :=
  [ ("from"%string, JStr "e2"); ("to"%string, JStr "e4");
    ("game_id"%string, JStr "game_abc") ].

Definition gameIdParam : ToolAdapter.ParamInfo :=
  {| ToolAdapter.param_name := "game_id";
     ToolAdapter.param_description := "";
     ToolAdapter.param_type := "string" |}.

End Scenario.

(* ===================================================================== *)
(** * Vocabulary of the statements *)
(* ===================================================================== *)

(** A known server [k] matches a wire name when [k + separator] is a
    prefix of it. *)
Definition matchesServer (wire separator k : string) : bool :=
  Js.startsWith wire (k +:+ separator).

(** What [callTool] does in prefixed mode for a wire name that is not a
    meta-tool.  Either no registered upstream matches and the call fails
    with [CannotResolve]; or the wire name is [n + separator + tool] for
    the one longest registered upstream [n] that matches, and the call
    fails with [ToolsetNotLoaded] when [n] is hidden, with the error of the
    filter of [n] when a pattern of that filter is not a regular
    expression, with [ToolNotFound] when [tool] is not among the filtered
    tools of [n], and otherwise is whatever the client of [n] answers to
    [tool] with the same arguments.  The manager is left as it was. *)
Definition callToolContract `{JsRuntime} (m : ServerManager.t) (wire : string)
    (args : JsObject) : Prop :=
  ((forall n, In n (ServerManager.getServerNames m) ->
              matchesServer wire (ServerManager.separator m) n <> true) ->
   ServerManager.callTool m wire args
   = (Throw (ServerManager.cannotResolve wire), m))
  /\
  ((exists n, In n (ServerManager.getServerNames m)
              /\ matchesServer wire (ServerManager.separator m) n = true) ->
   exists n tool client,
     In n (ServerManager.getServerNames m)
     /\ matchesServer wire (ServerManager.separator m) n = true
     /\ wire = Namespace.namespaceTool n tool (ServerManager.separator m)
     /\ (forall n', In n' (ServerManager.getServerNames m) ->
                    matchesServer wire (ServerManager.separator m) n' = true ->
                    n' = n \/ (String.length n' < String.length n)%nat)
     /\ Obj.get (ServerManager.upstreams m) n = Some client
     /\ ServerManager.callTool m wire args
        = (if ServerManager.hidden m n
           then Throw (ServerManager.toolsetNotLoaded wire)
           else
             match ServerManager.getFilteredTools m n client with
             | Throw err => Throw err
             | Return filteredTools =>
                 if negb (ServerManager.hasTool filteredTools tool)
                 then Throw (ServerManager.toolNotFound wire)
                 else UpstreamClient.callTool client tool args
             end,
           m)).

(** A dial that always fails with the given error. *)
Definition refusing (err : string) : UpstreamClient.Dial :=
  fun _ _ => Throw err.

(** A load or unload request made to the toolset controller. *)
Inductive ToolsetOp :=
| Load (name : string)
| Unload (name : string).

(** The controller after a request, whether the request returned or threw. *)
Definition applyOp (tm : ToolsetManager.t) (op : ToolsetOp) : ToolsetManager.t :=
  match op with
  | Load name => snd (ToolsetManager.loadToolset tm name)
  | Unload name => snd (ToolsetManager.unloadToolset tm name)
  end.

Definition runOps (ops : list ToolsetOp) (tm : ToolsetManager.t)
  : ToolsetManager.t :=
  fold_left applyOp ops tm.

(** Whether the toolset [name] is loaded after the requests [ops], when it
    was [before] them: the last request that names it decides. *)
Fixpoint loadedAfter (before : bool) (ops : list ToolsetOp) (name : string)
  : bool :=
  match ops with
  | [] => before
  | Load n :: rest =>
      loadedAfter (if String.eqb n name then true else before) rest name
  | Unload n :: rest =>
      loadedAfter (if String.eqb n name then false else before) rest name
  end.

(** The server is listed in the [servers] of some configured toolset. *)
Definition memberOfSome (toolsets : list (string * ToolsetManager.ToolsetConfig))
    (server : string) : Prop :=
  exists name ts, In (name, ts) toolsets /\ In server (ToolsetManager.servers ts).

(** The server is listed in the [servers] of a toolset that is loaded after
    the requests [ops], starting with nothing loaded. *)
Definition memberOfLoaded (toolsets : list (string * ToolsetManager.ToolsetConfig))
    (ops : list ToolsetOp) (server : string) : Prop :=
  exists name ts,
    In (name, ts) toolsets /\ In server (ToolsetManager.servers ts)
    /\ loadedAfter false ops name = true.

(** Visibility in the sense of the specification. *)
Definition visibleBySpec (toolsets : list (string * ToolsetManager.ToolsetConfig))
    (ops : list ToolsetOp) (server : string) : Prop :=
  ~ memberOfSome toolsets server \/ memberOfLoaded toolsets ops server.

(** [e] is the catalog entry of a filtered tool of the upstream [name]. *)
Definition entryOfUpstream (m : ServerManager.t) (name : string)
    (e : NamespacedTool.t) : Prop :=
  exists client filteredTools tool,
    In (name, client) (ServerManager.upstreams m)
    /\ ServerManager.getFilteredTools m name client = Return filteredTools
    /\ In tool filteredTools
    /\ e = ServerManager.entryOf m name tool.

(** [e] is the catalog entry of one of the three meta-tools. *)
Definition metaEntry (e : NamespacedTool.t) : Prop :=
  In e (map ServerManager.metaEntryOf ToolsetManager.getMetaTools).

(** The catalog contribution of one upstream: nothing when it is hidden,
    the entries of its filtered tools otherwise (and nothing where the
    filter throws, in which case there is no catalog). *)
Definition contribution (m : ServerManager.t) (up : string * UpstreamClient.t)
  : list NamespacedTool.t :=
  if ServerManager.hidden m (fst up) then []
  else
    match ServerManager.getFilteredTools m (fst up) (snd up) with
    | Return filteredTools => map (ServerManager.entryOf m (fst up)) filteredTools
    | Throw _ => []
    end.

(** The filter of every visible upstream returns. *)
Definition filtersReturn (m : ServerManager.t) : Prop :=
  forall name client,
    In (name, client) (ServerManager.upstreams m) ->
    ServerManager.hidden m name = false ->
    exists filteredTools,
      ServerManager.getFilteredTools m name client = Return filteredTools.

(** The award the loop of [fuzzyScore] adds for a match of the [qi]-th
    character of the query at position [ti], in half-points. *)
Definition codeAward (target : string) (lastMatchIndex : Z) (qi ti : nat) : Z :=
  (if (qi =? 0)%nat && (ti =? 0)%nat then 10 else 0)
  + (if (0 <? ti)%nat && Fuzzy.isWordBoundary target ti then 4 else 0)
  + (if lastMatchIndex =? Z.of_nat ti - 1 then 6
     else if 0 <=? lastMatchIndex then - (Z.of_nat ti - lastMatchIndex - 1)
          else 0)
  + 2.

(** The awards of the loop along a list of match positions. *)
Fixpoint codeAwards (target : string) (lastMatchIndex : Z) (qi : nat)
    (positions : list nat) : Z :=
  match positions with
  | [] => 0
  | ti :: rest =>
      codeAward target lastMatchIndex qi ti
      + codeAwards target (Z.of_nat ti) (S qi) rest
  end.

(** Every character of the query is matched and the first one is matched
    at position [0] of the target. *)
Definition matchesAtStart (query target : string) : bool :=
  match Fuzzy.matchPositions (list_ascii_of_string target)
                             (list_ascii_of_string query) 0 with
  | (O :: _, []) => true
  | _ => false
  end.

(** An event of the agent loop that, if it is a request to the chat
    client, carries the tool list [tools]. *)
Definition carries (tools : list Tool.t) (e : AgentLoop.Event) : Prop :=
  match e with
  | AgentLoop.Request _ sent => sent = tools
  | _ => True
  end.

(** [out] is [schema] with its top-level [type] made ["object"]: a missing
    or falsy [type] becomes ["object"] with every other property kept, and
    a schema whose [type] is ["object"] is passed as it is. *)
Definition typedObject (schema out : JsObject) : Prop :=
  (Obj.truthyAt schema "type" = false ->
   Obj.get out "type" = Some (JStr "object")
   /\ forall key, key <> "type"%string -> Obj.get out key = Obj.get schema key)
  /\ (Obj.get schema "type" = Some (JStr "object") -> out = schema).

(** [tool] is the vendor form of the catalog entry [entry]. *)
Definition vendorForm (entry : NamespacedTool.t) (tool : Tool.t) : Prop :=
  Tool.name tool = NamespacedTool.namespacedName entry
  /\ Tool.description tool
     = default EmptyString (NamespacedTool.description entry)
  /\ typedObject (NamespacedTool.inputSchema entry) (Tool.input_schema tool).


(* ===================================================================== *)
(** * chat/slash-commands.ts: tool groups and tool visibility *)
(* ===================================================================== *)

Module Visibility.

(** [stripNamespace] with its [separator] parameter. *)
Definition stripNamespace (namespacedName serverName separator : string)
  : string :=
  let nsPrefix := serverName +:+ separator in
  if Js.startsWith namespacedName nsPrefix
  then Js.slice namespacedName (String.length nsPrefix)
  else namespacedName.

Record ToolGroup := {
  prefix : string;
  tools : list NamespacedTool.t
}.

(** [groupToolsByPrefix]: the [Map] is iterated by its callers, so it is
    kept in insertion order; [group.tools.push(tool)] updates the group
    where it stands. *)
Definition groupToolsByPrefix (tools : list NamespacedTool.t)
    (separator : string) : list (string * ToolGroup) :=
  fold_left
    (fun groups tool =>
       let prefix :=
         Slash.extractPrefix (NamespacedTool.namespacedName tool)
                             (NamespacedTool.serverName tool) separator in
       match Obj.get groups prefix with
       | Some group =>
           Obj.set groups prefix
             {| prefix := Visibility.prefix group;
                tools := Visibility.tools group ++ [tool] |}
       | None => Obj.set groups prefix {| prefix := prefix; tools := [tool] |}
       end)
    tools [].

Definition entryKeywords : list string :=
  ["create"; "list"; "search"; "get_status"; "bootstrap"]%string.

(** [isEntryPointTool], [isDependentTool] and [getRequiredIdParams] read
    [required] through the cast [as string[] | undefined]: the model
    agrees with the source when [required] is absent, [null] or an array
    of strings ([requiredWellFormed]); on another value the source fails
    with a [TypeError] or answers otherwise, which is not modelled. *)
Definition isEntryPointTool (tool : NamespacedTool.t) : bool :=
  let name := Fuzzy.toLowerCase (NamespacedTool.namespacedName tool) in
  if Js.some (fun keyword => Js.includes name keyword) entryKeywords then true
  else
    let required := ToolAdapter.requiredOf (NamespacedTool.inputSchema tool) in
    (List.length required =? 0)%nat.

Definition isDependentTool (tool : NamespacedTool.t) : bool :=
  let required := ToolAdapter.requiredOf (NamespacedTool.inputSchema tool) in
  Js.some (fun param => Js.endsWith param "_id") required.

Definition getRequiredIdParams (tool : NamespacedTool.t) : list string :=
  let required := ToolAdapter.requiredOf (NamespacedTool.inputSchema tool) in
  List.filter (fun p => Js.endsWith p "_id") required.

(** [dependents.includes(stripped)] *)
Definition includes (names : list string) (name : string) : bool :=
  existsb (String.eqb name) names.

(** The [for (const [configTool, dependents] of Object.entries(...))] loop
    of [isBlockedByConfig]. *)
Fixpoint blockedLoop (entries : list (string * list string))
    (stripped : string) (sessionState : SessionState.t) : bool :=
  match entries with
  | [] => false
  | (configTool, dependents) :: rest =>
      if includes dependents stripped
         && negb (SessionState.hasConfigBeenCalled sessionState configTool)
      then true
      else blockedLoop rest stripped sessionState
  end.

Definition isBlockedByConfig (tool : NamespacedTool.t)
    (sessionState : SessionState.t) (separator : string) : bool :=
  let stripped :=
    stripNamespace (NamespacedTool.namespacedName tool)
                   (NamespacedTool.serverName tool) separator in
  blockedLoop Slash.CONFIG_PREREQUISITES stripped sessionState.

Record VisibleTools := {
  visible : list NamespacedTool.t;
  hidden : nat
}.

Definition show (acc : VisibleTools) (tool : NamespacedTool.t) : VisibleTools :=
  {| visible := visible acc ++ [tool]; hidden := hidden acc |}.

Definition hide (acc : VisibleTools) : VisibleTools :=
  {| visible := visible acc; hidden := S (hidden acc) |}.

Definition getVisibleTools (tools : list NamespacedTool.t)
    (sessionState : SessionState.t) (separator : string) : VisibleTools :=
  fold_left
    (fun acc tool =>
       if isEntryPointTool tool then show acc tool
       else if isDependentTool tool then
         let prefix :=
           Slash.extractPrefix (NamespacedTool.namespacedName tool)
                               (NamespacedTool.serverName tool) separator in
         if SessionState.hasCreated sessionState prefix then show acc tool
         else hide acc
       else show acc tool)
    tools {| visible := []; hidden := 0 |}.

Definition getVisibleToolsEnhanced (tools : list NamespacedTool.t)
    (sessionState : SessionState.t) (separator : string) : VisibleTools :=
  fold_left
    (fun acc tool =>
       if isBlockedByConfig tool sessionState separator then hide acc
       else if isEntryPointTool tool then show acc tool
       else if isDependentTool tool then
         let requiredIds := getRequiredIdParams tool in
         let allIdsSatisfied :=
           forallb (fun p => SessionState.hasId sessionState p) requiredIds in
         if allIdsSatisfied then show acc tool
         else
           let prefix :=
             Slash.extractPrefix (NamespacedTool.namespacedName tool)
                                 (NamespacedTool.serverName tool) separator in
           if SessionState.hasCreated sessionState prefix then show acc tool
           else hide acc
       else show acc tool)
    tools {| visible := []; hidden := 0 |}.

End Visibility.

(* ===================================================================== *)
(** * multiplexer/reconnect.ts: the reconnect manager *)
(* ===================================================================== *)

Module ReconnectManager.

(** A timer armed with [setTimeout]: its delay and what its callback
    closes over. *)
Record Timer := {
  timer_id : nat;
  timer_delay : Z;
  timer_server : string;
  timer_config : ServerConfig.t;
  timer_attempt : Z
}.

Record Retry := { timer : nat; attempt : Z }.

(** The manager together with the part of the event loop it drives: the
    timers armed and not yet fired or cleared, the callbacks that have
    called [reconnectFn] and wait for it to settle, and the calls of
    [reconnectFn] made so far. *)
Record t := {
  activeRetries : list (string * Retry);
  options : Reconnect.Options;
  armed : list Timer;
  inFlight : list Timer;
  nextTimer : nat;
  reconnectCalls : list (string * ServerConfig.t)
}.

(** [new ReconnectManager(reconnectFn, options)] *)
Definition create (options : option Reconnect.ReconnectOptions) : t :=
  {| activeRetries := [];
     options := Reconnect.withDefaults options;
     armed := [];
     inFlight := [];
     nextTimer := 0;
     reconnectCalls := [] |}.

Definition withRetries (st : t) (retries : list (string * Retry)) : t :=
  {| activeRetries := retries; options := options st; armed := armed st;
     inFlight := inFlight st; nextTimer := nextTimer st;
     reconnectCalls := reconnectCalls st |}.

(** [this.options] passed where [ReconnectOptions] is expected. *)
Definition asOptions (o : Reconnect.Options) : Reconnect.ReconnectOptions :=
  {| Reconnect.maxAttempts := Some (Reconnect.opt_maxAttempts o);
     Reconnect.initialDelayMs := Some (Reconnect.opt_initialDelayMs o);
     Reconnect.maxDelayMs := Some (Reconnect.opt_maxDelayMs o) |}.

Definition scheduleReconnect (st : t) (serverName : string)
    (config : ServerConfig.t) : t :=
  let existing := Obj.get (activeRetries st) serverName in
  let attempt :=
    match existing with
    | Some existing => attempt existing + 1
    | None => 0
    end in
  if Reconnect.opt_maxAttempts (options st) <=? attempt then
    withRetries st (Obj.remove (activeRetries st) serverName)
  else
    let delay := Reconnect.calculateBackoff attempt (Some (asOptions (options st))) in
    let timer := nextTimer st in
    {| activeRetries :=
         Obj.set (activeRetries st) serverName
                 {| timer := timer; attempt := attempt |};
       options := options st;
       armed := armed st
                ++ [ {| timer_id := timer; timer_delay := delay;
                        timer_server := serverName; timer_config := config;
                        timer_attempt := attempt |} ];
       inFlight := inFlight st;
       nextTimer := S (nextTimer st);
       reconnectCalls := reconnectCalls st |}.

Definition hasId (id : nat) (timer : Timer) : bool := (timer_id timer =? id)%nat.

(** [clearTimeout(timer)] *)
Definition clearTimeout (timers : list Timer) (id : nat) : list Timer :=
  List.filter (fun timer => negb (hasId id timer)) timers.

(** An armed timer expires: its callback starts and calls [reconnectFn]. *)
Definition expire (st : t) (id : nat) : t :=
  match Js.find (hasId id) (armed st) with
  | None => st
  | Some timer =>
      {| activeRetries := activeRetries st;
         options := options st;
         armed := clearTimeout (armed st) id;
         inFlight := inFlight st ++ [timer];
         nextTimer := nextTimer st;
         reconnectCalls :=
           reconnectCalls st ++ [(timer_server timer, timer_config timer)] |}
  end.

(** The call of [reconnectFn] made by the callback of timer [id] settles:
    fulfilled when [succeeded], rejected otherwise. *)
Definition settle (st : t) (id : nat) (succeeded : bool) : t :=
  match Js.find (hasId id) (inFlight st) with
  | None => st
  | Some timer =>
      let st :=
        {| activeRetries := activeRetries st;
           options := options st;
           armed := armed st;
           inFlight := clearTimeout (inFlight st) id;
           nextTimer := nextTimer st;
           reconnectCalls := reconnectCalls st |} in
      if succeeded
      then withRetries st (Obj.remove (activeRetries st) (timer_server timer))
      else scheduleReconnect st (timer_server timer) (timer_config timer)
  end.

Definition cancelAll (st : t) : t :=
  {| activeRetries := [];
     options := options st;
     armed :=
       fold_left (fun timers entry => clearTimeout timers (timer (snd entry)))
                 (activeRetries st) (armed st);
     inFlight := inFlight st;
     nextTimer := nextTimer st;
     reconnectCalls := reconnectCalls st |}.

Definition pendingReconnects (st : t) : nat := List.length (activeRetries st).

End ReconnectManager.

(* ===================================================================== *)
(** * multiplexer/server-manager.ts: shutting down and applying a new
      configuration *)
(* ===================================================================== *)

Module ConfigDiff.

(** A server of a [ResolvedConfig]: the configuration read by the
    upstream client, and the text [JSON.stringify] gives for the object
    (which depends on the order and presence of its properties). *)
Record ConfiguredServer := {
  config : ServerConfig.t;
  json : string
}.

Definition closeAll (m : ServerManager.t) : ServerManager.t :=
  ServerManager.withServerConfigs (ServerManager.withUpstreams m []) ∅.

Definition has (names : list string) (name : string) : bool :=
  existsb (String.eqb name) names.

(** [new Set(names)] in iteration order. *)
Definition setOf (names : list string) : list string :=
  fold_left (fun set name => if has set name then set else set ++ [name])
            names [].

Record Diff := {
  added : list string;
  removed : list string;
  changed : list string
}.

(** The body of the loop that removes the servers no longer configured. *)
Definition removeStep (newNames : list string)
    (acc : ServerManager.t * list string) (name : string)
  : ServerManager.t * list string :=
  let '(m, removed) := acc in
  if negb (has newNames name)
  then (ServerManager.disconnectServer m name, removed ++ [name])
  else (m, removed).

Definition removeLoop (oldNames newNames : list string) (m : ServerManager.t)
  : ServerManager.t * list string :=
  fold_left (removeStep newNames) oldNames (m, []).

(** The body of the loop that connects the new servers. *)
Definition addStep (dial : UpstreamClient.Dial) (oldNames : list string)
    (newServers : list (string * ConfiguredServer))
    (acc : ServerManager.t * list string) (name : string)
  : ServerManager.t * list string :=
  let '(m, added) := acc in
  if negb (has oldNames name) then
    match Obj.get newServers name with
    | None => (m, added)
    | Some serverConfig =>
        match UpstreamClient.connect dial name (config serverConfig) with
        | Return client =>
            let m :=
              ServerManager.withUpstreams m
                (Obj.set (ServerManager.upstreams m) name client) in
            let m :=
              ServerManager.withServerConfigs m
                (<[ name := config serverConfig ]>
                   (ServerManager.serverConfigs m)) in
            (m, added ++ [name])
        | Throw _ => (m, added)
        end
    end
  else (m, added).

Definition addLoop (dial : UpstreamClient.Dial) (oldNames newNames : list string)
    (newServers : list (string * ConfiguredServer)) (m : ServerManager.t)
  : ServerManager.t * list string :=
  fold_left (addStep dial oldNames newServers) newNames (m, []).

(** The body of the loop that reconnects the servers whose configuration
    differs. *)
Definition changeStep (dial : UpstreamClient.Dial) (oldNames : list string)
    (oldServers newServers : list (string * ConfiguredServer))
    (acc : ServerManager.t * list string) (name : string)
  : ServerManager.t * list string :=
  let '(m, changed) := acc in
  if has oldNames name then
    let oldJson := json <$> Obj.get oldServers name in
    let newJson := json <$> Obj.get newServers name in
    if negb (bool_decide (oldJson = newJson)) then
      match Obj.get newServers name with
      | None => (m, changed)
      | Some serverConfig =>
          match ServerManager.reconnect dial m name (config serverConfig) with
          | (Return _, m) => (m, changed ++ [name])
          | (Throw _, m) => (m, changed)
          end
      end
    else (m, changed)
  else (m, changed).

Definition changeLoop (dial : UpstreamClient.Dial) (oldNames newNames : list string)
    (oldServers newServers : list (string * ConfiguredServer))
    (m : ServerManager.t) : ServerManager.t * list string :=
  fold_left (changeStep dial oldNames oldServers newServers) newNames (m, []).

Definition applyConfigDiff (dial : UpstreamClient.Dial) (m : ServerManager.t)
    (oldServers newServers : list (string * ConfiguredServer))
  : Diff * ServerManager.t :=
  let oldNames := setOf (Obj.keys oldServers) in
  let newNames := setOf (Obj.keys newServers) in
  let '(m, removed) := removeLoop oldNames newNames m in
  let '(m, added) := addLoop dial oldNames newNames newServers m in
  let '(m, changed) :=
    changeLoop dial oldNames newNames oldServers newServers m in
  ({| added := added; removed := removed; changed := changed |}, m).

End ConfigDiff.

(* ===================================================================== *)
(** * multiplexer/multiplexer-server.ts *)
(* ===================================================================== *)

Module MultiplexerServer.

Record ListedTool := {
  name : string;
  description : string;
  inputSchema : JsObject
}.

Definition bracketed (serverName text : string) : string :=
  "[" +:+ serverName +:+ "] " +:+ text.

Definition listed (t : NamespacedTool.t) : ListedTool :=
  {| name := NamespacedTool.namespacedName t;
     description :=
       match NamespacedTool.description t with
       | Some d =>
           if negb (String.eqb d "")
           then bracketed (NamespacedTool.serverName t) d
           else bracketed (NamespacedTool.serverName t)
                          (NamespacedTool.originalName t)
       | None =>
           bracketed (NamespacedTool.serverName t)
                     (NamespacedTool.originalName t)
       end;
     inputSchema := NamespacedTool.inputSchema t |}.

(** The [tools/list] handler; it has no [try], so the error of the
    catalog is the error of the request. *)
Definition listTools (manager : ServerManager.t) : Outcome (list ListedTool) :=
  match ServerManager.getAllTools manager with
  | Throw err => Throw err
  | Return tools => Return (map listed tools)
  end.

(** The [tools/call] handler: the reply and the manager afterwards. *)
Definition callTool `{JsRuntime} (manager : ServerManager.t) (name : string)
    (args : option JsObject) : CallToolResult.t * ServerManager.t :=
  match ServerManager.callTool manager name (default [] args) with
  | (Return result, manager) => (result, manager)
  | (Throw message, manager) =>
      (CallToolResult.textResult ("Error: " +:+ message) (Some true), manager)
  end.

End MultiplexerServer.

(* ===================================================================== *)
(** * Vocabulary of the further properties *)
(* ===================================================================== *)

(** A glob pattern without the wildcard [*] (and without [?], which the
    source leaves to the regular expression). *)
Definition wildcardFree (pattern : string) : bool :=
  forallb (fun c => negb (Ascii.eqb c "*") && negb (Ascii.eqb c "?"))
          (list_ascii_of_string pattern).

(** A glob pattern in which [?] does not occur. *)
Definition questionFree (pattern : string) : bool :=
  forallb (fun c => negb (Ascii.eqb c "?")) (list_ascii_of_string pattern).

(** A filter none of whose patterns has a [?]. *)
Definition questionFreeFilter (config : option Glob.ToolFilterConfig) : bool :=
  match config with
  | None => true
  | Some config =>
      forallb questionFree (default [] (Glob.allowed config))
      && forallb questionFree (default [] (Glob.blocked config))
  end.

(** No character of the text is a line terminator. *)
Definition singleLine (text : string) : bool :=
  forallb (fun c => negb (Glob.lineTerminator c)) (list_ascii_of_string text).

(** One failed retry of the server [name]: the timer of its entry expires
    and the reconnect its callback makes is rejected. *)
Definition failRetry (name : string) (st : ReconnectManager.t)
  : ReconnectManager.t :=
  match Obj.get (ReconnectManager.activeRetries st) name with
  | Some retry =>
      ReconnectManager.settle
        (ReconnectManager.expire st (ReconnectManager.timer retry))
        (ReconnectManager.timer retry) false
  | None => st
  end.

(** The timer armed for the attempt [k] of a server. *)
Definition retryTimer (options : Reconnect.Options) (name : string)
    (config : ServerConfig.t) (k : nat) : ReconnectManager.Timer :=
  {| ReconnectManager.timer_id := k;
     ReconnectManager.timer_delay :=
       Reconnect.calculateBackoff (Z.of_nat k)
         (Some (ReconnectManager.asOptions options));
     ReconnectManager.timer_server := name;
     ReconnectManager.timer_config := config;
     ReconnectManager.timer_attempt := Z.of_nat k |}.

(** A manager that has made [k] reconnects for [name], all rejected, and
    waits for the timer of the next one. *)
Definition waiting (options : Reconnect.Options) (name : string)
    (config : ServerConfig.t) (k : nat) : ReconnectManager.t :=
  {| ReconnectManager.activeRetries :=
       [ (name, {| ReconnectManager.timer := k;
                   ReconnectManager.attempt := Z.of_nat k |}) ];
     ReconnectManager.options := options;
     ReconnectManager.armed := [retryTimer options name config k];
     ReconnectManager.inFlight := [];
     ReconnectManager.nextTimer := S k;
     ReconnectManager.reconnectCalls := repeat (name, config) k |}.

(** A manager that has given up on [name] after [n] rejected reconnects. *)
Definition gaveUp (options : Reconnect.Options) (name : string)
    (config : ServerConfig.t) (n : nat) : ReconnectManager.t :=
  {| ReconnectManager.activeRetries := [];
     ReconnectManager.options := options;
     ReconnectManager.armed := [];
     ReconnectManager.inFlight := [];
     ReconnectManager.nextTimer := n;
     ReconnectManager.reconnectCalls := repeat (name, config) n |}.

(** What can happen to a reconnect manager. *)
Inductive ReconnectEvent :=
| Schedule (name : string) (config : ServerConfig.t)
| Expire (id : nat)
| Settle (id : nat) (succeeded : bool)
| CancelAll.

Definition applyEvent (st : ReconnectManager.t) (e : ReconnectEvent)
  : ReconnectManager.t :=
  match e with
  | Schedule name config => ReconnectManager.scheduleReconnect st name config
  | Expire id => ReconnectManager.expire st id
  | Settle id succeeded => ReconnectManager.settle st id succeeded
  | CancelAll => ReconnectManager.cancelAll st
  end.

Definition runEvents (events : list ReconnectEvent) (st : ReconnectManager.t)
  : ReconnectManager.t :=
  fold_left applyEvent events st.

(** The timers that are armed or whose reconnect is in flight. *)
Definition liveTimers (st : ReconnectManager.t) : list ReconnectManager.Timer :=
  ReconnectManager.armed st ++ ReconnectManager.inFlight st.

(** What every reachable state of a reconnect manager satisfies: a timer
    is for an attempt below [maxAttempts] and waits the back-off of that
    attempt; an entry is for an attempt below [maxAttempts] and its timer
    is live and belongs to the entry's server. *)
Definition reconnectInvariant (st : ReconnectManager.t) : Prop :=
  (forall t, In t (liveTimers st) ->
     0 <= ReconnectManager.timer_attempt t
          < Reconnect.opt_maxAttempts (ReconnectManager.options st)
     /\ ReconnectManager.timer_delay t
        = Reconnect.calculateBackoff (ReconnectManager.timer_attempt t)
            (Some (ReconnectManager.asOptions (ReconnectManager.options st))))
  /\ (forall name retry,
        Obj.get (ReconnectManager.activeRetries st) name = Some retry ->
        0 <= ReconnectManager.attempt retry
             < Reconnect.opt_maxAttempts (ReconnectManager.options st)
        /\ exists t, In t (liveTimers st)
                     /\ ReconnectManager.timer_id t = ReconnectManager.timer retry
                     /\ ReconnectManager.timer_server t = name).

(** Timer identifiers are handed out once: live timers with the same
    identifier are the same timer, and every identifier in use is below
    the next one. *)
Definition timersDistinct (st : ReconnectManager.t) : Prop :=
  (forall t1 t2, In t1 (liveTimers st) -> In t2 (liveTimers st) ->
                 ReconnectManager.timer_id t1 = ReconnectManager.timer_id t2 ->
                 t1 = t2)
  /\ (forall t, In t (liveTimers st) ->
                (ReconnectManager.timer_id t < ReconnectManager.nextTimer st)%nat).

(** The characters of a text, lower-cased. *)
Definition lowerChars (text : string) : list ascii :=
  map Fuzzy.toLowerChar (list_ascii_of_string text).

(** Two managers have the same fleet: the same upstreams in the same
    order, the same configurations and the same naming mode.  Only the
    toolset controller may differ. *)
Definition sameFleet (m m' : ServerManager.t) : Prop :=
  ServerManager.upstreams m' = ServerManager.upstreams m
  /\ ServerManager.serverConfigs m' = ServerManager.serverConfigs m
  /\ ServerManager.separator m' = ServerManager.separator m
  /\ ServerManager.noPrefix m' = ServerManager.noPrefix m
  /\ (ServerManager.toolsetManager m = None -> m' = m).

(** In [noPrefix] mode the loop of [callTool] passes over the upstream
    [k]: it is hidden, or its filter returns tools without the name. *)
Definition passedOver (m : ServerManager.t) (wire : string) (k : string)
    (c : UpstreamClient.t) : Prop :=
  ServerManager.hidden m k = true
  \/ exists filteredTools,
       ServerManager.getFilteredTools m k c = Return filteredTools
       /\ ServerManager.hasTool filteredTools wire = false.

(** No filter pattern of the fleet has a [?]. *)
Definition questionFreeFleet (m : ServerManager.t) : Prop :=
  forall name config,
    ServerManager.serverConfigs m !! name = Some config ->
    questionFreeFilter (ServerConfig.tools config) = true.

(** The result block answers the tool-use block: it carries its
    identifier. *)
Definition answers (use result : AgentLoop.ContentBlock) : Prop :=
  match use, result with
  | AgentLoop.ToolUse id _ _, AgentLoop.ToolResult tool_use_id _ _ =>
      tool_use_id = id
  | _, _ => False
  end.

(** No character of the text is white space. *)
Definition noWhitespace (text : string) : bool :=
  forallb (fun c => negb (Slash.isSpace c)) (list_ascii_of_string text).

(** The direct invocation did not call a tool. *)
Definition notCalled (r : Slash.DirectResult) : Prop :=
  match r with
  | Slash.Called _ _ _ _ => False
  | _ => True
  end.

(** The [required] property of a schema has the shape the source casts it
    to: it is absent, [null], or an array of strings. *)
Definition requiredWellFormed (inputSchema : JsObject) : bool :=
  match Obj.get inputSchema "required" with
  | None | Some JNull => true
  | Some (JArr items) =>
      forallb (fun v => match v with JStr _ => true | _ => false end) items
  | Some _ => false
  end.

(** Every tool of the list has a [required] of that shape. *)
Definition schemasWellFormed (tools : list NamespacedTool.t) : bool :=
  forallb (fun tool => requiredWellFormed (NamespacedTool.inputSchema tool))
          tools.

(** The tools the basic view shows: entry points, tools that depend on no
    identifier, and dependent tools of a category in which something was
    created. *)
Definition shownBasic (sessionState : SessionState.t) (separator : string)
    (tool : NamespacedTool.t) : bool :=
  Visibility.isEntryPointTool tool
  || negb (Visibility.isDependentTool tool)
  || SessionState.hasCreated sessionState
       (Slash.extractPrefix (NamespacedTool.namespacedName tool)
                            (NamespacedTool.serverName tool) separator).

(** The tools the enhanced view shows: those not waiting for a
    configuration call that are entry points, depend on no identifier,
    have all their required identifiers seen in the session, or belong to
    a category in which something was created. *)
Definition shownEnhanced (sessionState : SessionState.t) (separator : string)
    (tool : NamespacedTool.t) : bool :=
  negb (Visibility.isBlockedByConfig tool sessionState separator)
  && (Visibility.isEntryPointTool tool
      || negb (Visibility.isDependentTool tool)
      || forallb (fun p => SessionState.hasId sessionState p)
                 (Visibility.getRequiredIdParams tool)
      || SessionState.hasCreated sessionState
           (Slash.extractPrefix (NamespacedTool.namespacedName tool)
                                (NamespacedTool.serverName tool) separator)).

(** The category of a tool. *)
Definition prefixOf (separator : string) (tool : NamespacedTool.t) : string :=
  Slash.extractPrefix (NamespacedTool.namespacedName tool)
                      (NamespacedTool.serverName tool) separator.

(** The session [s'] knows everything the session [s] knows. *)
Definition sessionGrows (s s' : SessionState.t) : Prop :=
  (forall name, SessionState.hasConfigBeenCalled s name = true ->
                SessionState.hasConfigBeenCalled s' name = true)
  /\ (forall param, SessionState.hasId s param = true ->
                    SessionState.hasId s' param = true)
  /\ (forall prefix, SessionState.hasCreated s prefix = true ->
                     SessionState.hasCreated s' prefix = true).

(* ===================================================================== *)
(** * Properties: strings and sorting *)
(* ===================================================================== *)

Section JsFacts.

Lemma append_nil (r : string) : "" +:+ r = r.
Proof. reflexivity. Qed.

Lemma append_cons (c : ascii) (p r : string) :
  String c p +:+ r = String c (p +:+ r).
Proof. reflexivity. Qed.

Lemma length_append (a b : string) :
  String.length (a +:+ b) = (String.length a + String.length b)%nat.
Proof.
  induction a as [| c a IH]; [reflexivity |].
  rewrite append_cons. simpl. now rewrite IH.
Qed.

Lemma startsWith_app (p r : string) : Js.startsWith (p +:+ r) p = true.
Proof.
  induction p as [| c p IH]; [reflexivity |].
  rewrite append_cons. simpl. rewrite Ascii.eqb_refl. exact IH.
Qed.

Lemma startsWith_inv (s p : string) :
  Js.startsWith s p = true -> exists r, s = p +:+ r.
Proof.
  revert s. induction p as [| c p IH]; intros s Hs; simpl in Hs.
  - exists s. reflexivity.
  - destruct s as [| d s]; [discriminate |].
    destruct (Ascii.eqb d c) eqn:E; [| discriminate].
    apply Ascii.eqb_eq in E. subst d.
    destruct (IH _ Hs) as [r ->]. exists r. reflexivity.
Qed.

Lemma slice_app (p r : string) : Js.slice (p +:+ r) (String.length p) = r.
Proof.
  induction p as [| c p IH]; [reflexivity |].
  rewrite append_cons. simpl. exact IH.
Qed.

Lemma append_assoc (a b c : string) : (a +:+ b) +:+ c = a +:+ (b +:+ c).
Proof.
  induction a as [| x a IH]; [reflexivity |].
  rewrite !append_cons. now rewrite IH.
Qed.

(** Two prefixes of one string that have the same length are equal. *)
Lemma prefix_same_length (a b r r' : string) :
  a +:+ r = b +:+ r' -> String.length a = String.length b -> a = b.
Proof.
  revert b. induction a as [| x a IH]; intros [| y b] Heq Hlen;
    simpl in Hlen; try discriminate; [reflexivity |].
  rewrite !append_cons in Heq.
  injection Heq as -> Heq. f_equal. apply IH; [exact Heq | lia].
Qed.

(** With a common separator appended, too. *)
Lemma prefix_sep_same_length (a b sep r r' : string) :
  (a +:+ sep) +:+ r = (b +:+ sep) +:+ r' ->
  String.length a = String.length b -> a = b.
Proof.
  rewrite !append_assoc. apply prefix_same_length.
Qed.

Context {A : Type} (before : A -> A -> bool).

Lemma insertSorted_Permutation (x : A) (l : list A) :
  Permutation (Js.insertSorted before x l) (x :: l).
Proof.
  induction l as [| y l IH]; simpl; [reflexivity |].
  destruct (before x y); [reflexivity |].
  rewrite IH. apply perm_swap.
Qed.

Lemma sort_Permutation (l : list A) : Permutation (Js.sort before l) l.
Proof.
  induction l as [| x l IH]; simpl; [reflexivity |].
  rewrite insertSorted_Permutation. now constructor.
Qed.

Lemma sort_In (x : A) (l : list A) : In x (Js.sort before l) <-> In x l.
Proof.
  split; apply Permutation_in;
    [apply sort_Permutation | symmetry; apply sort_Permutation].
Qed.

(** The order the comparator induces, when it is total and transitive. *)
Hypothesis before_total : forall x y, before x y = false -> before y x = true.
Hypothesis before_trans :
  forall x y z, before x y = true -> before y z = true -> before x z = true.

Lemma insertSorted_sorted (x : A) (l : list A) :
  StronglySorted (fun a b => before a b = true) l ->
  StronglySorted (fun a b => before a b = true) (Js.insertSorted before x l).
Proof.
  induction 1 as [| y l Hl IH Hy]; simpl.
  - repeat constructor.
  - destruct (before x y) eqn:E.
    + constructor; [constructor; assumption |].
      constructor; [exact E |].
      eapply Forall_impl; [exact Hy |]. intros z Hz. eauto.
    + constructor; [exact IH |].
      eapply Permutation_Forall;
        [symmetry; apply insertSorted_Permutation |].
      constructor; [apply before_total; exact E | exact Hy].
Qed.

Lemma sort_sorted (l : list A) :
  StronglySorted (fun a b => before a b = true) (Js.sort before l).
Proof.
  induction l as [| x l IH]; simpl; [constructor |].
  apply insertSorted_sorted, IH.
Qed.

End JsFacts.

(* ===================================================================== *)
(** * Properties: the name namespacer *)
(* ===================================================================== *)

Section NamespaceFacts.
Import Namespace.

Lemma byLengthDesc_total (x y : string) :
  byLengthDesc x y = false -> byLengthDesc y x = true.
Proof.
  unfold byLengthDesc. intros H.
  apply Nat.leb_gt in H. apply Nat.leb_le. lia.
Qed.

Lemma byLengthDesc_trans (x y z : string) :
  byLengthDesc x y = true -> byLengthDesc y z = true -> byLengthDesc x z = true.
Proof.
  unfold byLengthDesc. intros H1 H2.
  apply Nat.leb_le in H1, H2. apply Nat.leb_le. lia.
Qed.

Lemma parseLoop_None (wire separator : string) (l : list string) :
  parseLoop wire separator l = None <->
  forall k, In k l -> matchesServer wire separator k = false.
Proof.
  unfold matchesServer.
  induction l as [| server l IH]; simpl.
  - split; [intros _ k [] | reflexivity].
  - destruct (Js.startsWith wire (server +:+ separator)) eqn:E.
    + split; [discriminate |]. intros H.
      specialize (H server (or_introl eq_refl)). congruence.
    + rewrite IH. split.
      * intros H k [<- | Hk]; [exact E | apply H, Hk].
      * intros H k Hk. apply H. right. exact Hk.
Qed.

(** The loop returns the first server of the list that matches. *)
Lemma parseLoop_Some (wire separator : string) (l : list string)
    (p : ParsedTool) :
  parseLoop wire separator l = Some p ->
  exists l1 l2,
    l = l1 ++ serverName p :: l2
    /\ (forall k, In k l1 -> matchesServer wire separator k = false)
    /\ matchesServer wire separator (serverName p) = true
    /\ toolName p
       = Js.slice wire (String.length (serverName p +:+ separator)).
Proof.
  unfold matchesServer.
  induction l as [| server l IH]; simpl; [discriminate |].
  destruct (Js.startsWith wire (server +:+ separator)) eqn:E.
  - intros [= <-]. exists [], l. simpl. repeat split; auto.
    intros k [].
  - intros H. destruct (IH H) as (l1 & l2 & -> & Hl1 & Hm & Ht).
    exists (server :: l1), l2. repeat split; auto.
    intros k [<- | Hk]; [exact E | apply Hl1, Hk].
Qed.

Lemma sorted_tail {A : Type} (R : A -> A -> Prop) (l1 l2 : list A) (x : A) :
  StronglySorted R (l1 ++ x :: l2) -> Forall (R x) l2.
Proof.
  induction l1 as [| y l1 IH]; simpl; intros H.
  - now apply StronglySorted_inv in H.
  - apply StronglySorted_inv in H. apply IH, H.
Qed.

(** What a successful parse returns: a known server that matches, the
    rest of the wire name as tool name, and no known server that
    matches is longer. *)
Lemma parse_longest (wire separator : string) (known : list string)
    (p : ParsedTool) :
  parseNamespacedTool wire known separator = Some p ->
  In (serverName p) known
  /\ matchesServer wire separator (serverName p) = true
  /\ wire = namespaceTool (serverName p) (toolName p) separator
  /\ forall k, In k known -> matchesServer wire separator k = true ->
               (String.length k <= String.length (serverName p))%nat.
Proof.
  unfold parseNamespacedTool. intros H.
  destruct (parseLoop_Some _ _ _ _ H) as (l1 & l2 & Hl & Hl1 & Hm & Ht).
  assert (Hin : In (serverName p) (Js.sort byLengthDesc known)).
  { rewrite Hl. apply in_or_app. right. left. reflexivity. }
  split; [now apply sort_In in Hin |].
  split; [exact Hm |].
  split.
  - unfold matchesServer in Hm.
    destruct (startsWith_inv _ _ Hm) as [r Hr].
    rewrite Ht. rewrite Hr at 2. rewrite slice_app.
    unfold namespaceTool. rewrite Hr at 1. apply append_assoc.
  - intros k Hk Hkm.
    apply (sort_In byLengthDesc) in Hk. rewrite Hl in Hk.
    apply in_app_or in Hk. destruct Hk as [Hk | [<- | Hk]].
    + rewrite (Hl1 k Hk) in Hkm. discriminate.
    + lia.
    + pose proof (sort_sorted byLengthDesc byLengthDesc_total
                    byLengthDesc_trans known) as Hs.
      rewrite Hl in Hs. apply sorted_tail in Hs.
      rewrite Forall_forall in Hs. specialize (Hs k).
      unfold byLengthDesc in Hs. apply Nat.leb_le, Hs.
      apply list_elem_of_In, Hk.
Qed.

(** Two servers of the same length that both match are the same server. *)
Lemma match_same_length (wire separator a b : string) :
  matchesServer wire separator a = true ->
  matchesServer wire separator b = true ->
  String.length a = String.length b -> a = b.
Proof.
  unfold matchesServer. intros Ha Hb Hlen.
  destruct (startsWith_inv _ _ Ha) as [r Hr].
  destruct (startsWith_inv _ _ Hb) as [r' Hr'].
  eapply prefix_sep_same_length; [| exact Hlen].
  rewrite <- Hr, <- Hr'. reflexivity.
Qed.

Lemma parse_Some_of_match (wire separator : string) (known : list string)
    (k : string) :
  In k known -> matchesServer wire separator k = true ->
  exists p, parseNamespacedTool wire known separator = Some p.
Proof.
  intros Hk Hm. unfold parseNamespacedTool.
  destruct (parseLoop wire separator (Js.sort byLengthDesc known)) as [p |] eqn:E.
  - exists p. reflexivity.
  - rewrite parseLoop_None in E.
    rewrite (E k) in Hm; [discriminate |]. now apply sort_In.
Qed.

Lemma namespaceTool_matches (u t s : string) :
  matchesServer (namespaceTool u t s) s u = true.
Proof.
  unfold matchesServer, namespaceTool.
  rewrite <- append_assoc. apply startsWith_app.
Qed.

End NamespaceFacts.

(** C2, as stated, fails: with the known servers ["a"] and ["a__b"], the
    wire name of tool ["b__c"] on server ["a"] is ["a__b__c"], which the
    greedy parse gives to the longer server ["a__b"]. *)
Lemma C2_roundtrip_counterexample :
  In "a"%string ["a"; "a__b"]%string
  /\ Namespace.parseNamespacedTool (Namespace.namespaceTool "a" "b__c" "__")
       ["a"; "a__b"]%string "__"
     = Some {| Namespace.serverName := "a__b"; Namespace.toolName := "c" |}
  /\ Namespace.parseNamespacedTool (Namespace.namespaceTool "a" "b__c" "__")
       ["a"; "a__b"]%string "__"
     <> Some {| Namespace.serverName := "a"; Namespace.toolName := "b__c" |}.
Proof.
  split; [left; reflexivity |].
  split; [reflexivity | discriminate].
Qed.

(** C2, amended: for every server [u], tool [t], separator [s] and list of
    known servers that contains [u], parsing [namespaceTool u t s] gives
    back [(u, t)] provided no known server strictly longer than [u],
    followed by the separator, is a prefix of that wire name. *)
Theorem C2_roundtrip_when_no_longer_match
    (u t s : string) (knownServers : list string) :
  In u knownServers ->
  (forall k, In k knownServers ->
             (String.length u < String.length k)%nat ->
             Js.startsWith (Namespace.namespaceTool u t s) (k +:+ s) = false) ->
  Namespace.parseNamespacedTool (Namespace.namespaceTool u t s) knownServers s
  = Some {| Namespace.serverName := u; Namespace.toolName := t |}.
Proof.
  intros Hu Hlonger.
  pose proof (namespaceTool_matches u t s) as Hm.
  destruct (parse_Some_of_match _ _ _ _ Hu Hm) as [p Hp].
  rewrite Hp. f_equal.
  destruct (parse_longest _ _ _ _ Hp) as (Hin & Hpm & Hw & Hmax).
  assert (Hlen : String.length (Namespace.serverName p) = String.length u).
  { pose proof (Hmax u Hu Hm) as Hle.
    destruct (Nat.eq_dec (String.length (Namespace.serverName p))
                         (String.length u)) as [E | E]; [exact E |].
    assert (Hlt : (String.length u < String.length (Namespace.serverName p))%nat)
      by lia.
    pose proof (Hlonger _ Hin Hlt) as Hf.
    unfold matchesServer in Hpm. congruence. }
  pose proof (match_same_length _ _ _ _ Hpm Hm Hlen) as Hs.
  destruct p as [server tool]. simpl in *. subst server. f_equal.
  unfold Namespace.namespaceTool in Hw.
  apply (String.app_inj u) in Hw. apply (String.app_inj s) in Hw.
  symmetry. exact Hw.
Qed.

Lemma C2_roundtrip_witness :
  In "test_server"%string ["test"; "test_server"; "test_server_two"]%string
  /\ Js.startsWith (Namespace.namespaceTool "test_server" "do_thing" "__")
                   ("test_server_two" +:+ "__") = false
  /\ Namespace.parseNamespacedTool
    (Namespace.namespaceTool "test_server" "do_thing" "__")
    ["test"; "test_server"; "test_server_two"]%string "__"
  = Some {| Namespace.serverName := "test_server";
            Namespace.toolName := "do_thing" |}.
Proof.
  split; [right; left; reflexivity |]. split; [reflexivity |].
  apply (C2_roundtrip_when_no_longer_match "test_server" "do_thing" "__"
           ["test"; "test_server"; "test_server_two"]%string).
  - right. left. reflexivity.
  - intros k [<- | [<- | [<- | []]]] Hlt; simpl in Hlt; try lia; reflexivity.
Defined.

(* ===================================================================== *)
(** * Properties: reconnect back-off *)
(* ===================================================================== *)

Section ReconnectFacts.
Import Reconnect.

Lemma overflow_large : 30000 <= overflow.
Proof. unfold overflow, Z.le. vm_compute. discriminate. Qed.

(** With the default options the delay is [1000 * 2^attempt], cut at
    [30000]; the passage through [Infinity] beyond the range of binary64
    does not show. *)
Lemma calculateBackoff_default (n : Z) :
  0 <= n -> calculateBackoff n None = Z.min (1000 * 2 ^ n) 30000.
Proof.
  intros Hn.
  pose proof overflow_large as Hbig.
  assert (Hpos : 0 < 2 ^ n) by (apply Z.pow_pos_nonneg; lia).
  cbv [calculateBackoff withDefaults DEFAULT_OPTIONS opt_initialDelayMs
       opt_maxDelayMs pow2 times min].
  destruct (2 ^ n <? overflow) eqn:E1.
  - destruct (1000 * 2 ^ n <? overflow) eqn:E2; [reflexivity |].
    apply Z.ltb_ge in E2. lia.
  - apply Z.ltb_ge in E1. lia.
Qed.

End ReconnectFacts.

(** C7: for every attempt number [n >= 0], [calculateBackoff(n)] with the
    default options is [min(1000 * 2^n, 30000)]; hence it is at most
    [30000] and [calculateBackoff(n+1) >= calculateBackoff(n)]. *)
Theorem C7_calculateBackoff_default (n : Z) :
  0 <= n ->
  Reconnect.calculateBackoff n None = Z.min (1000 * 2 ^ n) 30000
  /\ Reconnect.calculateBackoff n None <= 30000
  /\ Reconnect.calculateBackoff n None <= Reconnect.calculateBackoff (n + 1) None.
Proof.
  intros Hn.
  rewrite !calculateBackoff_default by lia.
  assert (Hpos : 0 < 2 ^ n) by (apply Z.pow_pos_nonneg; lia).
  assert (Hdouble : 2 ^ (n + 1) = 2 * 2 ^ n)
    by (rewrite Z.pow_add_r by lia; lia).
  rewrite Hdouble. repeat split; lia.
Qed.

Lemma C7_calculateBackoff_witness :
  0 <= 3
  /\ Reconnect.calculateBackoff 3 None = Z.min (1000 * 2 ^ 3) 30000
  /\ Reconnect.calculateBackoff 3 None <= 30000
  /\ Reconnect.calculateBackoff 3 None <= Reconnect.calculateBackoff (3 + 1) None.
Proof. split; [lia | apply (C7_calculateBackoff_default 3); lia]. Defined.

Example calculateBackoff_values :
  map (fun n => Reconnect.calculateBackoff n None) [0; 1; 2; 3; 4; 5; 6; 1100]
  = [1000; 2000; 4000; 8000; 16000; 30000; 30000; 30000].
Proof. vm_compute. reflexivity. Qed.

(* ===================================================================== *)
(** * Properties: the fleet manager *)
(* ===================================================================== *)

Section ObjFacts.
Context {V : Type}.

Lemma get_of_key (o : list (string * V)) (k : string) :
  In k (Obj.keys o) -> exists v, Obj.get o k = Some v.
Proof.
  induction o as [| [k' v'] o IH]; simpl; [intros [] |].
  intros [-> | Hk].
  - rewrite String.eqb_refl. eauto.
  - destruct (String.eqb k' k); eauto.
Qed.

Lemma get_remove (o : list (string * V)) (k : string) :
  Obj.get (Obj.remove o k) k = None.
Proof.
  induction o as [| [k' v'] o IH]; simpl; [reflexivity |].
  destruct (String.eqb k' k) eqn:E; [exact IH |].
  simpl. rewrite E. exact IH.
Qed.

Lemma get_remove_other (o : list (string * V)) (k k' : string) :
  k <> k' -> Obj.get (Obj.remove o k) k' = Obj.get o k'.
Proof.
  intros Hne. induction o as [| [x v] o IH]; simpl; [reflexivity |].
  destruct (String.eqb x k) eqn:E.
  - apply String.eqb_eq in E. subst x.
    destruct (String.eqb k k') eqn:E'; [| exact IH].
    apply String.eqb_eq in E'. contradiction.
  - simpl. destruct (String.eqb x k'); [reflexivity | exact IH].
Qed.

End ObjFacts.

Section ServerManagerFacts.
Context `{JsRuntime}.
Import ServerManager.

(** In prefixed mode, a wire name that is not a meta-tool goes through
    [callPrefixed] and leaves the manager alone. *)
Lemma callTool_prefixed (m : t) (wire : string) (args : JsObject) :
  noPrefix m = false ->
  ToolsetManager.isMetaTool wire = false ->
  callTool m wire args = (callPrefixed m wire args, m).
Proof.
  intros Hp Hm. unfold callTool, callToolWith. rewrite Hp, Hm.
  destruct (toolsetManager m); reflexivity.
Qed.

Lemma callPrefixed_unresolved (m : t) (wire : string) (args : JsObject) :
  (forall n, In n (getServerNames m) ->
             matchesServer wire (separator m) n <> true) ->
  callPrefixed m wire args = Throw (cannotResolve wire).
Proof.
  intros Hnone.
  unfold callPrefixed, callPrefixedWith, Namespace.parseNamespacedTool.
  replace (Namespace.parseLoop wire (separator m)
             (Js.sort Namespace.byLengthDesc (Obj.keys (upstreams m))))
    with (@None Namespace.ParsedTool); [reflexivity |].
  symmetry. apply parseLoop_None. intros k Hk.
  apply sort_In in Hk. specialize (Hnone k Hk).
  destruct (matchesServer wire (separator m) k); congruence.
Qed.

(** The lookup that follows a successful parse finds the client. *)
Lemma parsed_server_registered (m : t) (wire : string)
    (parsed : Namespace.ParsedTool) :
  Namespace.parseNamespacedTool wire (Obj.keys (upstreams m)) (separator m)
  = Some parsed ->
  exists client,
    Obj.get (upstreams m) (Namespace.serverName parsed) = Some client.
Proof.
  intros Hp. apply parse_longest in Hp. apply get_of_key, Hp.
Qed.

Lemma callPrefixed_resolved (m : t) (wire : string) (args : JsObject) (n : string) :
  In n (getServerNames m) ->
  matchesServer wire (separator m) n = true ->
  exists n tool client,
    In n (getServerNames m)
    /\ matchesServer wire (separator m) n = true
    /\ wire = Namespace.namespaceTool n tool (separator m)
    /\ (forall n', In n' (getServerNames m) ->
                   matchesServer wire (separator m) n' = true ->
                   n' = n \/ (String.length n' < String.length n)%nat)
    /\ Obj.get (upstreams m) n = Some client
    /\ callPrefixed m wire args
       = if hidden m n then Throw (toolsetNotLoaded wire)
         else
           match getFilteredTools m n client with
           | Throw err => Throw err
           | Return filteredTools =>
               if negb (hasTool filteredTools tool)
               then Throw (toolNotFound wire)
               else UpstreamClient.callTool client tool args
           end.
Proof.
  intros Hn Hm.
  destruct (parse_Some_of_match _ _ _ _ Hn Hm) as [p Hp].
  destruct (parse_longest _ _ _ _ Hp) as (Hin & Hpm & Hw & Hmax).
  destruct (parsed_server_registered _ _ _ Hp) as [client Hc].
  exists (Namespace.serverName p), (Namespace.toolName p), client.
  repeat split; try assumption.
  - intros n' Hn' Hm'.
    pose proof (Hmax n' Hn' Hm') as Hle.
    destruct (Nat.eq_dec (String.length n')
                         (String.length (Namespace.serverName p))) as [E | E].
    + left. eapply match_same_length; eassumption.
    + right. lia.
  - unfold callPrefixed, callPrefixedWith. unfold getServerNames in *.
    rewrite Hp, Hc. reflexivity.
Qed.

(** Whatever the branch [if (!client)] does, [callTool] does the same. *)
Lemma callPrefixedWith_any (missing : string -> Outcome CallToolResult.t)
    (m : t) (wire : string) (args : JsObject) :
  callPrefixedWith missing m wire args = callPrefixed m wire args.
Proof.
  unfold callPrefixed, callPrefixedWith.
  destruct (Namespace.parseNamespacedTool wire (Obj.keys (upstreams m))
                                          (separator m)) as [parsed |] eqn:Hp;
    [| reflexivity].
  destruct (parsed_server_registered _ _ _ Hp) as [client Hc].
  rewrite Hc. reflexivity.
Qed.

(** In prefixed mode, for a wire name that is not a meta-tool, [callTool]
    keeps to [callToolContract]. *)
Lemma callTool_prefixed_contract (m : t) (wire : string) (args : JsObject) :
  noPrefix m = false ->
  ToolsetManager.isMetaTool wire = false ->
  callToolContract m wire args.
Proof.
  intros Hp Hmeta. unfold callToolContract.
  rewrite (callTool_prefixed m wire args Hp Hmeta). split.
  - intros Hnone. f_equal. apply callPrefixed_unresolved. exact Hnone.
  - intros (n & Hn & Hm).
    destruct (callPrefixed_resolved m wire args n Hn Hm)
      as (n0 & tool & client & H1 & H2 & H3 & H4 & H5 & H6).
    exists n0, tool, client. repeat split; try assumption.
    rewrite H6. reflexivity.
Qed.

Lemma reconnect_failure (dial : UpstreamClient.Dial) (m : t)
    (serverName err : string) (config : ServerConfig.t) :
  dial serverName config = Throw err ->
  reconnect dial m serverName config
  = (Throw err,
     match Obj.get (upstreams m) serverName with
     | Some _ => withUpstreams m (Obj.remove (upstreams m) serverName)
     | None => m
     end).
Proof.
  intros Hd. unfold reconnect, UpstreamClient.connect. rewrite Hd.
  reflexivity.
Qed.

End ServerManagerFacts.

(** The filter scenario of the specification. *)
Example filter_scenario :
  Glob.filterTools (fun name : string => name)
    ["read_file"; "write_file"; "search_code"; "dangerous_delete"; "run_tests"]%string
    (Some {| Glob.allowed := Some ["read_*"; "write_*"]%string;
             Glob.blocked := Some ["write_*"]%string |})
  = Return ["read_file"%string].
Proof. reflexivity. Qed.

(** The catalog of two upstreams without toolsets. *)
Example catalog_scenario :
  exists catalog,
    ServerManager.getAllTools
      (Scenario.fleet
         (Scenario.chessRemote (Scenario.ok "created")
                               (fun _ => Scenario.ok "moved"))
         (Scenario.vitestRemote (Scenario.ok "3 tests passed")))
    = Return catalog
    /\ map NamespacedTool.namespacedName catalog
       = [ "chess__chess_create_game"; "chess__chess_make_move";
           "vitest__set_project_root"; "vitest__run_tests" ]%string.
Proof. eexists. split; vm_compute; reflexivity. Qed.

(** The contract worked out on the two-upstream fleet. *)
Example callTool_contract_scenario :
  let m := Scenario.fleet
             (Scenario.chessRemote (Scenario.ok "created")
                                   (fun _ => Scenario.ok "moved"))
             (Scenario.vitestRemote (Scenario.ok "3 tests passed")) in
  callToolContract (H := scenarioRuntime) m "chess__chess_make_move" [].
Proof.
  apply (callTool_prefixed_contract (H := scenarioRuntime)); reflexivity.
Qed.

(** C1: the contract of [callTool] in prefixed mode fails on the code.  In
    the fleet whose upstream [vitest] is configured with the filter
    [{allowed: ["?"]}], the wire name [vitest__run_tests] is not a
    meta-tool, parses to the registered and visible upstream [vitest],
    and that upstream has the tool and would answer the call; yet
    [callTool] throws the error of the regular expression [/^?$/], which
    is none of [CannotResolve], [ToolsetNotLoaded] and [ToolNotFound]. *)
Theorem C1_callTool_throws_filter_error :
  let m := Scenario.questionFleet in
  let wire := "vitest__run_tests"%string in
  exists client,
    ServerManager.noPrefix m = false
    /\ ToolsetManager.isMetaTool wire = false
    /\ Namespace.parseNamespacedTool wire (ServerManager.getServerNames m)
                                     (ServerManager.separator m)
       = Some {| Namespace.serverName := "vitest";
                 Namespace.toolName := "run_tests" |}
    /\ Obj.get (ServerManager.upstreams m) "vitest" = Some client
    /\ ServerManager.hidden m "vitest" = false
    /\ In Scenario.run_tests (UpstreamClient.getTools client)
    /\ UpstreamClient.callTool client "run_tests" []
       = Return (Scenario.ok "3 tests passed")
    /\ ServerManager.callTool (H := scenarioRuntime) m wire []
       = (Throw (Glob.nothingToRepeat "?"), m)
    /\ Glob.nothingToRepeat "?" <> ServerManager.cannotResolve wire
    /\ Glob.nothingToRepeat "?" <> ServerManager.toolsetNotLoaded wire
    /\ Glob.nothingToRepeat "?" <> ServerManager.toolNotFound wire.
Proof.
  eexists. repeat split; try reflexivity; try discriminate.
  vm_compute. auto.
Qed.

(** C9: the "Server not connected" branch of [callTool] is dead.  The
    parse is run on the keys of the upstream map, so the server it returns
    is a key of that map and the lookup that follows finds a client; and
    whatever that branch is made to do with the server name that was
    parsed, in either naming mode, [callTool] returns the same result and
    leaves the same manager, for every manager, wire name and argument
    map. *)
Theorem C9_server_not_connected_unreachable `{JsRuntime}
    (missing : string -> Outcome CallToolResult.t)
    (m : ServerManager.t) (wire : string) (args : JsObject) :
  ServerManager.callToolWith missing m wire args
  = ServerManager.callTool m wire args
  /\ (forall parsed,
        Namespace.parseNamespacedTool wire
          (Obj.keys (ServerManager.upstreams m)) (ServerManager.separator m)
        = Some parsed ->
        exists client,
          Obj.get (ServerManager.upstreams m) (Namespace.serverName parsed)
          = Some client).
Proof.
  split; [| apply parsed_server_registered].
  unfold ServerManager.callTool, ServerManager.callToolWith.
  rewrite (callPrefixedWith_any missing m wire args).
  fold (ServerManager.callPrefixed m wire args).
  reflexivity.
Qed.

(** C10: when connecting the fresh client throws, [reconnect] throws the
    same error, the upstream map no longer has the name, and the
    server-config map is as before, so a previously stored entry for the
    name is still there. *)
Theorem C10_reconnect_not_atomic (dial : UpstreamClient.Dial)
    (m : ServerManager.t) (serverName err : string) (config : ServerConfig.t) :
  dial serverName config = Throw err ->
  fst (ServerManager.reconnect dial m serverName config) = Throw err
  /\ Obj.get (ServerManager.upstreams
                (snd (ServerManager.reconnect dial m serverName config)))
             serverName = None
  /\ ServerManager.serverConfigs
       (snd (ServerManager.reconnect dial m serverName config))
     = ServerManager.serverConfigs m.
Proof.
  intros Hd. rewrite (reconnect_failure dial m serverName err config Hd).
  simpl. split; [reflexivity |].
  destruct (Obj.get (ServerManager.upstreams m) serverName) eqn:E; simpl.
  - split; [apply get_remove | reflexivity].
  - split; [exact E | reflexivity].
Qed.

Lemma C10_reconnect_not_atomic_witness :
  let m := Scenario.fleet
             (Scenario.chessRemote (Scenario.ok "created")
                                   (fun _ => Scenario.ok "moved"))
             (Scenario.vitestRemote (Scenario.ok "3 tests passed")) in
  let after := ServerManager.reconnect (refusing "ECONNREFUSED") m "chess"
                                       (Scenario.stdio "chess-v2") in
  refusing "ECONNREFUSED" "chess" (Scenario.stdio "chess-v2") = Throw "ECONNREFUSED"
  /\ ServerManager.isConnected m "chess" = true
  /\ fst after = Throw "ECONNREFUSED"
  /\ Obj.get (ServerManager.upstreams (snd after)) "chess" = None
  /\ ServerManager.serverConfigs (snd after) = ServerManager.serverConfigs m.
Proof.
  split; [reflexivity |]. split; [reflexivity |].
  apply (C10_reconnect_not_atomic (refusing "ECONNREFUSED")). reflexivity.
Defined.

(* ===================================================================== *)
(** * Properties: toolset visibility *)
(* ===================================================================== *)

Section ToolsetFacts.
Import ToolsetManager.

Lemma includes_In (servers : list string) (server : string) :
  includes servers server = true <-> In server servers.
Proof.
  unfold includes. rewrite existsb_exists. split.
  - intros (x & Hx & E). apply String.eqb_eq in E. now subst.
  - intros Hin. exists server. split; [exact Hin | apply String.eqb_refl].
Qed.

Lemma belongs_memberOfSome (toolsets : list (string * ToolsetConfig))
    (server : string) :
  Js.some (fun ts => includes (servers ts) server) (map snd toolsets) = true
  <-> memberOfSome toolsets server.
Proof.
  unfold Js.some, memberOfSome. rewrite existsb_exists. split.
  - intros (ts & Hts & Hinc). apply in_map_iff in Hts.
    destruct Hts as ([name ts'] & <- & Hin).
    exists name, ts'. split; [exact Hin | now apply includes_In].
  - intros (name & ts & Hin & Hs). exists ts. split.
    + apply in_map_iff. exists (name, ts). auto.
    + now apply includes_In.
Qed.

Lemma loadedLoop_spec (entries : list (string * ToolsetConfig))
    (loaded : gset string) (server : string) :
  loadedLoop entries loaded server = true <->
  exists name ts, In (name, ts) entries /\ In server (servers ts) /\ name ∈ loaded.
Proof.
  induction entries as [| [name ts] entries IH]; simpl.
  - split; [discriminate | intros (? & ? & [] & _)].
  - destruct (includes (servers ts) server && bool_decide (name ∈ loaded)) eqn:E.
    + split; [intros _ | reflexivity].
      apply andb_true_iff in E. destruct E as [E1 E2].
      exists name, ts. split; [now left |].
      split; [now apply includes_In | now apply bool_decide_eq_true in E2].
    + rewrite IH. split.
      * intros (n & t & Hin & Hs & Hl). exists n, t. auto.
      * intros (n & t & [[= <- <-] | Hin] & Hs & Hl).
        -- apply includes_In in Hs.
           rewrite Hs, (bool_decide_eq_true_2 _ Hl) in E. discriminate.
        -- exists n, t. auto.
Qed.

(** [isServerVisible] on any state of the controller. *)
Lemma isServerVisible_iff (tm : t) (server : string) :
  isServerVisible tm server = true <->
  ~ memberOfSome (toolsets tm) server
  \/ exists name ts,
       In (name, ts) (toolsets tm) /\ In server (servers ts)
       /\ name ∈ loadedToolsets tm.
Proof.
  unfold isServerVisible.
  destruct (Js.some _ _) eqn:E; simpl.
  - apply belongs_memberOfSome in E. rewrite loadedLoop_spec.
    split; [intros H; right; exact H |].
    intros [Hno | H]; [contradiction | exact H].
  - split; [intros _; left | reflexivity].
    intros Hm. apply belongs_memberOfSome in Hm. congruence.
Qed.

(** The controller after [loadToolset], whether it returned or threw. *)
Lemma loadToolset_state (tm : t) (name : string) :
  snd (loadToolset tm name)
  = match Obj.get (toolsets tm) name with
    | Some _ => withLoaded tm ({[ name ]} ∪ loadedToolsets tm)
    | None =>
        if Obj.inherited name
        then withLoaded tm ({[ name ]} ∪ loadedToolsets tm)
        else tm
    end.
Proof.
  unfold loadToolset.
  destruct (Obj.get (toolsets tm) name) as [toolset |];
    [destruct (toolCountOf tm (servers toolset))
    | destruct (Obj.inherited name)]; reflexivity.
Qed.

Lemma applyOp_toolsets (tm : t) (op : ToolsetOp) :
  toolsets (applyOp tm op) = toolsets tm.
Proof.
  destruct op as [name | name]; simpl;
    [rewrite loadToolset_state | unfold unloadToolset];
    destruct (Obj.get (toolsets tm) name);
    try destruct (Obj.inherited name); reflexivity.
Qed.

Lemma runOps_toolsets (ops : list ToolsetOp) (tm : t) :
  toolsets (runOps ops tm) = toolsets tm.
Proof.
  revert tm. induction ops as [| op ops IH]; intros tm; simpl; [reflexivity |].
  unfold runOps in *. simpl. rewrite IH. apply applyOp_toolsets.
Qed.

Lemma get_of_entry {V : Type} (o : list (string * V)) (k : string) (v : V) :
  In (k, v) o -> exists v', Obj.get o k = Some v'.
Proof.
  intros Hin. apply get_of_key. unfold Obj.keys.
  apply in_map_iff. exists (k, v). auto.
Qed.

(** A request changes the loaded state of a configured toolset only when it
    names that toolset. *)
Lemma applyOp_loaded (tm : t) (op : ToolsetOp) (name : string)
    (ts : ToolsetConfig) :
  Obj.get (toolsets tm) name = Some ts ->
  bool_decide (name ∈ loadedToolsets (applyOp tm op))
  = match op with
    | Load n => if String.eqb n name then true
                else bool_decide (name ∈ loadedToolsets tm)
    | Unload n => if String.eqb n name then false
                  else bool_decide (name ∈ loadedToolsets tm)
    end.
Proof.
  intros Hown.
  destruct op as [n | n]; simpl;
    [rewrite loadToolset_state | unfold unloadToolset];
    destruct (String.eqb n name) eqn:E.
  - apply String.eqb_eq in E. subst n. rewrite Hown. simpl.
    apply bool_decide_eq_true. set_solver.
  - apply String.eqb_neq in E.
    destruct (Obj.get (toolsets tm) n); [| destruct (Obj.inherited n)]; simpl;
      try reflexivity; apply bool_decide_ext; set_solver.
  - apply String.eqb_eq in E. subst n. rewrite Hown. simpl.
    apply bool_decide_eq_false. set_solver.
  - apply String.eqb_neq in E.
    destruct (Obj.get (toolsets tm) n); [| destruct (Obj.inherited n)]; simpl;
      try reflexivity; apply bool_decide_ext; set_solver.
Qed.

Lemma runOps_loaded (ops : list ToolsetOp) (tm : t) (name : string)
    (ts : ToolsetConfig) :
  Obj.get (toolsets tm) name = Some ts ->
  bool_decide (name ∈ loadedToolsets (runOps ops tm))
  = loadedAfter (bool_decide (name ∈ loadedToolsets tm)) ops name.
Proof.
  revert tm. induction ops as [| op ops IH]; intros tm Hown; [reflexivity |].
  unfold runOps in *. simpl fold_left.
  rewrite IH by (rewrite applyOp_toolsets; exact Hown).
  rewrite (applyOp_loaded tm op name ts Hown).
  destruct op; reflexivity.
Qed.

(** Visibility after any sequence of requests, starting from a fresh
    controller. *)
Lemma isServerVisible_after (toolsets : list (string * ToolsetConfig))
    (fn : string -> Outcome Z) (ops : list ToolsetOp) (server : string) :
  isServerVisible (runOps ops (create toolsets fn)) server = true
  <-> visibleBySpec toolsets ops server.
Proof.
  rewrite isServerVisible_iff, runOps_toolsets. simpl.
  unfold visibleBySpec, memberOfLoaded.
  assert (Hl : forall name ts, In (name, ts) toolsets ->
            (name ∈ loadedToolsets (runOps ops (create toolsets fn))
             <-> loadedAfter false ops name = true)).
  { intros name ts Hin.
    destruct (get_of_entry _ _ _ Hin) as [ts' Hown].
    rewrite <- (bool_decide_eq_true (name ∈ _)).
    rewrite (runOps_loaded ops (create toolsets fn) name ts' Hown).
    simpl. rewrite bool_decide_eq_false_2 by set_solver. reflexivity. }
  split; (intros [Hno | (name & ts & Hin & Hs & Hld)]; [left; exact Hno |]);
    right; exists name, ts; repeat split; try assumption;
    now apply (Hl name ts Hin).
Qed.

End ToolsetFacts.

Section CatalogFacts.
Import ServerManager.

Lemma push_all {A B : Type} (f : A -> B) (l : list A) (acc : list B) :
  fold_left (fun acc x => acc ++ [f x]) l acc = acc ++ map f l.
Proof.
  revert acc. induction l as [| x l IH]; intros acc; simpl.
  - now rewrite app_nil_r.
  - rewrite IH, <- app_assoc. reflexivity.
Qed.

Lemma collectTools_closed_form (m : t) (ups : list (string * UpstreamClient.t))
    (acc catalog : list NamespacedTool.t) :
  collectTools m ups acc = Return catalog ->
  catalog = acc ++ flat_map (contribution m) ups.
Proof.
  revert acc. induction ups as [| [name client] ups IH]; intros acc; simpl.
  - intros [= <-]. now rewrite app_nil_r.
  - unfold contribution at 1. simpl.
    destruct (hidden m name); simpl; [apply IH |].
    destruct (getFilteredTools m name client) as [filtered | err];
      [| discriminate].
    intros Hc. rewrite (IH _ Hc), push_all, <- app_assoc. reflexivity.
Qed.

(** [getAllTools] in closed form: the contributions of the upstreams in
    the order of the map, then the meta-tools when a toolset controller is
    attached. *)
Lemma getAllTools_closed_form (m : t) (catalog : list NamespacedTool.t) :
  getAllTools m = Return catalog ->
  catalog
  = flat_map (contribution m) (upstreams m)
    ++ match toolsetManager m with
       | Some _ => map metaEntryOf ToolsetManager.getMetaTools
       | None => []
       end.
Proof.
  unfold getAllTools.
  destruct (collectTools m (upstreams m) []) as [tools | err] eqn:Hc;
    [| discriminate].
  apply collectTools_closed_form in Hc. simpl in Hc. subst tools.
  destruct (toolsetManager m).
  - rewrite push_all. intros [= <-]. reflexivity.
  - intros [= <-]. now rewrite app_nil_r.
Qed.

(** The loop returns exactly when the filter of every visible upstream
    returns. *)
Lemma collectTools_returns (m : t) (ups : list (string * UpstreamClient.t))
    (acc : list NamespacedTool.t) :
  (exists catalog, collectTools m ups acc = Return catalog)
  <-> (forall name client,
         In (name, client) ups -> hidden m name = false ->
         exists filtered, getFilteredTools m name client = Return filtered).
Proof.
  revert acc. induction ups as [| [name client] ups IH]; intros acc; simpl.
  - split; [intros _ ? ? [] | eauto].
  - destruct (hidden m name) eqn:Hh.
    + rewrite IH. split.
      * intros Hall n c [[= <- <-] | Hin] Hv; [congruence | eauto].
      * intros Hall n c Hin Hv. apply Hall; auto.
    + destruct (getFilteredTools m name client) as [filtered | err] eqn:Hf.
      * rewrite IH. split.
        -- intros Hall n c [[= <- <-] | Hin] Hv; eauto.
        -- intros Hall n c Hin Hv. apply Hall; auto.
      * split.
        -- intros [catalog Hc]. discriminate.
        -- intros Hall. destruct (Hall name client (or_introl eq_refl) Hh)
             as [filtered Hfiltered]. congruence.
Qed.

Lemma getAllTools_returns (m : t) :
  (exists catalog, getAllTools m = Return catalog) <-> filtersReturn m.
Proof.
  unfold filtersReturn. rewrite <- (collectTools_returns m (upstreams m) []).
  unfold getAllTools.
  destruct (collectTools m (upstreams m) []) as [tools | err].
  - split; [eauto |]. intros _. destruct (toolsetManager m); eauto.
  - split; intros [catalog Hc]; discriminate.
Qed.

(** When the loop throws, it throws the error of the filter of a visible
    upstream. *)
Lemma collectTools_throws (m : t) (ups : list (string * UpstreamClient.t))
    (acc : list NamespacedTool.t) (err : string) :
  collectTools m ups acc = Throw err ->
  exists name client,
    In (name, client) ups /\ hidden m name = false
    /\ getFilteredTools m name client = Throw err.
Proof.
  revert acc. induction ups as [| [name client] ups IH]; intros acc; simpl;
    [discriminate |].
  destruct (hidden m name) eqn:Hh.
  - intros Hc. destruct (IH _ Hc) as (n & c & Hin & Hv & Hf). eauto 6.
  - destruct (getFilteredTools m name client) as [filtered | err'] eqn:Hf.
    + intros Hc. destruct (IH _ Hc) as (n & c & Hin & Hv & Hf'). eauto 6.
    + intros [= <-]. eauto 6.
Qed.

Lemma getAllTools_throws (m : t) (err : string) :
  getAllTools m = Throw err ->
  exists name client,
    In (name, client) (upstreams m) /\ hidden m name = false
    /\ getFilteredTools m name client = Throw err.
Proof.
  unfold getAllTools.
  destruct (collectTools m (upstreams m) []) as [tools | err'] eqn:Hc.
  - destruct (toolsetManager m); discriminate.
  - intros [= <-]. eapply collectTools_throws. exact Hc.
Qed.

Lemma in_contribution (m : t) (e : NamespacedTool.t) :
  In e (flat_map (contribution m) (upstreams m)) <->
  exists name, hidden m name = false /\ entryOfUpstream m name e.
Proof.
  rewrite in_flat_map. unfold contribution, entryOfUpstream. split.
  - intros ([name client] & Hup & He). simpl in He.
    destruct (hidden m name) eqn:Hh; [destruct He |].
    destruct (getFilteredTools m name client) as [filtered | err] eqn:Hf;
      [| destruct He].
    apply in_map_iff in He. destruct He as (tool & <- & Htool).
    exists name. split; [exact Hh |]. exists client, filtered, tool. auto.
  - intros (name & Hh & client & filtered & tool & Hup & Hf & Htool & ->).
    exists (name, client). split; [exact Hup |]. simpl. rewrite Hh, Hf.
    apply in_map. exact Htool.
Qed.

(** A catalog entry made from an upstream tool in prefixed mode is never
    one of the meta-tool entries. *)
Lemma entryOf_not_meta (m : t) (name : string) (tool : ToolInfo.t) :
  noPrefix m = false -> ~ metaEntry (entryOf m name tool).
Proof.
  intros Hp. unfold metaEntry. rewrite in_map_iff.
  intros (mt & Heq & _).
  unfold entryOf, metaEntryOf in Heq. rewrite Hp in Heq.
  injection Heq as Hn Ho Hs _ _.
  rewrite Ho, <- Hs in Hn. unfold Namespace.namespaceTool in Hn.
  apply (f_equal String.length) in Hn.
  rewrite !length_append in Hn. simpl in Hn. lia.
Qed.

End CatalogFacts.

(** For every toolset configuration and every sequence of load and unload
    requests, [isServerVisible(server)] holds iff the server is listed in
    no toolset or in a toolset that is currently loaded; [getAllTools()]
    returns when the filter of every visible upstream returns, and then it
    consists of the catalog entries of the filtered tools of the visible
    upstreams, followed by the meta-tools, so that in prefixed mode the
    entry of an upstream's filtered tool is in the catalog iff the
    upstream is visible. *)
Lemma visibility_and_catalog
    (toolsets : list (string * ToolsetManager.ToolsetConfig))
    (serverToolCountFn : string -> Outcome Z) (ops : list ToolsetOp)
    (m0 : ServerManager.t) :
  let tm := runOps ops (ToolsetManager.create toolsets serverToolCountFn) in
  let m := ServerManager.setToolsetManager m0 tm in
  (forall server,
     ToolsetManager.isServerVisible tm server = true
     <-> visibleBySpec toolsets ops server)
  /\ (filtersReturn m -> exists catalog, ServerManager.getAllTools m = Return catalog)
  /\ (forall catalog,
        ServerManager.getAllTools m = Return catalog ->
        (forall e,
           In e catalog
           <-> (exists name, visibleBySpec toolsets ops name
                             /\ entryOfUpstream m name e)
               \/ metaEntry e)
        /\ (forall name client filtered tool,
              ServerManager.noPrefix m = false ->
              In (name, client) (ServerManager.upstreams m) ->
              ServerManager.getFilteredTools m name client = Return filtered ->
              In tool filtered ->
              (In (ServerManager.entryOf m name tool) catalog
               <-> visibleBySpec toolsets ops name))).
Proof.
  intros tm m.
  assert (Hvis : forall server,
            ToolsetManager.isServerVisible tm server = true
            <-> visibleBySpec toolsets ops server)
    by (intros server; apply isServerVisible_after).
  assert (Hhid : forall name,
            ServerManager.hidden m name = false
            <-> visibleBySpec toolsets ops name).
  { intros name. rewrite <- Hvis. unfold ServerManager.hidden. simpl.
    destruct (ToolsetManager.isServerVisible tm name); simpl;
      split; congruence. }
  split; [exact Hvis |]. split; [apply getAllTools_returns |].
  intros catalog Hcatalog.
  assert (Hcat : forall e,
            In e catalog
            <-> (exists name, visibleBySpec toolsets ops name
                              /\ entryOfUpstream m name e)
                \/ metaEntry e).
  { intros e. rewrite (getAllTools_closed_form m catalog Hcatalog).
    rewrite in_app_iff, in_contribution.
    simpl. unfold metaEntry.
    split; (intros [(name & Hh & He) | Hm]; [left | right; exact Hm]);
      exists name; (split; [apply Hhid; exact Hh | exact He]). }
  split; [exact Hcat |].
  intros name client filtered tool Hp Hup Hf Htool. rewrite Hcat. split.
  - intros [(name' & Hv & client' & filtered' & tool' & _ & _ & _ & Heq) | Hm].
    + apply (f_equal NamespacedTool.serverName) in Heq. simpl in Heq.
      now subst name'.
    + exfalso. exact (entryOf_not_meta m name tool Hp Hm).
  - intros Hv. left. exists name. split; [exact Hv |].
    exists client, filtered, tool. auto.
Qed.

(** C3: the catalog half of the claim fails on the code.  Take the toolset
    [testing] of the server [vitest], loaded, and the upstreams [chess]
    and [vitest], where [vitest] is configured with the filter
    [{allowed: ["?"]}].  Both upstreams are visible in the sense of the
    claim and connected, and the filtered tools of [chess] are its two
    tools; yet [getAllTools] throws the error of the regular expression
    [/^?$/] and so includes the tools of no upstream. *)
Theorem C3_catalog_throws_filter_error :
  let toolsets :=
    [ ("testing"%string,
       {| ToolsetManager.servers := ["vitest"%string];
          ToolsetManager.description := None |}) ] in
  let m := Scenario.questionLazyFleet in
  exists tm chess,
    ServerManager.toolsetManager m = Some tm
    /\ tm = runOps [Load "testing"]
                   (ToolsetManager.create toolsets
                      (Scenario.toolCount Scenario.questionFleet))
    /\ visibleBySpec toolsets [Load "testing"] "chess"
    /\ visibleBySpec toolsets [Load "testing"] "vitest"
    /\ ToolsetManager.isServerVisible tm "chess" = true
    /\ ToolsetManager.isServerVisible tm "vitest" = true
    /\ In ("chess"%string, chess) (ServerManager.upstreams m)
    /\ ServerManager.isConnected m "chess" = true
    /\ ServerManager.getFilteredTools m "chess" chess
       = Return [Scenario.chess_create_game; Scenario.chess_make_move]
    /\ ServerManager.getAllTools m = Throw (Glob.nothingToRepeat "?").
Proof.
  intros toolsets m.
  assert (Hchess : visibleBySpec toolsets [Load "testing"] "chess").
  { left. intros (name & ts & [[= <- <-] | []] & [Hs | []]). discriminate. }
  assert (Hvitest : visibleBySpec toolsets [Load "testing"] "vitest").
  { right. exists "testing"%string,
      {| ToolsetManager.servers := ["vitest"%string];
         ToolsetManager.description := None |}.
    repeat split; simpl; auto. }
  eexists. eexists.
  split; [reflexivity |]. split; [reflexivity |].
  split; [exact Hchess |]. split; [exact Hvitest |].
  split; [vm_compute; reflexivity |]. split; [vm_compute; reflexivity |].
  split; [left; reflexivity |].
  split; vm_compute; auto.
Qed.

(** The scenario of the specification: toolsets [github] and [testing]. *)
Example toolset_visibility_scenario :
  let tm := ToolsetManager.create
              [ ("github"%string,
                 {| ToolsetManager.servers := ["github-mcp"%string];
                    ToolsetManager.description := None |});
                ("testing"%string,
                 {| ToolsetManager.servers := ["vitest"; "playwright"]%string;
                    ToolsetManager.description := None |}) ]
              (fun _ => Return 1) in
  ToolsetManager.isServerVisible tm "github-mcp" = false
  /\ ToolsetManager.isServerVisible (runOps [Load "github"] tm) "github-mcp" = true
  /\ ToolsetManager.isServerVisible (runOps [Load "github"] tm) "vitest" = false
  /\ ToolsetManager.isServerVisible (runOps [Load "github"] tm) "other" = true
  /\ ToolsetManager.isServerVisible
       (runOps [Load "github"; Unload "github"] tm) "github-mcp" = false.
Proof. vm_compute. repeat split; reflexivity. Qed.

(* ===================================================================== *)
(** * Properties: the fuzzy scorer *)
(* ===================================================================== *)

Section FuzzyFacts.
Import Fuzzy.

Lemma get_nth_error (s : string) (n : nat) :
  String.get n s = nth_error (list_ascii_of_string s) n.
Proof.
  revert n. induction s as [| c s IH]; intros [| n]; simpl; auto.
Qed.

Lemma chars_toLowerCase (s : string) :
  list_ascii_of_string (toLowerCase s) = map toLowerChar (list_ascii_of_string s).
Proof. induction s as [| c s IH]; simpl; [reflexivity | now rewrite IH]. Qed.

Lemma length_chars (s : string) :
  List.length (list_ascii_of_string s) = String.length s.
Proof. induction s as [| c s IH]; simpl; [reflexivity | now rewrite IH]. Qed.

Lemma length_toLowerCase (s : string) :
  String.length (toLowerCase s) = String.length s.
Proof. induction s as [| c s IH]; simpl; [reflexivity | now rewrite IH]. Qed.

Lemma get_toLowerCase (s : string) (n : nat) :
  String.get n (toLowerCase s)
  = option_map toLowerChar (nth_error (list_ascii_of_string s) n).
Proof.
  rewrite get_nth_error, chars_toLowerCase. apply nth_error_map.
Qed.

(** The source's test for an upper-case letter. *)
Lemma upper_test (c : ascii) :
  Ascii.eqb c (toUpperChar c) && negb (Ascii.eqb c (toLowerChar c))
  = isUpperLetter c.
Proof.
  destruct c as [[] [] [] [] [] [] [] []]; vm_compute; reflexivity.
Qed.

Lemma skipn_cons_inv {A : Type} (l : list A) (n : nat) (x : A) (rest : list A) :
  skipn n l = x :: rest -> nth_error l n = Some x /\ skipn (S n) l = rest.
Proof.
  revert l. induction n as [| n IH]; intros [| y l] Hs; simpl in *;
    try discriminate.
  - injection Hs as -> ->. split; reflexivity.
  - apply IH. exact Hs.
Qed.

Lemma skipn_nil_inv {A : Type} (l : list A) (n : nat) :
  skipn n l = [] -> (List.length l <= n)%nat.
Proof.
  revert l. induction n as [| n IH]; intros [| y l] Hs; simpl in *;
    try discriminate; try lia.
  apply IH in Hs. lia.
Qed.

Lemma nth_error_length {A : Type} (l : list A) (n : nat) (x : A) :
  nth_error l n = Some x -> (n < List.length l)%nat.
Proof. intros Hn. apply nth_error_Some. congruence. Qed.

Lemma matchPositions_length (tl ql : list ascii) (pos : nat) :
  (List.length (fst (matchPositions tl ql pos))
   + List.length (snd (matchPositions tl ql pos)) = List.length ql)%nat.
Proof.
  revert ql pos. induction tl as [| c tl IH]; intros ql pos.
  - destruct ql; reflexivity.
  - destruct ql as [| d ql]; [reflexivity |]. simpl.
    destruct (Ascii.eqb (toLowerChar c) (toLowerChar d)).
    + specialize (IH ql (S pos)).
      destruct (matchPositions tl ql (S pos)) as [ps un]. simpl in *. lia.
    + apply (IH (d :: ql) (S pos)).
Qed.

Variables (query target : string).
Local Abbreviation T := (list_ascii_of_string target).
Local Abbreviation Q := (list_ascii_of_string query).

(** The loop of the source, started anywhere, follows the positions at
    which the query is matched and adds up [codeAward]. *)
Lemma walk_matchPositions (tl : list ascii) :
  forall (ti qi : nat) (ql : list ascii) (last score : Z),
    skipn ti T = tl -> skipn qi Q = ql -> (qi <= List.length Q)%nat ->
    walk target (toLowerCase target) (toLowerCase query)
         (List.length tl) ti qi last score
    = ((qi + List.length (fst (matchPositions tl ql ti)))%nat,
       score + codeAwards target last qi (fst (matchPositions tl ql ti))).
Proof.
  induction tl as [| c tl IH]; intros ti qi ql last score Ht Hq Hqi.
  - simpl. destruct ql; simpl; f_equal; lia.
  - simpl walk. rewrite length_toLowerCase, <- (length_chars query).
    destruct ql as [| d ql].
    + apply skipn_nil_inv in Hq.
      replace (qi <? List.length Q)%nat with false
        by (symmetry; apply Nat.ltb_ge; lia).
      simpl. f_equal; lia.
    + destruct (skipn_cons_inv _ _ _ _ Ht) as [Hc Ht'].
      destruct (skipn_cons_inv _ _ _ _ Hq) as [Hd Hq'].
      pose proof (nth_error_length _ _ _ Hd) as Hlt.
      replace (qi <? List.length Q)%nat with true
        by (symmetry; apply Nat.ltb_lt; exact Hlt).
      rewrite !get_toLowerCase. rewrite Hc, Hd. simpl.
      destruct (Ascii.eqb (toLowerChar c) (toLowerChar d)).
      * rewrite (IH (S ti) (S qi) ql _ _ Ht' Hq') by lia.
        destruct (matchPositions tl ql (S ti)) as [ps un]. simpl.
        f_equal; [lia |].
        unfold codeAward.
        destruct ((qi =? 0)%nat && (ti =? 0)%nat);
          destruct ((0 <? ti)%nat && isWordBoundary target ti);
          destruct (last =? Z.of_nat ti - 1);
          destruct (0 <=? last); lia.
      * rewrite (IH (S ti) qi (d :: ql) _ _ Ht' Hq) by lia. reflexivity.
Qed.

(** Past position [0], the source's word-boundary test is the one of the
    specification with "lower" read as unchanged by lower-casing. *)
Lemma boundary_agrees (start : bool) (ti : nat) (prev curr : ascii) :
  nth_error T ti = Some prev -> nth_error T (S ti) = Some curr ->
  (0 <? S ti)%nat && isWordBoundary target (S ti)
  = wordBoundary start lowerCased T (S ti).
Proof.
  intros Hp Hc. unfold isWordBoundary, wordBoundary.
  change (0 <? S ti)%nat with true. change (S ti =? 0)%nat with false.
  cbv iota. replace (S ti - 1)%nat with ti by lia.
  rewrite !get_nth_error. rewrite Hp, Hc.
  unfold lowerCased. rewrite <- upper_test.
  destruct (Ascii.eqb prev "_" || Ascii.eqb prev "-").
  - reflexivity.
  - rewrite andb_true_l, orb_false_l, andb_assoc. reflexivity.
Qed.

(** After a first match the awards of the source are those of the
    specification. *)
Lemma awards_agree_later (start : bool) (tl : list ascii) :
  forall (ti qi previous : nat) (ql : list ascii),
    skipn ti T = tl -> (previous < ti)%nat -> (0 < qi)%nat ->
    codeAwards target (Z.of_nat previous) qi (fst (matchPositions tl ql ti))
    = awards start lowerCased T (Some previous) (fst (matchPositions tl ql ti)).
Proof.
  induction tl as [| c tl IH]; intros ti qi previous ql Ht Hprev Hqi.
  - destruct ql; reflexivity.
  - destruct ql as [| d ql]; [reflexivity |]. simpl.
    destruct (skipn_cons_inv _ _ _ _ Ht) as [Hc Ht'].
    destruct (Ascii.eqb (toLowerChar c) (toLowerChar d)).
    + specialize (IH (S ti) (S qi) ti ql Ht').
      destruct (matchPositions tl ql (S ti)) as [ps un]. simpl in *.
      rewrite IH by lia. f_equal.
      destruct ti as [| b]; [lia |].
      assert (Hb : exists prev, nth_error T b = Some prev).
      { destruct (nth_error T b) eqn:E; [eauto |].
        apply nth_error_None in E. apply nth_error_length in Hc. lia. }
      destruct Hb as [prev Hb].
      unfold codeAward, award.
      rewrite (boundary_agrees start b prev c Hb Hc).
      replace ((qi =? 0)%nat) with false by (symmetry; apply Nat.eqb_neq; lia).
      simpl andb.
      destruct (wordBoundary start lowerCased T (S b));
        destruct (Nat.eqb_spec (S b) (S previous)) as [E | E].
      * replace (Z.of_nat previous =? Z.of_nat (S b) - 1) with true
          by (symmetry; apply Z.eqb_eq; lia). lia.
      * replace (Z.of_nat previous =? Z.of_nat (S b) - 1) with false
          by (symmetry; apply Z.eqb_neq; lia).
        replace (0 <=? Z.of_nat previous) with true
          by (symmetry; apply Z.leb_le; lia). lia.
      * replace (Z.of_nat previous =? Z.of_nat (S b) - 1) with true
          by (symmetry; apply Z.eqb_eq; lia). lia.
      * replace (Z.of_nat previous =? Z.of_nat (S b) - 1) with false
          by (symmetry; apply Z.eqb_neq; lia).
        replace (0 <=? Z.of_nat previous) with true
          by (symmetry; apply Z.leb_le; lia). lia.
    + apply (IH (S ti) qi previous (d :: ql) Ht'); lia.
Qed.

(** From the start, the awards of the source are those of the
    specification without a word boundary at position [0], plus the
    prefix bonus and six half-points when the first match is at position
    [0]. *)
Lemma awards_agree_first (tl : list ascii) :
  forall (ti : nat) (ql : list ascii),
    skipn ti T = tl ->
    codeAwards target (-1) 0 (fst (matchPositions tl ql ti))
    = awards false lowerCased T None (fst (matchPositions tl ql ti))
      + match fst (matchPositions tl ql ti) with
        | O :: _ => 16
        | _ => 0
        end.
Proof.
  induction tl as [| c tl IH]; intros ti ql Ht.
  - destruct ql; reflexivity.
  - destruct ql as [| d ql]; [reflexivity |]. simpl.
    destruct (skipn_cons_inv _ _ _ _ Ht) as [Hc Ht'].
    destruct (Ascii.eqb (toLowerChar c) (toLowerChar d)).
    + pose proof (awards_agree_later false tl (S ti) 1 ti ql Ht') as Hl.
      destruct (matchPositions tl ql (S ti)) as [ps un]. simpl in *.
      rewrite Hl by lia.
      destruct ti as [| b].
      * unfold codeAward, award. simpl. lia.
      * assert (Hb : exists prev, nth_error T b = Some prev).
        { destruct (nth_error T b) eqn:E; [eauto |].
          apply nth_error_None in E. apply nth_error_length in Hc. lia. }
        destruct Hb as [prev Hb].
        unfold codeAward, award.
        rewrite (boundary_agrees false b prev c Hb Hc).
        replace (-1 =? Z.of_nat (S b) - 1) with false
          by (symmetry; apply Z.eqb_neq; lia).
        simpl.
        destruct (wordBoundary false lowerCased T (S b)); lia.
    + apply (IH (S ti) (d :: ql) Ht').
Qed.

End FuzzyFacts.

Section FuzzyScore.
Import Fuzzy.

Lemma matchPositions_ge (tl ql : list ascii) (pos : nat) :
  Forall (fun p => (pos <= p)%nat) (fst (matchPositions tl ql pos)).
Proof.
  revert ql pos. induction tl as [| c tl IH]; intros ql pos.
  - destruct ql; constructor.
  - destruct ql as [| d ql]; [constructor |]. simpl.
    destruct (Ascii.eqb (toLowerChar c) (toLowerChar d)).
    + specialize (IH ql (S pos)).
      destruct (matchPositions tl ql (S pos)) as [ps un]. simpl in *.
      constructor; [lia |].
      eapply Forall_impl; [exact IH |]. simpl. intros; lia.
    + specialize (IH (d :: ql) (S pos)).
      eapply Forall_impl; [exact IH |]. simpl. intros; lia.
Qed.

(** Whether position [0] counts as a word boundary only matters for a
    match at position [0]. *)
Lemma awards_start_irrelevant (lower : ascii -> bool) (target : list ascii)
    (previous : option nat) (positions : list nat) :
  Forall (fun p => (1 <= p)%nat) positions ->
  awards true lower target previous positions
  = awards false lower target previous positions.
Proof.
  revert previous. induction positions as [| p ps IH]; intros previous Hall;
    [reflexivity |].
  apply Forall_cons in Hall. destruct Hall as [Hp Hps].
  simpl. rewrite (IH _ Hps). f_equal.
  destruct p as [| b]; [lia | reflexivity].
Qed.

(** The score of the source in terms of the rule of the specification with
    no word boundary at position [0]: they differ by six half-points
    exactly when the query is matched in full with its first character at
    position [0]. *)
Lemma fuzzyScore_exact (query target : string) :
  fuzzyScore query target
  = referenceScore false lowerCased query target
    + (if matchesAtStart query target then 6 else 0).
Proof.
  unfold fuzzyScore, referenceScore, matchesAtStart.
  destruct query as [| q0 query'] eqn:Eq.
  { simpl. destruct (list_ascii_of_string target); reflexivity. }
  destruct target as [| t0 target'] eqn:Et; [reflexivity |].
  rewrite <- Eq, <- Et.
  replace (String.eqb query "" || String.eqb target "") with false
    by (subst; reflexivity).
  set (T := list_ascii_of_string target).
  set (Q := list_ascii_of_string query).
  rewrite length_toLowerCase, <- (length_chars target). fold T.
  rewrite (walk_matchPositions query target T 0 0 Q (-1) 0)
    by (reflexivity || lia).
  rewrite length_toLowerCase, <- (length_chars query). fold Q.
  pose proof (matchPositions_length T Q 0) as Hlen.
  pose proof (awards_agree_first target T 0 Q eq_refl) as Hfirst.
  fold T in Hfirst.
  destruct (matchPositions T Q 0) as [ps un]. simpl in *.
  destruct un as [| u un].
  - simpl in Hlen. rewrite Nat.add_0_r in Hlen.
    replace (List.length ps <? List.length Q)%nat with false
      by (symmetry; apply Nat.ltb_ge; lia).
    rewrite Hfirst. destruct ps as [| [| p] ps]; simpl; lia.
  - simpl in Hlen.
    replace (List.length ps <? List.length Q)%nat with true
      by (symmetry; apply Nat.ltb_lt; lia).
    destruct ps as [| [| p] ps]; reflexivity.
Qed.

Lemma matchPositions_tail_positive (tl ql : list ascii) (pos : nat) :
  Forall (fun p => (1 <= p)%nat) (tail (fst (matchPositions tl ql pos))).
Proof.
  revert ql pos. induction tl as [| c tl IH]; intros ql pos.
  - destruct ql; constructor.
  - destruct ql as [| d ql]; [constructor |]. simpl.
    destruct (Ascii.eqb (toLowerChar c) (toLowerChar d)).
    + pose proof (matchPositions_ge tl ql (S pos)) as Hge.
      destruct (matchPositions tl ql (S pos)) as [ps un]. simpl in *.
      eapply Forall_impl; [exact Hge |]. simpl. intros; lia.
    + apply (IH (d :: ql) (S pos)).
Qed.

(** Where the query is not matched in full from position [0], the score
    of the source is the rule of the specification as it is written. *)
Lemma fuzzyScore_away_from_start (query target : string) :
  matchesAtStart query target = false ->
  fuzzyScore query target = referenceScore true lowerCased query target.
Proof.
  intros Hs. rewrite fuzzyScore_exact, Hs, Z.add_0_r.
  unfold referenceScore, matchesAtStart in *.
  pose proof (matchPositions_tail_positive (list_ascii_of_string target)
                                           (list_ascii_of_string query) 0) as Htl.
  destruct (matchPositions _ _ 0) as [ps un]. simpl in *.
  destruct un as [| u un]; [| reflexivity].
  destruct ps as [| [| p] ps]; [reflexivity | discriminate |].
  f_equal. symmetry. apply awards_start_irrelevant.
  constructor; [lia | exact Htl].
Qed.

End FuzzyScore.

(** C8, as stated, fails: a match at position [0] is not given the
    word-boundary award by the source.  For the query ["a"] and the target
    ["a"] the rule as worded gives 1 + 2 + 5 = 8 points under either
    reading of "lower", and the source gives 9. *)
Lemma C8_fuzzyScore_counterexample :
  Fuzzy.fuzzyScore "a" "a" = 18
  /\ Fuzzy.referenceScore true Fuzzy.lowerLetter "a" "a" = 16
  /\ Fuzzy.referenceScore true Fuzzy.lowerCased "a" "a" = 16
  /\ Fuzzy.fuzzyScore "a" "a" <> Fuzzy.referenceScore true Fuzzy.lowerCased "a" "a".
Proof. vm_compute. repeat split; congruence. Qed.

(** C8, amended: [fuzzyScore(q, t)] is the score of the rule of the
    specification in which position [0] is not a word boundary (a match
    there earns the prefix award, not the word-boundary award) and "lower"
    means unchanged by lower-casing; the only departure is on a query
    matched in full with its first character at position [0], where the
    score is that of the rule or three points (six half-points) more.
    Whenever the query is not so matched, the score is the one of the
    rule exactly as it is worded. *)
Theorem C8_fuzzyScore_reference (q t : string) :
  (Fuzzy.fuzzyScore q t = Fuzzy.referenceScore false Fuzzy.lowerCased q t
   \/ (matchesAtStart q t = true
       /\ Fuzzy.fuzzyScore q t
          = Fuzzy.referenceScore false Fuzzy.lowerCased q t + 6))
  /\ (matchesAtStart q t = false ->
      Fuzzy.fuzzyScore q t = Fuzzy.referenceScore true Fuzzy.lowerCased q t).
Proof.
  split; [| apply fuzzyScore_away_from_start].
  rewrite fuzzyScore_exact.
  destruct (matchesAtStart q t); [right; split; reflexivity | left; lia].
Qed.

Example fuzzyScore_values :
  Fuzzy.fuzzyScore "run" "run_tests" = 34
  /\ Fuzzy.fuzzyScore "run" "prerun_tests" = 10
  /\ Fuzzy.fuzzyScore "ij" "image_jpeg" = 19
  /\ Fuzzy.fuzzyScore "gN" "getServerNames" = 16
  /\ Fuzzy.fuzzyScore "xyz" "hello" = 0
  /\ Fuzzy.fuzzyScore "abcdef" "abc" = 0.
Proof. vm_compute. repeat split; reflexivity. Qed.

(* ===================================================================== *)
(** * Properties: the agent loop *)
(* ===================================================================== *)

Section ObjectFacts.

Lemma get_set_same (o : JsObject) (key : string) (v : json) :
  Obj.get (Obj.set o key v) key = Some v.
Proof.
  induction o as [| [k w] o IH]; simpl.
  - now rewrite String.eqb_refl.
  - destruct (String.eqb k key) eqn:E; simpl; rewrite E; [reflexivity | exact IH].
Qed.

Lemma get_set_other (o : JsObject) (key key' : string) (v : json) :
  key' <> key -> Obj.get (Obj.set o key v) key' = Obj.get o key'.
Proof.
  intros Hne. induction o as [| [k w] o IH]; simpl.
  - destruct (String.eqb key key') eqn:E; [| reflexivity].
    apply String.eqb_eq in E. congruence.
  - destruct (String.eqb k key) eqn:E; simpl.
    + apply String.eqb_eq in E. subst k.
      destruct (String.eqb key key') eqn:E'; [| reflexivity].
      apply String.eqb_eq in E'. congruence.
    + destruct (String.eqb k key'); [reflexivity | exact IH].
Qed.

Lemma normalizeInputSchema_typedObject (schema : JsObject) :
  typedObject schema (ToolAdapter.normalizeInputSchema schema).
Proof.
  unfold typedObject, ToolAdapter.normalizeInputSchema. split.
  - intros Hf. rewrite Hf. simpl. split.
    + apply get_set_same.
    + intros key Hk. now apply get_set_other.
  - intros Ht. unfold Obj.truthyAt. rewrite Ht. reflexivity.
Qed.

Lemma mcpToolsToClaude_vendorForm (entries : list NamespacedTool.t) :
  Forall2 vendorForm entries (ToolAdapter.mcpToolsToClaude entries).
Proof.
  induction entries as [| e entries IH]; simpl; constructor; [| exact IH].
  unfold vendorForm. simpl.
  split; [reflexivity |]. split; [reflexivity |].
  apply normalizeInputSchema_typedObject.
Qed.

End ObjectFacts.

Section AgentLoopFacts.
Context `{JsRuntime} {C : Type} (client : AgentLoop.ChatClient C).
Import AgentLoop.

(** Running the tool calls of a turn sends nothing to the chat client. *)
Lemma runToolCalls_events (tools : list Tool.t) (uses : list ContentBlock) :
  forall (manager : ServerManager.t) (events : list Event)
         (toolResults : list ContentBlock),
  exists new,
    snd (fst (runToolCalls uses manager events toolResults)) = events ++ new
    /\ Forall (carries tools) new.
Proof.
  induction uses as [| block uses IH]; intros manager events toolResults.
  - exists []. simpl. split; [now rewrite app_nil_r | constructor].
  - destruct block as [text | id name input | id content err | raw];
      simpl; try apply IH.
    destruct (resolveServerName manager name) as [serverName | err]; simpl.
    + destruct (ToolAdapter.executeToolCall manager name input) as [executed m'].
      edestruct IH as (new & Hnew & Hall). rewrite Hnew.
      eexists. rewrite <- !app_assoc. split; [reflexivity |].
      simpl. repeat (constructor; [exact I |]). exact Hall.
    + exists []. split; [now rewrite app_nil_r | constructor].
Qed.

#[local] Arguments runToolCalls : simpl never.

(** Every request of the loop carries the tool list it was started with. *)
Lemma turns_requests (tools : list Tool.t) (maxTurns remaining : nat) :
  forall (turn : nat) (st : State C),
  exists new,
    events (snd (turns client tools maxTurns remaining turn st))
    = events st ++ new
    /\ Forall (carries tools) new.
Proof.
  induction remaining as [| remaining IH]; intros turn st; simpl.
  - eexists. split; [reflexivity |]. repeat constructor.
  - destruct (createStream client (clientState st) (messages st) tools)
      as [[response | err] c]; simpl.
    + destruct (toolUseBlocks (blocks response)) as [| use uses] eqn:Euses; simpl.
      * eexists. rewrite <- !app_assoc. split; [reflexivity |].
        simpl. constructor; [exact I |]. constructor; [reflexivity |].
        apply Forall_app. split; [| repeat constructor].
        apply Forall_forall. intros e He. apply list_elem_of_In in He.
        apply in_map_iff in He. destruct He as (d & <- & _). exact I.
      * pose proof (runToolCalls_events tools (use :: uses) (manager st)
                      (((events st ++ [TurnStart (turn + 1) maxTurns])
                        ++ [Request (messages st) tools])
                       ++ map TextDelta (textDeltas response)) [])
          as (new & Hnew & Hall).
        assert (Hdeltas : Forall (carries tools)
                            (map TextDelta (textDeltas response))).
        { apply Forall_forall. intros e He. apply list_elem_of_In in He.
          apply in_map_iff in He. destruct He as (d & <- & _). exact I. }
        destruct (runToolCalls (use :: uses) (manager st) _ [])
          as [[[[done | err] manager'] events'] toolResults];
          simpl in Hnew; subst events'.
        -- edestruct IH as (new' & Hnew' & Hall'). rewrite Hnew'. simpl.
           eexists. rewrite <- !app_assoc. split; [reflexivity |].
           simpl. constructor; [exact I |]. constructor; [reflexivity |].
           apply Forall_app. split; [exact Hdeltas |].
           apply Forall_app. split; [exact Hall |].
           constructor; [exact I | exact Hall'].
        -- simpl. eexists. rewrite <- !app_assoc. split; [reflexivity |].
           simpl. constructor; [exact I |]. constructor; [reflexivity |].
           apply Forall_app. split; [exact Hdeltas | exact Hall].
    + eexists. rewrite <- !app_assoc. split; [reflexivity |].
      simpl. repeat constructor.
Qed.

End AgentLoopFacts.

(** The scenario of the specification: one tool call, then a text answer,
    leave four messages. *)
Example agent_loop_scenario :
  let st0 := {| AgentLoop.clientState := 0%nat;
                AgentLoop.manager :=
                  Scenario.fleet
                    (Scenario.chessRemote (Scenario.ok "created")
                                          (fun _ => Scenario.ok "moved"))
                    (Scenario.vitestRemote (Scenario.ok "3 tests passed"));
                AgentLoop.messages := [];
                AgentLoop.events := [] |} in
  AgentLoop.messages
    (snd (AgentLoop.runAgentLoop (H := scenarioRuntime) Scenario.testingClient
            (AgentLoop.Plain "run the tests") None st0))
  = [ {| AgentLoop.role := AgentLoop.user;
         AgentLoop.content := AgentLoop.Plain "run the tests" |};
      {| AgentLoop.role := AgentLoop.assistant;
         AgentLoop.content :=
           AgentLoop.Blocks [ AgentLoop.ToolUse "t1" "vitest__run_tests"
                                [("filter"%string, JStr "*.ts")] ] |};
      {| AgentLoop.role := AgentLoop.user;
         AgentLoop.content :=
           AgentLoop.Blocks [ AgentLoop.ToolResult "t1" "3 tests passed" false ] |};
      {| AgentLoop.role := AgentLoop.assistant;
         AgentLoop.content :=
           AgentLoop.Blocks [ AgentLoop.Text "All tests passed!" ] |} ].
Proof. vm_compute. reflexivity. Qed.

(** C4, as stated, fails: the tool list is computed once, before the first
    iteration.  A chat client that first asks for the toolset [testing] to
    be loaded gets, at the second iteration, the list made before the
    toolset was loaded, while the catalog of the fleet now has the tools
    of [vitest].  And a schema whose top-level type is not ["object"] is
    passed with the type it has. *)
Lemma C4_tool_list_counterexample :
  let st0 := {| AgentLoop.clientState := 0%nat;
                AgentLoop.manager := Scenario.lazyFleet;
                AgentLoop.messages := [];
                AgentLoop.events := [] |} in
  let st1 := snd (AgentLoop.runAgentLoop (H := scenarioRuntime)
                    Scenario.loadingClient
                    (AgentLoop.Plain "load the testing tools") None st0) in
  exists catalogBefore catalogAfter,
  let before := ToolAdapter.mcpToolsToClaude catalogBefore in
  let current := ToolAdapter.mcpToolsToClaude catalogAfter in
  ServerManager.getAllTools Scenario.lazyFleet = Return catalogBefore
  /\ ServerManager.getAllTools (AgentLoop.manager st1) = Return catalogAfter
  /\ Scenario.requestsOf (AgentLoop.events st1) = [before; before]
  /\ AgentLoop.manager st1
     = snd (ToolAdapter.executeToolCall (H := scenarioRuntime)
              Scenario.lazyFleet "spike__load_toolset"
              [("name"%string, JStr "testing")])
  /\ map Tool.name before
     = [ "chess__chess_create_game"; "chess__chess_make_move";
         "spike__list_toolsets"; "spike__load_toolset";
         "spike__unload_toolset" ]%string
  /\ map Tool.name current
     = [ "chess__chess_create_game"; "chess__chess_make_move";
         "vitest__set_project_root"; "vitest__run_tests";
         "spike__list_toolsets"; "spike__load_toolset";
         "spike__unload_toolset" ]%string
  /\ nth 1 (Scenario.requestsOf (AgentLoop.events st1)) [] <> current
  /\ map Tool.input_schema
         (ToolAdapter.mcpToolsToClaude
            [ {| NamespacedTool.namespacedName := "s__t";
                 NamespacedTool.originalName := "t";
                 NamespacedTool.serverName := "s";
                 NamespacedTool.description := None;
                 NamespacedTool.inputSchema := [("type"%string, JStr "string")] |} ])
     = [ [("type"%string, JStr "string")] ].
Proof.
  cbv zeta. eexists. eexists.
  split; [vm_compute; reflexivity |].
  split; [vm_compute; reflexivity |].
  split; [vm_compute; reflexivity |].
  split; [vm_compute; reflexivity |].
  split; [vm_compute; reflexivity |].
  split; [vm_compute; reflexivity |].
  split; [| vm_compute; reflexivity].
  intros Heq. apply (f_equal (@List.length Tool.t)) in Heq.
  vm_compute in Heq. discriminate.
Qed.

(** C4, amended: on every iteration of the agent loop the tool list passed
    to [createStream] is the one made once, on entry, from the catalog the
    fleet had then; it is that catalog in vendor form, where a schema
    without a top-level type gets the type ["object"] and a schema of type
    ["object"] is passed as it is.  When the fleet cannot read its catalog
    on entry, the loop throws that error before anything is sent or
    recorded. *)
Theorem C4_tool_list_made_on_entry `{JsRuntime} {C : Type}
    (client : AgentLoop.ChatClient C) (userMessage : AgentLoop.Content)
    (maxTurns : option nat) (st : AgentLoop.State C) :
  let st' := snd (AgentLoop.runAgentLoop client userMessage maxTurns st) in
  match ServerManager.getAllTools (AgentLoop.manager st) with
  | Return catalog =>
      let tools := ToolAdapter.mcpToolsToClaude catalog in
      (exists new,
         AgentLoop.events st' = AgentLoop.events st ++ new
         /\ Forall (carries tools) new)
      /\ Forall2 vendorForm catalog tools
  | Throw err =>
      AgentLoop.runAgentLoop client userMessage maxTurns st = (Throw err, st)
  end.
Proof.
  cbv zeta. unfold AgentLoop.runAgentLoop.
  destruct (ServerManager.getAllTools (AgentLoop.manager st))
    as [catalog | err]; [| reflexivity].
  split; [| apply mcpToolsToClaude_vendorForm].
  edestruct (turns_requests client) as (new & Hnew & Hall).
  rewrite Hnew. simpl. exists new. split; [reflexivity | exact Hall].
Qed.

(* ===================================================================== *)
(** * Properties: the slash-command session engine *)
(* ===================================================================== *)

Section SessionFacts.
Context `{JsRuntime}.

(** The hook of the agent loop records nothing for a failed call. *)
Lemma trackToolCallForSession_error (toolName result : string)
    (allTools : list NamespacedTool.t) (s : SessionState.t) :
  Slash.trackToolCallForSession toolName result true allTools s = s.
Proof. reflexivity. Qed.

Lemma recordCreate_idsByKey (s : SessionState.t) (prefix : string)
    (ids : list string) :
  SessionState.idsByKey (SessionState.recordCreate s prefix ids)
  = SessionState.idsByKey s.
Proof. reflexivity. Qed.

(** The direct invocation does keep the identifiers of a failed call out
    of [idsByKey]. *)
Lemma bookkeeping_error_idsByKey (s : SessionState.t) (tool : NamespacedTool.t)
    (result : string) :
  SessionState.idsByKey (Slash.bookkeeping s tool result true)
  = SessionState.idsByKey s.
Proof.
  unfold Slash.bookkeeping. simpl negb. cbv iota.
  destruct (Slash.isConfigPrerequisite (Slash.strippedOf tool));
    destruct (Js.includes _ "create" || Js.includes _ "bootstrap");
    try destruct (Slash.extractIdsFromResult result); reflexivity.
Qed.

End SessionFacts.

(** C5, the source at the failing input: the upstream answers
    [/chess_create_game] and [/set_project_root] with [isError: true].
    The direct invocation still records a creation under the prefix
    [chess] and still marks [set_project_root] as called, where the hook
    of the agent loop, given the same failed call, leaves the session as
    it was. *)
Lemma C5_failed_call_is_recorded :
  let m := Scenario.fleet
             (Scenario.chessRemote (Scenario.failed "Error: failed")
                                   (fun _ => Scenario.ok "moved"))
             (Scenario.vitestRemote (Scenario.failed "Error: failed")) in
  let ctx := Scenario.session m SessionState.empty None in
  let create := Slash.handleSlashCommand (H := scenarioRuntime)
                  "/chess_create_game" ctx in
  let config := Slash.handleSlashCommand (H := scenarioRuntime)
                  "/set_project_root" ctx in
  fst create
  = Slash.Called Scenario.createEntry [("time_control"%string, JStr "BLITZ_5")]
                 "Error: failed" true
  /\ SessionState.hasCreated SessionState.empty "chess" = false
  /\ SessionState.hasCreated (Slash.sessionState (snd create)) "chess" = true
  /\ SessionState.getCreatedIds (Slash.sessionState (snd create)) "chess"
     = ["_created"%string]
  /\ SessionState.hasConfigBeenCalled SessionState.empty "set_project_root" = false
  /\ SessionState.hasConfigBeenCalled (Slash.sessionState (snd config))
                                      "set_project_root" = true
  /\ (exists allTools,
        ServerManager.getAllTools m = Return allTools
        /\ In Scenario.createEntry allTools
        /\ Slash.trackToolCallForSession (H := scenarioRuntime)
             "chess__chess_create_game" "Error: failed" true
             allTools SessionState.empty
           = SessionState.empty).
Proof.
  cbv zeta. repeat split; try (vm_compute; reflexivity).
  eexists. split; [vm_compute; reflexivity |].
  split; [left; reflexivity | reflexivity].
Qed.

(** C6, as stated, fails: the result [{"id":"game_abc"}] is recorded under
    the key [id] only, the required parameter [game_id] is looked up under
    its own name, nothing is filled in, and without an input channel the
    second invocation stops at the missing parameter and calls nothing. *)
Lemma C6_autofill_counterexample :
  let m := Scenario.fleet
             (Scenario.chessRemote
                (Scenario.ok (Scenario.single "id" "game_abc"))
                (fun _ => Scenario.ok "moved"))
             (Scenario.vitestRemote (Scenario.ok "3 tests passed")) in
  let first := Slash.handleSlashCommand (H := scenarioRuntime)
                 "/chess_create_game"
                 (Scenario.session m SessionState.empty None) in
  let second := Slash.handleSlashCommand (H := scenarioRuntime)
                  ("/chess_make_move " +:+ Scenario.moveArgs) (snd first) in
  fst first
  = Slash.Called Scenario.createEntry [("time_control"%string, JStr "BLITZ_5")]
                 (Scenario.single "id" "game_abc") false
  /\ SessionState.getLatestId (Slash.sessionState (snd first)) "id"
     = Some "game_abc"%string
  /\ SessionState.getLatestId (Slash.sessionState (snd first)) "game_id" = None
  /\ fst second = Slash.MissingRequired [Scenario.gameIdParam]
  /\ fst second
     <> Slash.Called Scenario.moveEntry Scenario.filledMove "moved" false.
Proof.
  cbv zeta. repeat split; try (vm_compute; reflexivity).
  vm_compute. discriminate.
Qed.

(** C6, amended: starting from an empty session, after a successful direct
    invocation of [/chess_create_game] whose result text is
    [{"game_id":"game_abc"}], the invocation
    [/chess_make_move {"from":"e2","to":"e4"}] calls the fleet with the
    arguments [{from: "e2", to: "e4", game_id: "game_abc"}]: a missing
    required identifier is filled from the latest identifier observed
    under exactly its own name.  [reply] is the text the upstream answers
    as a function of the arguments it receives, so the result shows which
    arguments were sent; [rl] is the input channel, present or not. *)
Theorem C6_autofill_exact_name (rl : option Slash.Readline)
    (reply : JsObject -> string) :
  let m := Scenario.fleet
             (Scenario.chessRemote
                (Scenario.ok (Scenario.single "game_id" "game_abc"))
                (fun args => Scenario.ok (reply args)))
             (Scenario.vitestRemote (Scenario.ok "3 tests passed")) in
  let first := Slash.handleSlashCommand (H := scenarioRuntime)
                 "/chess_create_game"
                 (Scenario.session m SessionState.empty rl) in
  let second := Slash.handleSlashCommand (H := scenarioRuntime)
                  ("/chess_make_move " +:+ Scenario.moveArgs) (snd first) in
  SessionState.getLatestId (Slash.sessionState (snd first)) "game_id"
  = Some "game_abc"%string
  /\ fst second
     = Slash.Called Scenario.moveEntry Scenario.filledMove
                    (reply Scenario.filledMove) false.
Proof. cbv zeta. split; vm_compute; reflexivity. Qed.

(* ===================================================================== *)
(** * Further properties: the name namespacer *)
(* ===================================================================== *)

Section NamespaceMore.
Import Namespace.

Lemma parse_None_iff (wire separator : string) (known : list string) :
  parseNamespacedTool wire known separator = None <->
  forall k, In k known -> matchesServer wire separator k = false.
Proof.
  unfold parseNamespacedTool. rewrite parseLoop_None.
  split; intros Hk k Hin; apply Hk.
  - apply sort_In. exact Hin.
  - apply sort_In in Hin. exact Hin.
Qed.

Lemma parse_unique (wire separator : string) (known known' : list string)
    (p p' : ParsedTool) :
  (forall k, In k known <-> In k known') ->
  parseNamespacedTool wire known separator = Some p ->
  parseNamespacedTool wire known' separator = Some p' ->
  p = p'.
Proof.
  intros Hsame Hp Hp'.
  destruct (parse_longest _ _ _ _ Hp) as (Hin & Hm & Hw & Hmax).
  destruct (parse_longest _ _ _ _ Hp') as (Hin' & Hm' & Hw' & Hmax').
  assert (Hs : serverName p = serverName p').
  { apply (match_same_length wire separator); [exact Hm | exact Hm' |].
    apply Nat.le_antisymm.
    - apply Hmax'; [apply Hsame; exact Hin | exact Hm].
    - apply Hmax; [apply Hsame; exact Hin' | exact Hm']. }
  unfold parseNamespacedTool in Hp, Hp'.
  apply parseLoop_Some in Hp. apply parseLoop_Some in Hp'.
  destruct Hp as (? & ? & _ & _ & _ & Ht).
  destruct Hp' as (? & ? & _ & _ & _ & Ht').
  destruct p as [s t], p' as [s' t']. simpl in *. subst s'.
  rewrite Ht, Ht'. reflexivity.
Qed.

End NamespaceMore.

(** X1.  [parseNamespacedTool] finds nothing exactly when no known server
    followed by the separator is a prefix of the wire name; and what it
    finds is a known server [n] and a tool [t] with [wire = n + separator
    + t], [n] being at least as long as every known server that matches. *)
Theorem X1_parse_sound_and_complete (wire separator : string)
    (known : list string) :
  (Namespace.parseNamespacedTool wire known separator = None
   <-> forall k, In k known -> matchesServer wire separator k = false)
  /\ (forall p,
        Namespace.parseNamespacedTool wire known separator = Some p ->
        In (Namespace.serverName p) known
        /\ wire = Namespace.namespaceTool (Namespace.serverName p)
                                          (Namespace.toolName p) separator
        /\ forall k, In k known -> matchesServer wire separator k = true ->
                     (String.length k <= String.length (Namespace.serverName p))%nat).
Proof.
  split.
  - apply parse_None_iff.
  - intros p Hp. destruct (parse_longest _ _ _ _ Hp) as (Hin & _ & Hw & Hmax).
    auto.
Qed.

(** X2.  The result of [parseNamespacedTool] does not depend on the order
    in which the known servers are given. *)
Theorem X2_parse_order_independent (wire separator : string)
    (known known' : list string) :
  Permutation known known' ->
  Namespace.parseNamespacedTool wire known separator
  = Namespace.parseNamespacedTool wire known' separator.
Proof.
  intros Hperm.
  assert (Hsame : forall k, In k known <-> In k known').
  { intros k. split; intros Hin.
    - eapply Permutation_in; [exact Hperm | exact Hin].
    - eapply Permutation_in; [apply Permutation_sym; exact Hperm | exact Hin]. }
  destruct (Namespace.parseNamespacedTool wire known separator) as [p|] eqn:Hp;
    destruct (Namespace.parseNamespacedTool wire known' separator) as [p'|] eqn:Hp'.
  - f_equal. eapply parse_unique; eauto.
  - exfalso. destruct (parse_longest _ _ _ _ Hp) as (Hin & Hm & _).
    apply parse_None_iff with (k := Namespace.serverName p) in Hp'.
    + congruence.
    + apply Hsame. exact Hin.
  - exfalso. destruct (parse_longest _ _ _ _ Hp') as (Hin & Hm & _).
    apply parse_None_iff with (k := Namespace.serverName p') in Hp.
    + congruence.
    + apply Hsame. exact Hin.
  - reflexivity.
Qed.

Lemma X2_parse_order_independent_witness :
  Permutation ["a"; "a__b"; "c"]%string ["c"; "a__b"; "a"]%string
  /\ Namespace.parseNamespacedTool "a__b__c" ["a"; "a__b"; "c"]%string "__"
     = Namespace.parseNamespacedTool "a__b__c" ["c"; "a__b"; "a"]%string "__".
Proof.
  assert (Hperm : Permutation ["a"; "a__b"; "c"]%string ["c"; "a__b"; "a"]%string).
  { apply perm_trans with (l' := ["a"; "c"; "a__b"]%string).
    - apply perm_skip. apply perm_swap.
    - apply perm_trans with (l' := ["c"; "a"; "a__b"]%string).
      + apply perm_swap.
      + apply perm_skip. apply perm_swap. }
  split; [exact Hperm |].
  apply (X2_parse_order_independent "a__b__c" "__" _ _ Hperm).
Defined.

(** X3.  [stripNamespace] undoes [namespaceTool] for its own server,
    whatever the names are; it returns the tool name that
    [parseNamespacedTool] finds for the server it finds; and it leaves a
    name without the server's prefix as it is. *)
Theorem X3_stripNamespace_inverse (u t separator wire : string)
    (known : list string) :
  Namespace.stripNamespace (Namespace.namespaceTool u t separator) u separator = t
  /\ (forall p,
        Namespace.parseNamespacedTool wire known separator = Some p ->
        Namespace.stripNamespace wire (Namespace.serverName p) separator
        = Namespace.toolName p)
  /\ (matchesServer wire separator u = false ->
      Namespace.stripNamespace wire u separator = wire).
Proof.
  repeat split.
  - unfold Namespace.stripNamespace, Namespace.namespaceTool.
    rewrite <- append_assoc.
    rewrite startsWith_app, slice_app. reflexivity.
  - intros p Hp. destruct (parse_longest _ _ _ _ Hp) as (_ & Hm & _ & _).
    unfold Namespace.parseNamespacedTool in Hp.
    apply parseLoop_Some in Hp. destruct Hp as (? & ? & _ & _ & _ & Ht).
    unfold Namespace.stripNamespace. unfold matchesServer in Hm.
    rewrite Hm. symmetry. exact Ht.
  - intros Hm. unfold Namespace.stripNamespace. unfold matchesServer in Hm.
    rewrite Hm. reflexivity.
Qed.

(* ===================================================================== *)
(** * Further properties: tool filters *)
(* ===================================================================== *)

Section ThrowingFacts.
Context {A : Type}.

Lemma filterThrowing_returned (p : A -> Outcome bool) (l kept : list A) :
  filterThrowing p l = Return kept ->
  (forall x, In x l -> exists b, p x = Return b)
  /\ (forall x, In x kept <-> In x l /\ p x = Return true).
Proof.
  revert kept. induction l as [| y l IH]; intros kept; simpl.
  - intros [= <-]. split; [intros x [] |].
    intros x. simpl. tauto.
  - destruct (p y) as [keep | err] eqn:Hy; [| discriminate].
    destruct (filterThrowing p l) as [kept' | err]; [| discriminate].
    destruct (IH kept' eq_refl) as [Hall Hin].
    intros [= <-]. split.
    + intros x [<- | Hx]; eauto.
    + intros x. destruct keep; simpl; rewrite Hin; split.
      * intros [<- | [Hx Hp]]; auto.
      * intros [[<- | Hx] Hp]; auto.
      * intros [Hx Hp]; auto.
      * intros [[<- | Hx] Hp]; [congruence | auto].
Qed.

Lemma filterThrowing_thrown (p : A -> Outcome bool) (l : list A) (err : string) :
  filterThrowing p l = Throw err -> exists x, In x l /\ p x = Throw err.
Proof.
  induction l as [| y l IH]; simpl; [discriminate |].
  destruct (p y) as [keep | err'] eqn:Hy.
  - destruct (filterThrowing p l) as [kept' | err'']; [discriminate |].
    intros [= <-]. destruct (IH eq_refl) as (x & Hx & Hp). eauto.
  - intros [= <-]. eauto.
Qed.

Lemma filterThrowing_returns (p : A -> Outcome bool) (l : list A) :
  (forall x, In x l -> exists b, p x = Return b) ->
  exists kept, filterThrowing p l = Return kept.
Proof.
  induction l as [| y l IH]; intros Hall; simpl; [eauto |].
  destruct (Hall y (or_introl eq_refl)) as [b ->].
  destruct IH as [kept ->]; [intros x Hx; apply Hall; now right |].
  eauto.
Qed.

Lemma someThrowing_returns (p : A -> Outcome bool) (l : list A) :
  (forall x, In x l -> exists b, p x = Return b) ->
  exists b, someThrowing p l = Return b.
Proof.
  induction l as [| y l IH]; intros Hall; simpl; [eauto |].
  destruct (Hall y (or_introl eq_refl)) as [[|] ->]; [eauto |].
  apply IH. intros x Hx. apply Hall. now right.
Qed.

Lemma someThrowing_thrown (p : A -> Outcome bool) (l : list A) (err : string) :
  someThrowing p l = Throw err -> exists x, In x l /\ p x = Throw err.
Proof.
  induction l as [| y l IH]; simpl; [discriminate |].
  destruct (p y) as [[|] | err'] eqn:Hy.
  - discriminate.
  - intros Hs. destruct (IH Hs) as (x & Hx & Hp). eauto.
  - intros [= <-]. eauto.
Qed.

End ThrowingFacts.

Section GlobMore.
Import Glob.

Lemma wildcardFree_cons (c : ascii) (pattern : string) :
  wildcardFree (String c pattern) = true ->
  Ascii.eqb c "*" = false /\ Ascii.eqb c "?" = false
  /\ wildcardFree pattern = true.
Proof.
  unfold wildcardFree. simpl. intros Hfree.
  apply andb_prop in Hfree. destruct Hfree as [Hc Hfree].
  apply andb_prop in Hc. destruct Hc as [Hstar Hq].
  apply negb_true_iff in Hstar. apply negb_true_iff in Hq. auto.
Qed.

(** A pattern without wildcard compiles to its characters. *)
Lemma compile_chars (literal : string) :
  wildcardFree literal = true ->
  forall pending,
    compile pending literal
    = Some (flush pending ++ map Char (list_ascii_of_string literal)).
Proof.
  induction literal as [| c literal IH]; intros Hfree pending; simpl.
  - now rewrite app_nil_r.
  - destruct (wildcardFree_cons _ _ Hfree) as (Hstar & Hq & Hrest).
    rewrite Hq, Hstar, (IH Hrest). reflexivity.
Qed.

Lemma compile_chars_star (literal : string) :
  wildcardFree literal = true ->
  forall pending,
    compile pending (literal +:+ "*")
    = Some (flush pending ++ map Char (list_ascii_of_string literal)
            ++ [AnyChars]).
Proof.
  induction literal as [| c literal IH]; intros Hfree pending.
  - rewrite append_nil. reflexivity.
  - destruct (wildcardFree_cons _ _ Hfree) as (Hstar & Hq & Hrest).
    rewrite append_cons. simpl. rewrite Hq, Hstar, (IH Hrest). reflexivity.
Qed.

Lemma test_AnyChars (name : string) : test [AnyChars] name = singleLine name.
Proof.
  induction name as [| c name IH].
  - reflexivity.
  - change (test [AnyChars] (String c name))
      with (false || (negb (lineTerminator c) && test [AnyChars] name)).
    rewrite IH. reflexivity.
Qed.

Lemma test_chars (literal : string) (terms : list Term) :
  forall name,
    test (map Char (list_ascii_of_string literal) ++ terms) name = true
    <-> exists rest, name = literal +:+ rest /\ test terms rest = true.
Proof.
  induction literal as [| p literal IH]; intros name.
  - simpl app. split.
    + intros Ht. exists name. rewrite append_nil. auto.
    + intros (rest & Hn & Ht). rewrite append_nil in Hn. congruence.
  - change (test (map Char (list_ascii_of_string (String p literal)) ++ terms)
                 name)
      with (match name with
            | EmptyString => false
            | String c name' =>
                Ascii.eqb c p
                && test (map Char (list_ascii_of_string literal) ++ terms) name'
            end).
    destruct name as [| c name].
    + split; [discriminate |].
      intros (rest & Hn & _). rewrite append_cons in Hn. discriminate.
    + split.
      * intros Ht. apply andb_prop in Ht. destruct Ht as [Hc Hrest].
        apply Ascii.eqb_eq in Hc. apply IH in Hrest.
        destruct Hrest as (rest & -> & Ht). exists rest.
        rewrite append_cons. subst c. auto.
      * intros (rest & Hn & Ht). rewrite append_cons in Hn.
        injection Hn as -> ->. rewrite Ascii.eqb_refl. simpl.
        apply IH. exists rest. auto.
Qed.

Lemma append_empty (a : string) : a +:+ "" = a.
Proof.
  induction a as [| c a IH]; [apply append_nil |].
  rewrite append_cons, IH. reflexivity.
Qed.

Lemma matchesGlob_literal (literal name : string) :
  wildcardFree literal = true ->
  exists b, matchesGlob name literal = Return b /\ (b = true <-> name = literal).
Proof.
  intros Hfree. unfold matchesGlob. rewrite (compile_chars literal Hfree).
  eexists. split; [reflexivity |]. simpl flush. simpl app.
  rewrite <- (app_nil_r (map Char _)), test_chars. split.
  - intros (rest & -> & Ht). destruct rest; [| discriminate].
    apply append_empty.
  - intros ->. exists EmptyString. split; [| reflexivity].
    symmetry. apply append_empty.
Qed.

Lemma matchesGlob_prefix (literal name : string) :
  wildcardFree literal = true ->
  exists b,
    matchesGlob name (literal +:+ "*") = Return b
    /\ (b = true
        <-> exists rest, name = literal +:+ rest /\ singleLine rest = true).
Proof.
  intros Hfree. unfold matchesGlob. rewrite (compile_chars_star literal Hfree).
  eexists. split; [reflexivity |]. simpl flush. simpl app.
  rewrite test_chars. split.
  - intros (rest & -> & Ht). rewrite test_AnyChars in Ht. eauto.
  - intros (rest & -> & Hs). exists rest. rewrite test_AnyChars. auto.
Qed.

(** A pattern in which no [?] occurs is a regular expression, whatever
    else it has. *)
Lemma compile_questionFree (pattern : string) :
  questionFree pattern = true ->
  forall pending, exists regex, compile pending pattern = Some regex.
Proof.
  induction pattern as [| c pattern IH]; intros Hfree pending; simpl.
  - eauto.
  - unfold questionFree in Hfree. simpl in Hfree.
    apply andb_prop in Hfree. destruct Hfree as [Hq Hfree].
    apply negb_true_iff in Hq. rewrite Hq.
    destruct (IH Hfree (if Ascii.eqb c "*" then Star else Plain c))
      as [regex ->].
    simpl. eauto.
Qed.

Lemma matchesGlob_returns (name pattern : string) :
  questionFree pattern = true -> exists b, matchesGlob name pattern = Return b.
Proof.
  intros Hfree. unfold matchesGlob.
  destruct (compile_questionFree pattern Hfree Nothing) as [regex ->]. eauto.
Qed.

Lemma matchesAnyGlob_returns (name : string) (patterns : list string) :
  forallb questionFree patterns = true ->
  exists b, matchesAnyGlob name patterns = Return b.
Proof.
  intros Hfree. apply someThrowing_returns. intros pattern Hin.
  apply matchesGlob_returns.
  rewrite forallb_forall in Hfree. apply Hfree. exact Hin.
Qed.

(** The error of a filter is the error of one of its patterns, which has
    a [?] with nothing to repeat. *)
Lemma matchesAnyGlob_thrown (name : string) (patterns : list string)
    (err : string) :
  matchesAnyGlob name patterns = Throw err ->
  exists pattern,
    In pattern patterns /\ compile Nothing pattern = None
    /\ err = nothingToRepeat pattern.
Proof.
  intros Hs. apply someThrowing_thrown in Hs.
  destruct Hs as (pattern & Hin & Hp). exists pattern.
  unfold matchesGlob in Hp.
  destruct (compile Nothing pattern); [discriminate |].
  injection Hp as <-. auto.
Qed.

Lemma nonEmpty_Some (patterns : option (list string)) (pats : list string) :
  nonEmpty patterns = Some pats <-> patterns = Some pats /\ pats <> [].
Proof.
  destruct patterns as [[| p ps] |]; simpl; split;
    try discriminate; try (intros [Heq Hne]; congruence).
  intros [= <-]. split; [reflexivity | discriminate].
Qed.

Lemma nonEmpty_None (patterns : option (list string)) :
  nonEmpty patterns = None <-> patterns = None \/ patterns = Some [].
Proof.
  destruct patterns as [[| p ps] |]; simpl; split; auto;
    try discriminate; intros [H | H]; discriminate.
Qed.

Lemma negate_true (b : Outcome bool) :
  negate b = Return true <-> b = Return false.
Proof.
  destruct b as [[|] | err]; simpl; split; congruence.
Qed.

Lemma negate_thrown (b : Outcome bool) (err : string) :
  negate b = Throw err <-> b = Throw err.
Proof.
  destruct b as [[|] | err']; simpl; split; congruence.
Qed.

Lemma filterTools_spec {T : Type} (nameOf : T -> string) (tools : list T)
    (config : ToolFilterConfig) :
  match filterTools nameOf tools (Some config) with
  | Return result =>
      forall tool,
        In tool result <->
        In tool tools
        /\ (forall pats, allowed config = Some pats -> pats <> [] ->
                         matchesAnyGlob (nameOf tool) pats = Return true)
        /\ (forall pats, blocked config = Some pats ->
                         matchesAnyGlob (nameOf tool) pats = Return false)
  | Throw err =>
      exists tool pats,
        In tool tools
        /\ (allowed config = Some pats \/ blocked config = Some pats)
        /\ matchesAnyGlob (nameOf tool) pats = Throw err
  end.
Proof.
  unfold filterTools.
  destruct (nonEmpty (allowed config)) as [pa |] eqn:Ha.
  - apply nonEmpty_Some in Ha. destruct Ha as [Ha Hane].
    destruct (filterThrowing _ tools) as [result1 | err] eqn:H1.
    + apply filterThrowing_returned in H1. destruct H1 as [_ H1].
      destruct (nonEmpty (blocked config)) as [pb |] eqn:Hb.
      * apply nonEmpty_Some in Hb. destruct Hb as [Hb Hbne].
        destruct (filterThrowing _ result1) as [result2 | err] eqn:H2.
        -- apply filterThrowing_returned in H2. destruct H2 as [_ H2].
           intros tool. rewrite H2, H1, negate_true. split.
           ++ intros [[Hin Hal] Hbl]. repeat split; try assumption.
              ** intros pats Hp _. congruence.
              ** intros pats Hp. congruence.
           ++ intros (Hin & Hal & Hbl). auto.
        -- apply filterThrowing_thrown in H2.
           destruct H2 as (tool & Hin & Hp). apply (proj1 (negate_thrown _ _)) in Hp.
           apply H1 in Hin. destruct Hin as [Hin _]. eauto 6.
      * apply nonEmpty_None in Hb.
        intros tool. rewrite H1. split.
        -- intros [Hin Hal]. repeat split; try assumption.
           ++ intros pats Hp _. congruence.
           ++ intros pats Hp. destruct Hb as [Hb | Hb]; rewrite Hb in Hp;
                [discriminate | injection Hp as <-; reflexivity].
        -- intros (Hin & Hal & Hbl). auto.
    + apply filterThrowing_thrown in H1. destruct H1 as (tool & Hin & Hp).
      assert (Hthrown :
                exists tool pats,
                  In tool tools
                  /\ (allowed config = Some pats \/ blocked config = Some pats)
                  /\ matchesAnyGlob (nameOf tool) pats = Throw err)
        by eauto 6.
      destruct (nonEmpty (blocked config)); exact Hthrown.
  - apply nonEmpty_None in Ha.
    assert (Hal : forall (tool : T) pats,
              allowed config = Some pats -> pats <> [] ->
              matchesAnyGlob (nameOf tool) pats = Return true).
    { intros tool pats Hp Hne. destruct Ha as [Ha | Ha]; rewrite Ha in Hp;
        [discriminate | injection Hp as <-; congruence]. }
    destruct (nonEmpty (blocked config)) as [pb |] eqn:Hb.
    + apply nonEmpty_Some in Hb. destruct Hb as [Hb Hbne].
      destruct (filterThrowing _ tools) as [result2 | err] eqn:H2.
      * apply filterThrowing_returned in H2. destruct H2 as [_ H2].
        intros tool. rewrite H2, negate_true. split.
        -- intros [Hin Hbl]. repeat split; auto.
           intros pats Hp. congruence.
        -- intros (Hin & _ & Hbl). auto.
      * apply filterThrowing_thrown in H2.
        destruct H2 as (tool & Hin & Hp). apply (proj1 (negate_thrown _ _)) in Hp. eauto 6.
    + apply nonEmpty_None in Hb. intros tool. split.
      * intros Hin. repeat split; auto.
        intros pats Hp. destruct Hb as [Hb | Hb]; rewrite Hb in Hp;
          [discriminate | injection Hp as <-; reflexivity].
      * intros (Hin & _). exact Hin.
Qed.

Lemma filterTools_returns {T : Type} (nameOf : T -> string) (tools : list T)
    (config : option ToolFilterConfig) :
  questionFreeFilter config = true ->
  exists result, filterTools nameOf tools config = Return result.
Proof.
  destruct config as [config |]; [| simpl; eauto].
  intros Hfree. pose proof (filterTools_spec nameOf tools config) as Hspec.
  destruct (filterTools nameOf tools (Some config)) as [result | err];
    [eauto |].
  exfalso. destruct Hspec as (tool & pats & _ & Hpats & Hthrown).
  unfold questionFreeFilter in Hfree. simpl in Hfree.
  apply andb_prop in Hfree. destruct Hfree as [Hfa Hfb].
  assert (Hp : forallb questionFree pats = true)
    by (destruct Hpats as [Hp | Hp]; rewrite Hp in *; assumption).
  destruct (matchesAnyGlob_returns (nameOf tool) pats Hp) as [b Hb].
  congruence.
Qed.

End GlobMore.

(** X4.  [filterTools] with a filter either returns or throws.  When it
    returns, a tool is in the result exactly when it is among the tools,
    it matches some allowed pattern if the list of allowed patterns is
    given and not empty, and it matches no blocked pattern: a blocked
    pattern wins over an allowed one, and an empty [allowed] list
    restricts nothing.  When it throws, the error is the one that
    matching some tool against the allowed or the blocked patterns
    throws, a pattern in which a [?] has nothing to repeat.  It returns
    whenever no pattern of the filter has a [?]. *)
Theorem X4_filterTools_membership {T : Type} (nameOf : T -> string)
    (tools : list T) (config : Glob.ToolFilterConfig) :
  match Glob.filterTools nameOf tools (Some config) with
  | Return result =>
      forall tool,
        In tool result <->
        In tool tools
        /\ (forall pats, Glob.allowed config = Some pats -> pats <> [] ->
                         Glob.matchesAnyGlob (nameOf tool) pats = Return true)
        /\ (forall pats, Glob.blocked config = Some pats ->
                         Glob.matchesAnyGlob (nameOf tool) pats = Return false)
  | Throw err =>
      questionFreeFilter (Some config) = false
      /\ exists tool pats pattern,
           In tool tools
           /\ (Glob.allowed config = Some pats \/ Glob.blocked config = Some pats)
           /\ Glob.matchesAnyGlob (nameOf tool) pats = Throw err
           /\ In pattern pats
           /\ Glob.compile Glob.Nothing pattern = None
           /\ err = Glob.nothingToRepeat pattern
  end.
Proof.
  pose proof (filterTools_spec nameOf tools config) as Hspec.
  pose proof (filterTools_returns nameOf tools (Some config)) as Hret.
  destruct (Glob.filterTools nameOf tools (Some config)) as [result | err];
    [exact Hspec |].
  split.
  - destruct (questionFreeFilter (Some config)); [| reflexivity].
    destruct (Hret eq_refl) as [result Hresult]. discriminate.
  - destruct Hspec as (tool & pats & Hin & Hpats & Hthrown).
    destruct (matchesAnyGlob_thrown _ _ _ Hthrown) as (pattern & Hp & Hc & He).
    exists tool, pats, pattern. auto 7.
Qed.

(** X5.  A pattern without [*] and [?] is matched without error and
    matches exactly the name equal to it (the characters
    [. + ^ $ { } ( ) | [ ] \] stand for themselves), and such a pattern
    followed by [*] is matched without error and matches exactly the names
    that start with it and go on without a line terminator. *)
Theorem X5_matchesGlob_literal_and_prefix (literal name : string) :
  wildcardFree literal = true ->
  (exists b, Glob.matchesGlob name literal = Return b)
  /\ (Glob.matchesGlob name literal = Return true <-> name = literal)
  /\ (exists b, Glob.matchesGlob name (literal +:+ "*") = Return b)
  /\ (Glob.matchesGlob name (literal +:+ "*") = Return true
      <-> exists rest, name = literal +:+ rest /\ singleLine rest = true).
Proof.
  intros Hfree.
  destruct (matchesGlob_literal literal name Hfree) as (b & Hb & Hlit).
  destruct (matchesGlob_prefix literal name Hfree) as (b' & Hb' & Hpre).
  rewrite Hb, Hb'. repeat split; eauto.
  - intros [= ->]. now apply Hlit.
  - intros Hn. f_equal. now apply Hlit.
  - intros [= ->]. now apply Hpre.
  - intros Hn. f_equal. now apply Hpre.
Qed.

Lemma X5_matchesGlob_witness :
  wildcardFree "read_" = true
  /\ (exists b, Glob.matchesGlob "read_file" "read_" = Return b)
  /\ (Glob.matchesGlob "read_file" "read_" = Return true
      <-> "read_file"%string = "read_"%string)
  /\ (exists b, Glob.matchesGlob "read_file" ("read_" +:+ "*") = Return b)
  /\ (Glob.matchesGlob "read_file" ("read_" +:+ "*") = Return true
      <-> exists rest, "read_file"%string = "read_" +:+ rest
                       /\ singleLine rest = true).
Proof.
  split; [reflexivity |].
  apply (X5_matchesGlob_literal_and_prefix "read_" "read_file"). reflexivity.
Defined.

(** What the regular expression makes of [?], which the source does not
    escape: it makes the character before it optional, and with nothing
    before it the pattern is not a regular expression. *)
Example matchesGlob_question_mark :
  Glob.matchesGlob "run_test" "run_tests?" = Return true
  /\ Glob.matchesGlob "run_tests" "run_tests?" = Return true
  /\ Glob.matchesGlob "run_testsx" "run_tests?" = Return false
  /\ Glob.matchesGlob "run_tests" "run_test?" = Return false
  /\ Glob.matchesGlob "a" "?"
     = Throw "Invalid regular expression: /^?$/: Nothing to repeat"
  /\ Glob.matchesGlob "a" "a???"
     = Throw "Invalid regular expression: /^a???$/: Nothing to repeat"
  /\ Glob.matchesGlob "a.b" "a.b" = Return true
  /\ Glob.matchesGlob "axb" "a.b" = Return false.
Proof. vm_compute. repeat split; reflexivity. Qed.

(* ===================================================================== *)
(** * Further properties: association lists *)
(* ===================================================================== *)

Section ObjMore.
Context {V : Type}.

Lemma get_In (o : list (string * V)) (k : string) (v : V) :
  Obj.get o k = Some v -> In (k, v) o.
Proof.
  induction o as [| [k' w] o IH]; simpl; [discriminate |].
  destruct (String.eqb k' k) eqn:E.
  - apply String.eqb_eq in E. intros [= ->]. left. congruence.
  - intros Hg. right. apply IH. exact Hg.
Qed.

Lemma get_None_keys (o : list (string * V)) (k : string) :
  Obj.get o k = None <-> ~ In k (Obj.keys o).
Proof.
  induction o as [| [k' w] o IH]; simpl.
  - tauto.
  - destruct (String.eqb k' k) eqn:E.
    + apply String.eqb_eq in E. split; [discriminate | intros Hn; exfalso; auto].
    + apply String.eqb_neq in E. rewrite IH. tauto.
Qed.

Lemma set_get_same (o : list (string * V)) (key : string) (v : V) :
  Obj.get (Obj.set o key v) key = Some v.
Proof.
  induction o as [| [k w] o IH]; simpl.
  - now rewrite String.eqb_refl.
  - destruct (String.eqb k key) eqn:E; simpl; rewrite E; [reflexivity | exact IH].
Qed.

Lemma set_get_other (o : list (string * V)) (key key' : string) (v : V) :
  key' <> key -> Obj.get (Obj.set o key v) key' = Obj.get o key'.
Proof.
  intros Hne. induction o as [| [k w] o IH]; simpl.
  - destruct (String.eqb key key') eqn:E; [| reflexivity].
    apply String.eqb_eq in E. congruence.
  - destruct (String.eqb k key) eqn:E; simpl.
    + apply String.eqb_eq in E. subst k.
      destruct (String.eqb key key') eqn:E'; [| reflexivity].
      apply String.eqb_eq in E'. congruence.
    + destruct (String.eqb k key'); [reflexivity | exact IH].
Qed.

Lemma keys_remove (o : list (string * V)) (k : string) :
  Obj.keys (Obj.remove o k)
  = List.filter (fun k' => negb (String.eqb k' k)) (Obj.keys o).
Proof.
  induction o as [| [k' w] o IH]; simpl; [reflexivity |].
  destruct (String.eqb k' k); simpl; [exact IH | now rewrite <- IH].
Qed.

Lemma keys_set_fresh (o : list (string * V)) (k : string) (v : V) :
  Obj.get o k = None -> Obj.keys (Obj.set o k v) = Obj.keys o ++ [k].
Proof.
  induction o as [| [k' w] o IH]; simpl; [reflexivity |].
  destruct (String.eqb k' k); [discriminate |].
  intros Hg. simpl. now rewrite <- IH.
Qed.

Lemma filter_keys_absent (o : list (string * V)) (k : string) :
  Obj.get o k = None ->
  List.filter (fun k' => negb (String.eqb k' k)) (Obj.keys o) = Obj.keys o.
Proof.
  induction o as [| [k' w] o IH]; simpl; [reflexivity |].
  destruct (String.eqb k' k); [discriminate |].
  intros Hg. simpl. now rewrite IH.
Qed.

End ObjMore.

(* ===================================================================== *)
(** * Further properties: the toolset controller *)
(* ===================================================================== *)

Section ToolsetMore.
Import ToolsetManager.

Lemma unload_loaded (tm : t) (name n : string) :
  n ∈ loadedToolsets (snd (unloadToolset tm name)) ->
  n ∈ loadedToolsets tm.
Proof.
  unfold unloadToolset.
  destruct (Obj.get (toolsets tm) name); [| destruct (Obj.inherited name)];
    simpl; set_solver.
Qed.

Lemma unload_toolsets (tm : t) (name : string) :
  toolsets (snd (unloadToolset tm name)) = toolsets tm.
Proof. apply (applyOp_toolsets tm (Unload name)). Qed.

(** The sum of the counts: the counts of the servers from left to right,
    added up, or the first error of the callback. *)
Lemma sumCounts_counts (tm : t) (servers : list string) (sum : Z) :
  sumCounts tm servers sum
  = match mapThrowing (serverToolCountFn tm) servers with
    | Return counts => Return (sum + fold_right Z.add 0 counts)
    | Throw err => Throw err
    end.
Proof.
  revert sum. induction servers as [| server servers IH]; intros sum; simpl.
  - now rewrite Z.add_0_r.
  - destruct (serverToolCountFn tm server) as [count | err]; [| reflexivity].
    rewrite IH.
    destruct (mapThrowing (serverToolCountFn tm) servers); [| reflexivity].
    simpl. f_equal. lia.
Qed.

Lemma mapThrowing_returns {A B : Type} (f : A -> Outcome B) (l : list A) :
  (forall x, In x l -> exists y, f x = Return y) ->
  exists ys, mapThrowing f l = Return ys.
Proof.
  induction l as [| x l IH]; intros Hall; simpl; [eauto |].
  destruct (Hall x (or_introl eq_refl)) as [y ->].
  destruct IH as [ys ->]; [intros x' Hx; apply Hall; now right |].
  eauto.
Qed.

Lemma mapThrowing_thrown {A B : Type} (f : A -> Outcome B) (l : list A)
    (err : string) :
  mapThrowing f l = Throw err -> exists x, In x l /\ f x = Throw err.
Proof.
  induction l as [| x l IH]; simpl; [discriminate |].
  destruct (f x) as [y | err'] eqn:Hx.
  - destruct (mapThrowing f l) as [ys | err'']; [discriminate |].
    intros [= <-]. destruct (IH eq_refl) as (x' & Hin & Hf). eauto.
  - intros [= <-]. eauto.
Qed.

Lemma toolCountOf_returns (tm : t) (servers : list string) :
  (forall server, In server servers ->
                  exists count, serverToolCountFn tm server = Return count) ->
  exists toolCount, toolCountOf tm servers = Return toolCount.
Proof.
  intros Hall. unfold toolCountOf. rewrite sumCounts_counts.
  destruct (mapThrowing_returns (serverToolCountFn tm) servers Hall)
    as [counts ->].
  eauto.
Qed.

Lemma toolCountOf_thrown (tm : t) (servers : list string) (err : string) :
  toolCountOf tm servers = Throw err ->
  exists server, In server servers /\ serverToolCountFn tm server = Throw err.
Proof.
  unfold toolCountOf. rewrite sumCounts_counts.
  destruct (mapThrowing (serverToolCountFn tm) servers) as [counts | err'] eqn:Hm;
    [discriminate |].
  intros [= <-]. apply mapThrowing_thrown in Hm. exact Hm.
Qed.

Lemma listToolsets_returns (tm : t) :
  (forall server, exists count, serverToolCountFn tm server = Return count) ->
  exists infos, listToolsets tm = Return infos.
Proof.
  intros Hall. unfold listToolsets. apply mapThrowing_returns.
  intros [name ts] _.
  destruct (toolCountOf_returns tm (servers ts)) as [toolCount ->];
    [intros server _; apply Hall | eauto].
Qed.

Lemma listToolsets_thrown (tm : t) (err : string) :
  listToolsets tm = Throw err ->
  exists name ts server,
    In (name, ts) (toolsets tm) /\ In server (servers ts)
    /\ serverToolCountFn tm server = Throw err.
Proof.
  unfold listToolsets. intros Hm. apply mapThrowing_thrown in Hm.
  destruct Hm as ([name ts] & Hin & Hf).
  destruct (toolCountOf tm (servers ts)) as [toolCount | err'] eqn:Hc;
    [discriminate |].
  injection Hf as <-. apply toolCountOf_thrown in Hc.
  destruct Hc as (server & Hs & Hthrown). eauto 6.
Qed.

End ToolsetMore.

(** X6.  Loading a configured toolset marks it loaded, makes every one of
    its servers visible and hides no server that was visible -- whether
    the call returns or throws.  It returns the servers of the toolset
    and the sum of their tool counts when the count callback returns for
    each of them, and throws the first error of the callback otherwise. *)
Theorem X6_loadToolset_reveals (tm : ToolsetManager.t) (name : string)
    (ts : ToolsetManager.ToolsetConfig) :
  Obj.get (ToolsetManager.toolsets tm) name = Some ts ->
  fst (ToolsetManager.loadToolset tm name)
  = match mapThrowing (ToolsetManager.serverToolCountFn tm)
                      (ToolsetManager.servers ts) with
    | Return counts =>
        Return (ToolsetManager.servers ts, fold_right Z.add 0 counts)
    | Throw err => Throw err
    end
  /\ name ∈ ToolsetManager.loadedToolsets
              (snd (ToolsetManager.loadToolset tm name))
  /\ (forall server,
        In server (ToolsetManager.servers ts) ->
        ToolsetManager.isServerVisible
          (snd (ToolsetManager.loadToolset tm name)) server = true)
  /\ (forall server,
        ToolsetManager.isServerVisible tm server = true ->
        ToolsetManager.isServerVisible
          (snd (ToolsetManager.loadToolset tm name)) server = true).
Proof.
  intros Hget. pose proof (get_In _ _ _ Hget) as Hin.
  rewrite loadToolset_state, Hget.
  split.
  { unfold ToolsetManager.loadToolset, ToolsetManager.toolCountOf.
    rewrite Hget, sumCounts_counts.
    destruct (mapThrowing _ _); reflexivity. }
  split; [simpl; set_solver |]. split.
  - intros server Hs. apply isServerVisible_iff. right.
    exists name, ts. simpl. repeat split; auto. set_solver.
  - intros server Hv. apply isServerVisible_iff in Hv.
    apply isServerVisible_iff. simpl.
    destruct Hv as [Hv | (n & ts' & H1 & H2 & H3)]; [left; exact Hv |].
    right. exists n, ts'. repeat split; auto. set_solver.
Qed.

Lemma X6_loadToolset_witness :
  let tm := ToolsetManager.create
              [ ("testing"%string,
                 {| ToolsetManager.servers := ["vitest"; "playwright"]%string;
                    ToolsetManager.description := None |}) ]
              (fun _ => Return 3) in
  Obj.get (ToolsetManager.toolsets tm) "testing"
  = Some {| ToolsetManager.servers := ["vitest"; "playwright"]%string;
            ToolsetManager.description := None |}
  /\ fst (ToolsetManager.loadToolset tm "testing")
     = Return (["vitest"; "playwright"]%string, 6)
  /\ ToolsetManager.isServerVisible tm "vitest" = false
  /\ ToolsetManager.isServerVisible
       (snd (ToolsetManager.loadToolset tm "testing")) "vitest" = true.
Proof.
  intros tm.
  pose proof (X6_loadToolset_reveals tm "testing" _ eq_refl)
    as (Hr & _ & Hv & _).
  split; [reflexivity |]. split; [exact Hr |]. split; [reflexivity |].
  apply Hv. simpl. auto.
Defined.

(** With the callback of the [serve] command and an upstream whose filter
    is not a regular expression, loading throws and the toolset is loaded
    all the same. *)
Example loadToolset_count_error :
  let tm := ToolsetManager.create
              [ ("testing"%string,
                 {| ToolsetManager.servers := ["vitest"%string];
                    ToolsetManager.description := None |}) ]
              (Scenario.toolCount Scenario.questionFleet) in
  fst (ToolsetManager.loadToolset tm "testing")
  = Throw (Glob.nothingToRepeat "?")
  /\ ToolsetManager.isServerVisible tm "vitest" = false
  /\ ToolsetManager.isServerVisible
       (snd (ToolsetManager.loadToolset tm "testing")) "vitest" = true.
Proof. vm_compute. repeat split; reflexivity. Qed.

(** X7.  After [unloadToolset(name)] a server is visible exactly when it
    is listed in no toolset or in a loaded toolset other than [name]:
    unloading never hides a server that another loaded toolset lists. *)
Theorem X7_unloadToolset_visibility (tm : ToolsetManager.t)
    (name server : string) :
  ToolsetManager.isServerVisible
    (snd (ToolsetManager.unloadToolset tm name)) server = true
  <-> ~ memberOfSome (ToolsetManager.toolsets tm) server
      \/ exists other ts,
           In (other, ts) (ToolsetManager.toolsets tm)
           /\ In server (ToolsetManager.servers ts)
           /\ other ∈ ToolsetManager.loadedToolsets tm
           /\ other <> name.
Proof.
  rewrite isServerVisible_iff, unload_toolsets.
  split; (intros [Hn | (other & ts & Hin & Hs & Hl)]; [left; exact Hn | right]).
  - exists other, ts. repeat split; auto.
    + apply (unload_loaded tm name). exact Hl.
    + intros ->. revert Hl. unfold ToolsetManager.unloadToolset.
      destruct (get_of_entry _ _ _ Hin) as (ts' & Hget). rewrite Hget.
      simpl. set_solver.
  - destruct Hl as [Hl Hne]. exists other, ts. repeat split; auto.
    unfold ToolsetManager.unloadToolset.
    destruct (Obj.get (ToolsetManager.toolsets tm) name);
      [| destruct (Obj.inherited name)]; simpl; set_solver.
Qed.

(** X8.  For a meta-tool call whose [name] argument is not a member
    inherited from [Object.prototype]: [spike__list_toolsets] leaves the
    controller as it was, and returns unless the count callback throws,
    in which case it throws that error; every other call returns a reply,
    and when the reply has [isError] the controller is left as it was,
    except for [spike__load_toolset] of a configured toolset whose count
    threw, which stays loaded.  So when the count callback does not
    throw, no call throws and a reply with [isError] leaves the
    controller as it was. *)
Theorem X8_meta_error_leaves_controller `{JsRuntime}
    (tm : ToolsetManager.t) (toolName : string) (args : JsObject) :
  Obj.inherited (ToolsetManager.nameArg args) = false ->
  let out := ToolsetManager.handleMetaTool tm toolName args in
  (toolName = "spike__list_toolsets"%string ->
   snd out = tm
   /\ match ToolsetManager.listToolsets tm with
      | Return _ =>
          exists reply,
            fst out = Return reply /\ CallToolResult.isError reply = None
      | Throw err =>
          fst out = Throw err
          /\ exists server, ToolsetManager.serverToolCountFn tm server = Throw err
      end)
  /\ (toolName <> "spike__list_toolsets"%string ->
      exists reply,
        fst out = Return reply
        /\ (CallToolResult.isError reply = Some true ->
            snd out = tm
            \/ exists ts err,
                 toolName = "spike__load_toolset"%string
                 /\ Obj.get (ToolsetManager.toolsets tm)
                            (ToolsetManager.nameArg args) = Some ts
                 /\ ToolsetManager.toolCountOf tm (ToolsetManager.servers ts)
                    = Throw err
                 /\ snd out
                    = ToolsetManager.withLoaded tm
                        ({[ ToolsetManager.nameArg args ]}
                         ∪ ToolsetManager.loadedToolsets tm)))
  /\ ((forall server,
         exists count, ToolsetManager.serverToolCountFn tm server = Return count) ->
      exists reply,
        fst out = Return reply
        /\ (CallToolResult.isError reply = Some true -> snd out = tm)).
Proof.
  intros Hinh out.
  assert (Hother : toolName <> "spike__list_toolsets"%string ->
            exists reply,
              fst out = Return reply
              /\ (CallToolResult.isError reply = Some true ->
                  snd out = tm
                  \/ exists ts err,
                       toolName = "spike__load_toolset"%string
                       /\ Obj.get (ToolsetManager.toolsets tm)
                                  (ToolsetManager.nameArg args) = Some ts
                       /\ ToolsetManager.toolCountOf tm (ToolsetManager.servers ts)
                          = Throw err
                       /\ snd out
                          = ToolsetManager.withLoaded tm
                              ({[ ToolsetManager.nameArg args ]}
                               ∪ ToolsetManager.loadedToolsets tm))).
  { intros Hne. apply String.eqb_neq in Hne.
    subst out. unfold ToolsetManager.handleMetaTool. rewrite Hne.
    destruct (String.eqb toolName "spike__load_toolset") eqn:Hload.
    { apply String.eqb_eq in Hload.
      destruct (String.eqb (ToolsetManager.nameArg args) "").
      { eexists. split; [reflexivity |]. intros _. now left. }
      unfold ToolsetManager.loadToolset.
      destruct (Obj.get (ToolsetManager.toolsets tm) (ToolsetManager.nameArg args))
        as [ts |] eqn:Hget.
      - destruct (ToolsetManager.toolCountOf tm (ToolsetManager.servers ts))
          as [toolCount | err] eqn:Hcount.
        + eexists. split; [reflexivity |]. simpl. discriminate.
        + eexists. split; [reflexivity |]. intros _. right.
          exists ts, err. auto.
      - rewrite Hinh. eexists. split; [reflexivity |]. intros _. now left. }
    destruct (String.eqb toolName "spike__unload_toolset").
    { destruct (String.eqb (ToolsetManager.nameArg args) "").
      { eexists. split; [reflexivity |]. intros _. now left. }
      destruct (Obj.get (ToolsetManager.toolsets tm) (ToolsetManager.nameArg args)).
      - destruct (negb (bool_decide (ToolsetManager.nameArg args
                                     ∈ ToolsetManager.loadedToolsets tm))).
        + eexists. split; [reflexivity |]. intros _. now left.
        + eexists. split; [reflexivity |]. simpl. discriminate.
      - rewrite Hinh. eexists. split; [reflexivity |]. intros _. now left. }
    eexists. split; [reflexivity |]. intros _. now left. }
  assert (Hlist : toolName = "spike__list_toolsets"%string ->
            snd out = tm
            /\ match ToolsetManager.listToolsets tm with
               | Return _ =>
                   exists reply,
                     fst out = Return reply
                     /\ CallToolResult.isError reply = None
               | Throw err =>
                   fst out = Throw err
                   /\ exists server,
                        ToolsetManager.serverToolCountFn tm server = Throw err
               end).
  { intros ->. subst out. unfold ToolsetManager.handleMetaTool.
    rewrite String.eqb_refl.
    destruct (ToolsetManager.listToolsets tm) as [infos | err] eqn:Hl.
    - split; [reflexivity |]. eexists. split; reflexivity.
    - split; [reflexivity |]. split; [reflexivity |].
      apply listToolsets_thrown in Hl.
      destruct Hl as (name & ts & server & _ & _ & Hthrown). eauto. }
  split; [exact Hlist |]. split; [exact Hother |].
  intros Hcounts.
  destruct (string_dec toolName "spike__list_toolsets") as [Heq | Hne].
  - destruct (Hlist Heq) as [Hstate Hreply].
    destruct (listToolsets_returns tm Hcounts) as [infos Hinfos].
    rewrite Hinfos in Hreply. destruct Hreply as (reply & Hr & _).
    exists reply. auto.
  - destruct (Hother Hne) as (reply & Hr & Herr).
    exists reply. split; [exact Hr |]. intros Hflag.
    destruct (Herr Hflag) as [Hsame | (ts & err & _ & _ & Hcount & _)];
      [exact Hsame |].
    destruct (toolCountOf_returns tm (ToolsetManager.servers ts)) as [n Hn];
      [intros server _; apply Hcounts | congruence].
Qed.

Lemma X8_meta_error_witness :
  let tm := ToolsetManager.create
              [ ("testing"%string,
                 {| ToolsetManager.servers := ["vitest"%string];
                    ToolsetManager.description := None |}) ]
              (Scenario.toolCount Scenario.questionFleet) in
  let args := [("name"%string, JStr "testing")] in
  Obj.inherited (ToolsetManager.nameArg args) = false
  /\ ToolsetManager.handleMetaTool (H := scenarioRuntime) tm
       "spike__load_toolset" args
     = (Return (CallToolResult.textResult
                  ("Error: " +:+ Glob.nothingToRepeat "?") (Some true)),
        ToolsetManager.withLoaded tm {[ "testing"%string ]})
  /\ ToolsetManager.handleMetaTool (H := scenarioRuntime) tm
       "spike__list_toolsets" []
     = (Throw (Glob.nothingToRepeat "?"), tm)
  /\ exists reply,
       fst (ToolsetManager.handleMetaTool (H := scenarioRuntime) tm
              "spike__unload_toolset" args) = Return reply
       /\ (CallToolResult.isError reply = Some true ->
           snd (ToolsetManager.handleMetaTool (H := scenarioRuntime) tm
                  "spike__unload_toolset" args) = tm
           \/ exists ts err,
                "spike__unload_toolset"%string = "spike__load_toolset"%string
                /\ Obj.get (ToolsetManager.toolsets tm)
                           (ToolsetManager.nameArg args) = Some ts
                /\ ToolsetManager.toolCountOf tm (ToolsetManager.servers ts)
                   = Throw err
                /\ snd (ToolsetManager.handleMetaTool (H := scenarioRuntime) tm
                          "spike__unload_toolset" args)
                   = ToolsetManager.withLoaded tm
                       ({[ ToolsetManager.nameArg args ]}
                        ∪ ToolsetManager.loadedToolsets tm)).
Proof.
  intros tm args.
  split; [reflexivity |].
  split; [vm_compute; reflexivity |].
  split; [vm_compute; reflexivity |].
  destruct (X8_meta_error_leaves_controller (H := scenarioRuntime) tm
              "spike__unload_toolset" args eq_refl) as (_ & Hother & _).
  apply Hother. discriminate.
Defined.

(* ===================================================================== *)
(** * Further properties: the fleet manager and the multiplexer server *)
(* ===================================================================== *)

Section FleetMore.
Context `{JsRuntime}.
Import ServerManager.

Lemma append_cancel (a x y : string) : a +:+ x = a +:+ y -> x = y.
Proof.
  induction a as [| c a IH]; intros Heq.
  - now rewrite !append_nil in Heq.
  - rewrite !append_cons in Heq. injection Heq as Heq. auto.
Qed.

Lemma parse_own_name (u t s : string) (known : list string) :
  In u known ->
  (forall k, In k known -> (String.length u < String.length k)%nat ->
             matchesServer (Namespace.namespaceTool u t s) s k = false) ->
  Namespace.parseNamespacedTool (Namespace.namespaceTool u t s) known s
  = Some {| Namespace.serverName := u; Namespace.toolName := t |}.
Proof.
  intros Hin Hlonger.
  destruct (parse_Some_of_match _ s known u Hin (namespaceTool_matches u t s))
    as (p & Hp).
  rewrite Hp. f_equal.
  destruct (parse_longest _ _ _ _ Hp) as (Hpin & Hpm & Hw & Hmax).
  assert (Hlen : String.length (Namespace.serverName p) = String.length u).
  { pose proof (Hmax u Hin (namespaceTool_matches u t s)) as Hle.
    destruct (Nat.eq_dec (String.length (Namespace.serverName p))
                         (String.length u)) as [E | E]; [exact E |].
    rewrite (Hlonger _ Hpin) in Hpm; [discriminate | lia]. }
  assert (Hs : Namespace.serverName p = u).
  { eapply match_same_length; [exact Hpm | apply namespaceTool_matches | exact Hlen]. }
  destruct p as [sn tn]. simpl in *. subst sn. f_equal.
  unfold Namespace.namespaceTool in Hw.
  apply append_cancel in Hw. apply append_cancel in Hw. congruence.
Qed.

Lemma hasTool_In (tools : list ToolInfo.t) (tool : ToolInfo.t) :
  In tool tools -> hasTool tools (ToolInfo.name tool) = true.
Proof.
  intros Hin. unfold hasTool, Js.some. apply existsb_exists.
  exists tool. split; [exact Hin | apply String.eqb_refl].
Qed.

Lemma callTool_unprefixed (m : t) (wire : string) (args : JsObject) :
  noPrefix m = true ->
  ToolsetManager.isMetaTool wire = false ->
  callTool m wire args = (callUnprefixed m (upstreams m) wire args, m).
Proof.
  intros Hn Hm. unfold callTool, callToolWith. rewrite Hn, Hm.
  destruct (toolsetManager m); reflexivity.
Qed.

Lemma callUnprefixed_skip (m : t) (wire : string) (args : JsObject)
    (before rest : list (string * UpstreamClient.t)) :
  (forall k c, In (k, c) before -> passedOver m wire k c) ->
  callUnprefixed m (before ++ rest) wire args = callUnprefixed m rest wire args.
Proof.
  induction before as [| [k c] before IH]; intros Hskip; [reflexivity |].
  simpl.
  destruct (Hskip k c) as [Hh | (filtered & Hf & Ht)]; [left; reflexivity | |].
  - rewrite Hh. apply IH. intros k' c' Hin. apply Hskip. now right.
  - rewrite Hf, Ht. destruct (hidden m k); apply IH;
      intros k' c' Hin; apply Hskip; now right.
Qed.

Lemma getAllTools_serverName (m : t) (catalog : list NamespacedTool.t)
    (e : NamespacedTool.t) :
  getAllTools m = Return catalog ->
  In e catalog ->
  metaEntry e
  \/ exists client, In (NamespacedTool.serverName e, client) (upstreams m).
Proof.
  intros Hcatalog. rewrite (getAllTools_closed_form m catalog Hcatalog).
  intros Hin. apply in_app_or in Hin.
  destruct Hin as [Hin | Hin].
  - right. apply in_contribution in Hin.
    destruct Hin as (name & _ & client & filtered & tool & Hup & _ & _ & ->).
    exists client. exact Hup.
  - left. unfold metaEntry. destruct (toolsetManager m); [exact Hin | destruct Hin].
Qed.

End FleetMore.

(** X9.  In prefixed mode, take a visible upstream whose filter returns
    and a tool among its filtered tools.  Whenever [tools/list] answers,
    it shows the tool under its namespaced name; it answers when the
    filter of every visible upstream returns, and fails with the error of
    the catalog otherwise.  And [tools/call] under that name reaches the
    tool: the reply is the one of that upstream's client for the tool's
    own name (an error of the client becoming an [isError] reply), and
    the manager is unchanged -- provided the name is not a meta-tool name
    and no longer registered server name followed by the separator is a
    prefix of it. *)
Theorem X9_listed_tool_is_routed `{JsRuntime} (m : ServerManager.t)
    (n : string) (client : UpstreamClient.t) (filtered : list ToolInfo.t)
    (tool : ToolInfo.t) (args : JsObject) :
  ServerManager.noPrefix m = false ->
  Obj.get (ServerManager.upstreams m) n = Some client ->
  ServerManager.hidden m n = false ->
  ServerManager.getFilteredTools m n client = Return filtered ->
  In tool filtered ->
  ToolsetManager.isMetaTool
    (Namespace.namespaceTool n (ToolInfo.name tool) (ServerManager.separator m))
  = false ->
  (forall k, In k (ServerManager.getServerNames m) ->
             (String.length n < String.length k)%nat ->
             matchesServer
               (Namespace.namespaceTool n (ToolInfo.name tool)
                                        (ServerManager.separator m))
               (ServerManager.separator m) k = false) ->
  match MultiplexerServer.listTools m with
  | Return listed =>
      filtersReturn m
      /\ In (Namespace.namespaceTool n (ToolInfo.name tool)
                                     (ServerManager.separator m))
            (map MultiplexerServer.name listed)
  | Throw err =>
      ~ filtersReturn m /\ ServerManager.getAllTools m = Throw err
  end
  /\ MultiplexerServer.callTool m
       (Namespace.namespaceTool n (ToolInfo.name tool) (ServerManager.separator m))
       (Some args)
     = (match UpstreamClient.callTool client (ToolInfo.name tool) args with
        | Return reply => reply
        | Throw message =>
            CallToolResult.textResult ("Error: " +:+ message) (Some true)
        end, m).
Proof.
  intros Hmode Hget Hvis Hfiltered Htool Hmeta Hlonger.
  pose proof (get_In _ _ _ Hget) as Hup.
  split.
  - unfold MultiplexerServer.listTools.
    pose proof (getAllTools_returns m) as Hret.
    destruct (ServerManager.getAllTools m) as [catalog | err] eqn:Hcatalog.
    + split; [apply Hret; eauto |].
      rewrite map_map. simpl.
      apply in_map_iff. exists (ServerManager.entryOf m n tool). split.
      * unfold ServerManager.entryOf. simpl. now rewrite Hmode.
      * rewrite (getAllTools_closed_form m catalog Hcatalog).
        apply in_or_app. left.
        apply in_contribution. exists n. split; [exact Hvis |].
        exists client, filtered, tool. auto.
    + split; [| reflexivity]. intros Hall. apply Hret in Hall.
      destruct Hall as [catalog Hc]. discriminate.
  - unfold MultiplexerServer.callTool. simpl.
    rewrite (callTool_prefixed m _ args Hmode Hmeta).
    unfold ServerManager.callPrefixed, ServerManager.callPrefixedWith.
    rewrite parse_own_name.
    + simpl. rewrite Hget, Hvis, Hfiltered.
      rewrite (hasTool_In _ _ Htool). simpl.
      destruct (UpstreamClient.callTool client (ToolInfo.name tool) args);
        reflexivity.
    + apply in_map_iff. exists (n, client). auto.
    + exact Hlonger.
Qed.

Lemma X9_listed_tool_witness :
  let m := Scenario.fleet
             (Scenario.chessRemote (Scenario.ok "created")
                                   (fun _ => Scenario.ok "moved"))
             (Scenario.vitestRemote (Scenario.ok "3 tests passed")) in
  ServerManager.noPrefix m = false
  /\ ServerManager.hidden m "vitest" = false
  /\ ToolsetManager.isMetaTool "vitest__run_tests" = false
  /\ match MultiplexerServer.listTools m with
     | Return listed =>
         filtersReturn m
         /\ In "vitest__run_tests"%string (map MultiplexerServer.name listed)
     | Throw err =>
         ~ filtersReturn m /\ ServerManager.getAllTools m = Throw err
     end
  /\ MultiplexerServer.callTool (H := scenarioRuntime) m "vitest__run_tests"
        (Some [])
      = (Scenario.ok "3 tests passed", m).
Proof.
  intros m.
  split; [reflexivity |]. split; [reflexivity |]. split; [reflexivity |].
  apply (X9_listed_tool_is_routed (H := scenarioRuntime) m "vitest"
           (Scenario.connected "vitest"
              (Scenario.vitestRemote (Scenario.ok "3 tests passed")))
           [Scenario.set_project_root; Scenario.run_tests]
           Scenario.run_tests []).
  - reflexivity.
  - reflexivity.
  - reflexivity.
  - reflexivity.
  - simpl. auto.
  - reflexivity.
  - intros k Hk Hlen. simpl in Hk.
    destruct Hk as [<- | [<- | []]]; simpl in Hlen; lia.
Defined.

(** The two handlers on the fleet whose upstream [vitest] has the filter
    [{allowed: ["?"]}]: [tools/list] fails, a call to a tool of [chess]
    is answered, and a call to a tool of [vitest] is answered with the
    error of the filter. *)
Example handlers_filter_error :
  MultiplexerServer.listTools Scenario.questionFleet
  = Throw (Glob.nothingToRepeat "?")
  /\ MultiplexerServer.callTool (H := scenarioRuntime) Scenario.questionFleet
       "chess__chess_create_game" None
     = (Scenario.ok "created", Scenario.questionFleet)
  /\ MultiplexerServer.callTool (H := scenarioRuntime) Scenario.questionFleet
       "vitest__run_tests" None
     = (CallToolResult.textResult ("Error: " +:+ Glob.nothingToRepeat "?")
                                  (Some true),
        Scenario.questionFleet).
Proof. vm_compute. repeat split; reflexivity. Qed.

(** X10.  In [noPrefix] mode the upstreams are tried in registration
    order; one that is hidden, or whose filter returns tools without the
    name, is passed over.  The call goes to the first upstream that is
    visible and has the tool among its filtered tools (a later upstream
    with a tool of the same name is never reached); it throws the error
    of the filter of the first visible upstream whose filter throws, if
    that comes first; and when every upstream is passed over it fails
    with [Tool not found].  The manager is unchanged. *)
Theorem X10_unprefixed_first_owner `{JsRuntime} (m : ServerManager.t)
    (wire : string) (args : JsObject) :
  ServerManager.noPrefix m = true ->
  ToolsetManager.isMetaTool wire = false ->
  (forall before n client after filtered,
     ServerManager.upstreams m = before ++ (n, client) :: after ->
     (forall k c, In (k, c) before -> passedOver m wire k c) ->
     ServerManager.hidden m n = false ->
     ServerManager.getFilteredTools m n client = Return filtered ->
     ServerManager.hasTool filtered wire = true ->
     ServerManager.callTool m wire args
     = (UpstreamClient.callTool client wire args, m))
  /\ (forall before n client after err,
        ServerManager.upstreams m = before ++ (n, client) :: after ->
        (forall k c, In (k, c) before -> passedOver m wire k c) ->
        ServerManager.hidden m n = false ->
        ServerManager.getFilteredTools m n client = Throw err ->
        ServerManager.callTool m wire args = (Throw err, m))
  /\ ((forall k c, In (k, c) (ServerManager.upstreams m) ->
                   passedOver m wire k c) ->
      ServerManager.callTool m wire args
      = (Throw (ServerManager.toolNotFound wire), m)).
Proof.
  intros Hmode Hmeta. rewrite (callTool_unprefixed m wire args Hmode Hmeta).
  split; [| split].
  - intros before n client after filtered Hups Hskip Hvis Hf Hhas.
    rewrite Hups, (callUnprefixed_skip m wire args before _ Hskip).
    simpl. now rewrite Hvis, Hf, Hhas.
  - intros before n client after err Hups Hskip Hvis Hf.
    rewrite Hups, (callUnprefixed_skip m wire args before _ Hskip).
    simpl. now rewrite Hvis, Hf.
  - intros Hskip.
    rewrite <- (app_nil_r (ServerManager.upstreams m)).
    rewrite (callUnprefixed_skip m wire args _ [] Hskip). reflexivity.
Qed.

Lemma X10_unprefixed_witness :
  let m := ServerManager.withUpstreams
             (ServerManager.create None (Some true))
             [ ("a"%string,
                Scenario.connected "a"
                  (Scenario.vitestRemote (Scenario.ok "from a")));
               ("b"%string,
                Scenario.connected "b"
                  (Scenario.vitestRemote (Scenario.ok "from b"))) ] in
  ServerManager.noPrefix m = true
  /\ ToolsetManager.isMetaTool "run_tests" = false
  /\ ServerManager.callTool (H := scenarioRuntime) m "run_tests" []
     = (Return (Scenario.ok "from a"), m)
  /\ ServerManager.callTool (H := scenarioRuntime) m "missing" []
     = (Throw "Tool not found: missing"%string, m).
Proof.
  intros m. split; [reflexivity |]. split; [reflexivity |]. split.
  - destruct (X10_unprefixed_first_owner (H := scenarioRuntime) m "run_tests" []
                eq_refl eq_refl) as [Hfirst _].
    apply (Hfirst [] "a"%string _ [ ("b"%string, _) ]
                  [Scenario.set_project_root; Scenario.run_tests] eq_refl).
    + intros k c [].
    + reflexivity.
    + reflexivity.
    + reflexivity.
  - destruct (X10_unprefixed_first_owner (H := scenarioRuntime) m "missing" []
                eq_refl eq_refl) as (_ & _ & Hnone).
    apply Hnone. intros k c Hin. right.
    exists [Scenario.set_project_root; Scenario.run_tests].
    simpl in Hin. destruct Hin as [Heq | [Heq | []]]; injection Heq as <- <-;
      split; reflexivity.
Defined.

(** X11.  A [reconnect] whose dial succeeds returns normally and leaves
    the server registered with a fresh connected client holding the tools
    the remote end lists and with the new configuration; the server is
    now the last in registration order, and every other server keeps its
    client and its configuration. *)
Theorem X11_reconnect_success (dial : UpstreamClient.Dial)
    (m : ServerManager.t) (serverName : string) (config : ServerConfig.t)
    (remote : UpstreamClient.Remote) :
  dial serverName config = Return remote ->
  fst (ServerManager.reconnect dial m serverName config) = Return tt
  /\ Obj.get (ServerManager.upstreams
                (snd (ServerManager.reconnect dial m serverName config)))
             serverName
     = Some {| UpstreamClient.name := serverName;
               UpstreamClient.config := config;
               UpstreamClient.tools := UpstreamClient.listTools remote;
               UpstreamClient.connected := true;
               UpstreamClient.remote := remote |}
  /\ ServerManager.serverConfigs
       (snd (ServerManager.reconnect dial m serverName config)) !! serverName
     = Some config
  /\ ServerManager.getServerNames
       (snd (ServerManager.reconnect dial m serverName config))
     = List.filter (fun k => negb (String.eqb k serverName))
                   (ServerManager.getServerNames m) ++ [serverName]
  /\ (forall other,
        other <> serverName ->
        Obj.get (ServerManager.upstreams
                   (snd (ServerManager.reconnect dial m serverName config)))
                other
        = Obj.get (ServerManager.upstreams m) other
        /\ ServerManager.serverConfigs
             (snd (ServerManager.reconnect dial m serverName config)) !! other
           = ServerManager.serverConfigs m !! other).
Proof.
  intros Hdial. unfold ServerManager.reconnect, UpstreamClient.connect.
  rewrite Hdial. unfold ServerManager.getServerNames.
  destruct (Obj.get (ServerManager.upstreams m) serverName) as [existing|] eqn:Hget;
    simpl.
  - split; [reflexivity |]. split; [apply set_get_same |].
    split; [apply lookup_insert_eq |]. split.
    + rewrite keys_set_fresh by apply get_remove.
      now rewrite keys_remove.
    + intros other Hne. split.
      * rewrite set_get_other by exact Hne.
        apply get_remove_other. congruence.
      * apply lookup_insert_ne. congruence.
  - split; [reflexivity |]. split; [apply set_get_same |].
    split; [apply lookup_insert_eq |]. split.
    + rewrite keys_set_fresh by exact Hget.
      now rewrite filter_keys_absent.
    + intros other Hne. split.
      * now rewrite set_get_other.
      * apply lookup_insert_ne. congruence.
Qed.

Lemma X11_reconnect_success_witness :
  let m := Scenario.fleet
             (Scenario.chessRemote (Scenario.ok "created")
                                   (fun _ => Scenario.ok "moved"))
             (Scenario.vitestRemote (Scenario.ok "3 tests passed")) in
  let dial : UpstreamClient.Dial :=
    fun _ _ => Return (Scenario.vitestRemote (Scenario.ok "again")) in
  let after := ServerManager.reconnect dial m "chess" (Scenario.stdio "chess-v2") in
  dial "chess"%string (Scenario.stdio "chess-v2")
  = Return (Scenario.vitestRemote (Scenario.ok "again"))
  /\ fst after = Return tt
  /\ ServerManager.getServerNames m = ["chess"; "vitest"]%string
  /\ ServerManager.getServerNames (snd after) = ["vitest"; "chess"]%string.
Proof.
  intros m dial after.
  destruct (X11_reconnect_success dial m "chess" (Scenario.stdio "chess-v2")
              _ eq_refl) as (Hout & _ & _ & Hnames & _).
  split; [reflexivity |]. split; [exact Hout |]. split; [reflexivity |].
  exact Hnames.
Defined.

(** X12.  After [disconnectServer(name)] the server has no client, a
    server that was registered has no configuration left, every other
    server keeps its client and configuration, and the catalog holds no
    tool of the server. *)
Theorem X12_disconnectServer_removes (m : ServerManager.t) (serverName : string) :
  Obj.get (ServerManager.upstreams (ServerManager.disconnectServer m serverName))
          serverName = None
  /\ ServerManager.isConnected (ServerManager.disconnectServer m serverName)
                               serverName = false
  /\ (In serverName (ServerManager.getServerNames m) ->
      ServerManager.serverConfigs (ServerManager.disconnectServer m serverName)
        !! serverName = None)
  /\ (forall other,
        other <> serverName ->
        Obj.get (ServerManager.upstreams
                   (ServerManager.disconnectServer m serverName)) other
        = Obj.get (ServerManager.upstreams m) other
        /\ ServerManager.serverConfigs
             (ServerManager.disconnectServer m serverName) !! other
           = ServerManager.serverConfigs m !! other)
  /\ (forall catalog e,
        ServerManager.getAllTools (ServerManager.disconnectServer m serverName)
        = Return catalog ->
        In e catalog ->
        NamespacedTool.serverName e = serverName -> metaEntry e).
Proof.
  assert (Hgone : Obj.get (ServerManager.upstreams
                             (ServerManager.disconnectServer m serverName))
                          serverName = None).
  { unfold ServerManager.disconnectServer.
    destruct (Obj.get (ServerManager.upstreams m) serverName) eqn:Hget; simpl;
      [apply get_remove | exact Hget]. }
  split; [exact Hgone |]. split.
  { unfold ServerManager.isConnected. now rewrite Hgone. }
  split.
  { intros Hin. apply get_of_key in Hin. destruct Hin as (client & Hget).
    unfold ServerManager.disconnectServer. rewrite Hget. simpl.
    apply lookup_delete_eq. }
  split.
  { intros other Hne. unfold ServerManager.disconnectServer.
    destruct (Obj.get (ServerManager.upstreams m) serverName); simpl;
      [| split; reflexivity].
    split; [apply get_remove_other; congruence |].
    apply lookup_delete_ne. congruence. }
  intros catalog e Hcatalog Hin Hname.
  apply (getAllTools_serverName _ _ _ Hcatalog) in Hin.
  destruct Hin as [Hmeta | (client & Hup)]; [exact Hmeta | exfalso].
  rewrite Hname in Hup. apply get_None_keys in Hgone. apply Hgone.
  apply in_map_iff. exists (serverName, client). auto.
Qed.

(* ===================================================================== *)
(** * Further properties: applying a new configuration *)
(* ===================================================================== *)

Section ConfigDiffFacts.
Import ConfigDiff.

Lemma has_In (names : list string) (name : string) :
  has names name = true <-> In name names.
Proof.
  unfold has. rewrite existsb_exists. split.
  - intros (x & Hin & Heq). apply String.eqb_eq in Heq. now subst.
  - intros Hin. exists name. split; [exact Hin | apply String.eqb_refl].
Qed.

Lemma has_false (names : list string) (name : string) :
  has names name = false <-> ~ In name names.
Proof.
  rewrite <- has_In. destruct (has names name); split; congruence.
Qed.

Lemma setOf_acc (names acc : list string) (name : string) :
  In name (fold_left (fun set name => if has set name then set else set ++ [name])
                     names acc)
  <-> In name acc \/ In name names.
Proof.
  revert acc. induction names as [| x names IH]; intros acc; simpl.
  - tauto.
  - rewrite IH. destruct (has acc x) eqn:E.
    + apply has_In in E. split; [tauto |].
      intros [Ha | [<- | Hn]]; auto.
    + rewrite in_app_iff. simpl. tauto.
Qed.

Lemma setOf_In (names : list string) (name : string) :
  In name (setOf names) <-> In name names.
Proof. unfold setOf. rewrite setOf_acc. simpl. tauto. Qed.

Lemma setOf_NoDup_acc (names acc : list string) :
  NoDup acc ->
  NoDup (fold_left (fun set name => if has set name then set else set ++ [name])
                        names acc).
Proof.
  revert acc. induction names as [| x names IH]; intros acc Hnd; simpl.
  - exact Hnd.
  - apply IH. destruct (has acc x) eqn:E; [exact Hnd |].
    apply has_false in E.
    apply NoDup_app. split; [exact Hnd |]. split.
    + intros y Hy Hy'. apply list_elem_of_In in Hy, Hy'.
      destruct Hy' as [<- | []]. auto.
    + apply NoDup_singleton.
Qed.

Lemma setOf_NoDup (names : list string) : NoDup (setOf names).
Proof. apply setOf_NoDup_acc. apply NoDup_nil_2. Qed.

Lemma has_setOf (names : list string) (name : string) :
  has (setOf names) name = has names name.
Proof.
  destruct (has names name) eqn:E.
  - apply has_In. apply setOf_In. now apply has_In.
  - apply has_false. rewrite setOf_In. now apply has_false.
Qed.

Lemma fold_left_fixed {A B : Type} (f : A -> B -> A) (l : list B) (a : A) :
  (forall x, In x l -> forall a, f a x = a) -> fold_left f l a = a.
Proof.
  induction l as [| x l IH]; intros Hfix; simpl; [reflexivity |].
  rewrite Hfix by now left. apply IH. intros y Hy. apply Hfix. now right.
Qed.

Lemma disconnect_other (m : ServerManager.t) (k n : string) :
  n <> k ->
  Obj.get (ServerManager.upstreams (ServerManager.disconnectServer m k)) n
  = Obj.get (ServerManager.upstreams m) n.
Proof.
  intros Hne. unfold ServerManager.disconnectServer.
  destruct (Obj.get (ServerManager.upstreams m) k); simpl; [| reflexivity].
  apply get_remove_other. congruence.
Qed.

Lemma disconnect_gone (m : ServerManager.t) (k : string) :
  Obj.get (ServerManager.upstreams (ServerManager.disconnectServer m k)) k = None.
Proof.
  unfold ServerManager.disconnectServer.
  destruct (Obj.get (ServerManager.upstreams m) k) eqn:Hget; simpl;
    [apply get_remove | exact Hget].
Qed.

Lemma reconnect_other (dial : UpstreamClient.Dial) (m : ServerManager.t)
    (k n : string) (config : ServerConfig.t) :
  n <> k ->
  Obj.get (ServerManager.upstreams (snd (ServerManager.reconnect dial m k config))) n
  = Obj.get (ServerManager.upstreams m) n.
Proof.
  intros Hne. unfold ServerManager.reconnect, UpstreamClient.connect.
  destruct (dial k config) as [remote | err];
    destruct (Obj.get (ServerManager.upstreams m) k); simpl;
    rewrite ?set_get_other by exact Hne;
    rewrite ?get_remove_other by congruence; reflexivity.
Qed.

Lemma reconnect_connected (dial : UpstreamClient.Dial) (m m' : ServerManager.t)
    (k : string) (config : ServerConfig.t) (u : unit) :
  ServerManager.reconnect dial m k config = (Return u, m') ->
  ServerManager.isConnected m' k = true.
Proof.
  unfold ServerManager.reconnect, UpstreamClient.connect.
  destruct (dial k config) as [remote | err]; [| discriminate].
  intros [= _ <-]. unfold ServerManager.isConnected. simpl.
  now rewrite set_get_same.
Qed.

(** The loop that removes servers. *)
Lemma removeLoop_spec (newNames names : list string) :
  forall (m m' : ServerManager.t) (removed removed' : list string),
    fold_left (removeStep newNames) names (m, removed) = (m', removed') ->
    removed' = removed ++ List.filter (fun n => negb (has newNames n)) names
    /\ (forall n, In n names -> has newNames n = false ->
                  Obj.get (ServerManager.upstreams m') n = None)
    /\ (forall n, (~ In n names \/ has newNames n = true) ->
                  Obj.get (ServerManager.upstreams m') n
                  = Obj.get (ServerManager.upstreams m) n).
Proof.
  induction names as [| k names IH]; intros m m' removed removed' Hrun;
    simpl in Hrun.
  - injection Hrun as <- <-. rewrite app_nil_r. repeat split; auto.
    intros n [].
  - simpl. destruct (has newNames k) eqn:Ek; simpl in Hrun |- *.
    + destruct (IH _ _ _ _ Hrun) as (H1 & H2 & H3).
      split; [exact H1 |]. split.
      * intros n [<- | Hin] Hn; [congruence | auto].
      * intros n Hn. apply H3. simpl in Hn. tauto.
    + destruct (IH _ _ _ _ Hrun) as (H1 & H2 & H3).
      split; [rewrite H1, <- app_assoc; reflexivity |]. split.
      * intros n [<- | Hin] Hn; [| auto].
        destruct (in_dec string_dec k names) as [Hk | Hk]; [auto |].
        rewrite H3 by (simpl in *; tauto). apply disconnect_gone.
      * intros n Hn. rewrite H3 by (simpl in *; tauto). apply disconnect_other.
        intros ->. destruct Hn as [Hn | Hn]; [apply Hn; now left | congruence].
Qed.

Ltac keep_going IH Hnd Hrun :=
  let extra := fresh "extra" in
  let H1 := fresh "H1" in
  let H2 := fresh "H2" in
  let H3 := fresh "H3" in
  destruct (IH Hnd _ _ _ _ Hrun) as ((extra & H1 & H2) & H3);
  split;
  [ exists extra; split; [exact H1 |];
    let n := fresh "n" in
    let Hn := fresh "Hn" in
    intros n Hn; destruct (H2 n Hn) as (? & ? & ?); repeat split; simpl; auto
  | ].

(** The loop that adds servers. *)
Lemma addLoop_spec (dial : UpstreamClient.Dial) (oldNames : list string)
    (newServers : list (string * ConfiguredServer)) (names : list string) :
  NoDup names ->
  forall (m m' : ServerManager.t) (added added' : list string),
    fold_left (addStep dial oldNames newServers) names (m, added) = (m', added') ->
    (exists extra,
        added' = added ++ extra
        /\ forall n, In n extra ->
                     In n names /\ has oldNames n = false
                     /\ ServerManager.isConnected m' n = true)
    /\ (forall n, (~ In n names \/ has oldNames n = true) ->
                  Obj.get (ServerManager.upstreams m') n
                  = Obj.get (ServerManager.upstreams m) n).
Proof.
  induction names as [| k names IH]; intros Hnd m m' added added' Hrun;
    simpl in Hrun.
  - injection Hrun as <- <-.
    split; [exists []; rewrite app_nil_r; split; [reflexivity | intros n []] | auto].
  - apply NoDup_cons in Hnd. destruct Hnd as [Hk Hnd].
    rewrite list_elem_of_In in Hk.
    destruct (has oldNames k) eqn:Ek; simpl in Hrun.
    { keep_going IH Hnd Hrun. intros n Hn. apply H3. simpl in Hn. tauto. }
    destruct (Obj.get newServers k) as [serverConfig |].
    2:{ keep_going IH Hnd Hrun. intros n Hn. apply H3.
        simpl in Hn. destruct Hn as [Hn | Hn]; [tauto |]. tauto. }
    unfold UpstreamClient.connect in Hrun.
    destruct (dial k (config serverConfig)) as [remote | err].
    2:{ keep_going IH Hnd Hrun. intros n Hn. apply H3.
        simpl in Hn. destruct Hn as [Hn | Hn]; [tauto |]. tauto. }
    destruct (IH Hnd _ _ _ _ Hrun) as ((extra & H1 & H2) & H3).
    split.
    + exists (k :: extra). split; [rewrite H1, <- app_assoc; reflexivity |].
      intros n [<- | Hn].
      * split; [now left |]. split; [exact Ek |].
        unfold ServerManager.isConnected. rewrite H3 by (simpl in *; tauto). simpl.
        now rewrite set_get_same.
      * destruct (H2 n Hn) as (? & ? & ?). repeat split; simpl; auto.
    + intros n Hn. rewrite H3 by (simpl in *; tauto). simpl.
      apply set_get_other. intros ->.
      destruct Hn as [Hn | Hn]; [apply Hn; now left | congruence].
Qed.

(** The loop that reconnects changed servers. *)
Lemma changeLoop_spec (dial : UpstreamClient.Dial) (oldNames : list string)
    (oldServers newServers : list (string * ConfiguredServer))
    (names : list string) :
  NoDup names ->
  forall (m m' : ServerManager.t) (changed changed' : list string),
    fold_left (changeStep dial oldNames oldServers newServers) names (m, changed)
    = (m', changed') ->
    (exists extra,
        changed' = changed ++ extra
        /\ forall n, In n extra ->
                     In n names /\ has oldNames n = true
                     /\ ServerManager.isConnected m' n = true)
    /\ (forall n, (~ In n names \/ has oldNames n = false
                   \/ json <$> Obj.get oldServers n = json <$> Obj.get newServers n) ->
                  Obj.get (ServerManager.upstreams m') n
                  = Obj.get (ServerManager.upstreams m) n).
Proof.
  induction names as [| k names IH]; intros Hnd m m' changed changed' Hrun;
    simpl in Hrun.
  - injection Hrun as <- <-.
    split; [exists []; rewrite app_nil_r; split; [reflexivity | intros n []] | auto].
  - apply NoDup_cons in Hnd. destruct Hnd as [Hk Hnd].
    rewrite list_elem_of_In in Hk.
    destruct (has oldNames k) eqn:Ek; simpl in Hrun.
    2:{ keep_going IH Hnd Hrun. intros n Hn. apply H3. simpl in Hn. tauto. }
    destruct (bool_decide (json <$> Obj.get oldServers k
                           = json <$> Obj.get newServers k)) eqn:Ej;
      simpl in Hrun.
    { keep_going IH Hnd Hrun. intros n Hn. apply H3. simpl in Hn. tauto. }
    apply bool_decide_eq_false in Ej.
    destruct (Obj.get newServers k) as [serverConfig |] eqn:Enew.
    2:{ keep_going IH Hnd Hrun. intros n Hn. apply H3. simpl in Hn. tauto. }
    pose proof (reconnect_other dial m k) as Hother.
    pose proof (reconnect_connected dial m) as Hconn.
    destruct (ServerManager.reconnect dial m k (config serverConfig))
      as [[u | err] m1] eqn:Erec.
    + destruct (IH Hnd _ _ _ _ Hrun) as ((extra & H1 & H2) & H3).
      split.
      * exists (k :: extra). split; [rewrite H1, <- app_assoc; reflexivity |].
        intros n [<- | Hn].
        -- split; [now left |]. split; [exact Ek |].
           unfold ServerManager.isConnected. rewrite H3 by (simpl in *; tauto).
           apply (Hconn m1 k (config serverConfig) u). exact Erec.
        -- destruct (H2 n Hn) as (? & ? & ?). repeat split; simpl; auto.
      * intros n Hn. rewrite H3 by (simpl in *; tauto).
        specialize (Hother n (config serverConfig)). rewrite Erec in Hother.
        simpl in Hother.
        apply Hother. intros ->.
        destruct Hn as [Hn | [Hn | Hn]];
          [apply Hn; now left | congruence |].
        apply Ej. rewrite Enew in Hn. exact Hn.
    + keep_going IH Hnd Hrun. intros n Hn. rewrite H3 by (simpl in *; tauto).
      specialize (Hother n (config serverConfig)). rewrite Erec in Hother.
        simpl in Hother.
      apply Hother. intros ->.
      destruct Hn as [Hn | [Hn | Hn]];
        [apply Hn; now left | congruence |].
      apply Ej. rewrite Enew in Hn. exact Hn.
Qed.

End ConfigDiffFacts.

(** X13.  Applying a configuration against itself reports nothing added,
    removed or changed and leaves the manager as it was, whatever the
    dial would answer. *)
Theorem X13_applyConfigDiff_same (dial : UpstreamClient.Dial)
    (m : ServerManager.t) (servers : list (string * ConfigDiff.ConfiguredServer)) :
  ConfigDiff.applyConfigDiff dial m servers servers
  = ({| ConfigDiff.added := []; ConfigDiff.removed := [];
        ConfigDiff.changed := [] |}, m).
Proof.
  unfold ConfigDiff.applyConfigDiff, ConfigDiff.removeLoop, ConfigDiff.addLoop,
    ConfigDiff.changeLoop.
  rewrite fold_left_fixed.
  2:{ intros x Hx [m0 r0]. apply has_In in Hx.
      unfold ConfigDiff.removeStep. now rewrite Hx. }
  rewrite fold_left_fixed.
  2:{ intros x Hx [m0 r0]. apply has_In in Hx.
      unfold ConfigDiff.addStep. now rewrite Hx. }
  rewrite fold_left_fixed.
  2:{ intros x Hx [m0 r0]. apply has_In in Hx.
      unfold ConfigDiff.changeStep. rewrite Hx.
      rewrite bool_decide_eq_true_2 by reflexivity. reflexivity. }
  reflexivity.
Qed.

(** X14.  The summary of [applyConfigDiff] against the fleet afterwards:
    the removed servers are the old names that are not new names, in
    order, and none of them has a client; every added server is a new
    name that was not an old one and is connected; every changed server
    is in both configurations and is connected; and a server in both
    whose two configurations have the same JSON text keeps the client it
    had. *)
Theorem X14_applyConfigDiff_summary (dial : UpstreamClient.Dial)
    (m : ServerManager.t)
    (oldServers newServers : list (string * ConfigDiff.ConfiguredServer)) :
  let diff := fst (ConfigDiff.applyConfigDiff dial m oldServers newServers) in
  let m' := snd (ConfigDiff.applyConfigDiff dial m oldServers newServers) in
  ConfigDiff.removed diff
  = List.filter (fun n => negb (ConfigDiff.has (Obj.keys newServers) n))
                (ConfigDiff.setOf (Obj.keys oldServers))
  /\ (forall n, In n (ConfigDiff.removed diff) ->
                Obj.get (ServerManager.upstreams m') n = None)
  /\ (forall n, In n (ConfigDiff.added diff) ->
                In n (Obj.keys newServers) /\ ~ In n (Obj.keys oldServers)
                /\ ServerManager.isConnected m' n = true)
  /\ (forall n, In n (ConfigDiff.changed diff) ->
                In n (Obj.keys oldServers) /\ In n (Obj.keys newServers)
                /\ ServerManager.isConnected m' n = true)
  /\ (forall n before after,
        Obj.get oldServers n = Some before ->
        Obj.get newServers n = Some after ->
        ConfigDiff.json before = ConfigDiff.json after ->
        Obj.get (ServerManager.upstreams m') n
        = Obj.get (ServerManager.upstreams m) n).
Proof.
  unfold ConfigDiff.applyConfigDiff, ConfigDiff.removeLoop, ConfigDiff.addLoop,
    ConfigDiff.changeLoop.
  set (oldNames := ConfigDiff.setOf (Obj.keys oldServers)).
  set (newNames := ConfigDiff.setOf (Obj.keys newServers)).
  destruct (fold_left (ConfigDiff.removeStep newNames) oldNames (m, []))
    as [m1 removed] eqn:E1.
  destruct (fold_left (ConfigDiff.addStep dial oldNames newServers) newNames
                      (m1, [])) as [m2 added] eqn:E2.
  destruct (fold_left (ConfigDiff.changeStep dial oldNames oldServers newServers)
                      newNames (m2, [])) as [m3 changed] eqn:E3.
  destruct (removeLoop_spec _ _ _ _ _ _ E1) as (Hr1 & Hr2 & Hr3).
  destruct (addLoop_spec _ _ _ _ (setOf_NoDup _) _ _ _ _ E2)
    as ((extraA & Ha1 & Ha2) & Ha3).
  destruct (changeLoop_spec _ _ _ _ _ (setOf_NoDup _) _ _ _ _ E3)
    as ((extraC & Hc1 & Hc2) & Hc3).
  simpl in Ha1, Hc1, Hr1. subst added changed. simpl.
  split.
  { rewrite Hr1. apply filter_ext. intros n. unfold newNames.
    now rewrite has_setOf. }
  split.
  { intros n Hn. rewrite Hr1 in Hn. apply filter_In in Hn.
    destruct Hn as [Hin Hnew]. apply negb_true_iff in Hnew.
    assert (Hnot : ~ In n newNames) by now apply has_false.
    rewrite Hc3 by tauto. rewrite Ha3 by tauto. now apply Hr2. }
  split.
  { intros n Hn. destruct (Ha2 n Hn) as (Hin & Hold & Hconn).
    split; [now apply setOf_In |]. split.
    - apply has_false in Hold. unfold oldNames in Hold.
      now rewrite setOf_In in Hold.
    - unfold ServerManager.isConnected in *. rewrite Hc3 by tauto. exact Hconn. }
  split.
  { intros n Hn. destruct (Hc2 n Hn) as (Hin & Hold & Hconn).
    split; [apply (proj1 (has_In _ _)) in Hold;
            apply (proj1 (setOf_In _ _)) in Hold; exact Hold |].
    split; [now apply setOf_In | exact Hconn]. }
  intros n before after Hb Ha Hj.
  assert (Hold : ConfigDiff.has oldNames n = true).
  { apply has_In, setOf_In. apply get_In in Hb.
    apply in_map_iff. exists (n, before). auto. }
  assert (Hnew : ConfigDiff.has newNames n = true).
  { apply has_In, setOf_In. apply get_In in Ha.
    apply in_map_iff. exists (n, after). auto. }
  rewrite Hc3.
  2:{ right. right. rewrite Hb, Ha. simpl. now rewrite Hj. }
  rewrite Ha3 by tauto. apply Hr3. tauto.
Qed.

(* ===================================================================== *)
(** * Further properties: back-off and the reconnect manager *)
(* ===================================================================== *)

Section BackoffMore.
Import Reconnect.

Lemma overflow_above_2_53 : 2 ^ 53 <= overflow.
Proof. unfold overflow. apply Z.pow_le_mono_r; lia. Qed.

Lemma calculateBackoff_closed (n initial cap : Z) (o : option ReconnectOptions) :
  0 <= n -> 0 < initial -> cap < overflow ->
  opt_initialDelayMs (withDefaults o) = initial ->
  opt_maxDelayMs (withDefaults o) = cap ->
  calculateBackoff n o = Z.min (initial * 2 ^ n) cap.
Proof.
  intros Hn Hi Hc Ei Ec. unfold calculateBackoff. rewrite Ei, Ec.
  assert (Hpow : 0 < 2 ^ n) by (apply Z.pow_pos_nonneg; lia).
  assert (Hle : 2 ^ n <= initial * 2 ^ n) by nia.
  unfold pow2. destruct (2 ^ n <? overflow) eqn:E1; simpl.
  - destruct (initial * 2 ^ n <? overflow) eqn:E2; simpl; [reflexivity |].
    apply Z.ltb_ge in E2. symmetry. apply Z.min_r.
    apply Z.le_trans with overflow; [apply Z.lt_le_incl; exact Hc | exact E2].
  - apply Z.ltb_ge in E1. symmetry. apply Z.min_r.
    apply Z.le_trans with overflow; [apply Z.lt_le_incl; exact Hc |].
    apply Z.le_trans with (2 ^ n); [exact E1 | exact Hle].
Qed.

End BackoffMore.

(** X15.  For any options, with the defaults filling what is not given:
    when the initial delay is a positive integer and both delays are
    below [2^53], the back-off of attempt [n >= 0] is
    [min(initialDelayMs * 2^n, maxDelayMs)]; it never exceeds
    [maxDelayMs] and never decreases from one attempt to the next. *)
Theorem X15_calculateBackoff_options (n : Z)
    (options : option Reconnect.ReconnectOptions) :
  0 <= n ->
  0 < Reconnect.opt_initialDelayMs (Reconnect.withDefaults options) < 2 ^ 53 ->
  Reconnect.opt_maxDelayMs (Reconnect.withDefaults options) < 2 ^ 53 ->
  Reconnect.calculateBackoff n options
  = Z.min (Reconnect.opt_initialDelayMs (Reconnect.withDefaults options) * 2 ^ n)
          (Reconnect.opt_maxDelayMs (Reconnect.withDefaults options))
  /\ Reconnect.calculateBackoff n options
     <= Reconnect.opt_maxDelayMs (Reconnect.withDefaults options)
  /\ Reconnect.calculateBackoff n options
     <= Reconnect.calculateBackoff (n + 1) options.
Proof.
  intros Hn Hi Hc. pose proof overflow_above_2_53 as Hbig.
  rewrite (calculateBackoff_closed n _ _ options
             Hn (proj1 Hi) (Z.lt_le_trans _ _ _ Hc Hbig) eq_refl eq_refl).
  rewrite (calculateBackoff_closed (n + 1) _ _ options
             (Z.le_le_succ_r _ _ Hn) (proj1 Hi) (Z.lt_le_trans _ _ _ Hc Hbig)
             eq_refl eq_refl).
  split; [reflexivity |]. split; [lia |].
  rewrite Z.pow_add_r by lia.
  assert (0 < 2 ^ n) by (apply Z.pow_pos_nonneg; lia). nia.
Qed.

Lemma X15_calculateBackoff_witness :
  let options :=
    Some {| Reconnect.maxAttempts := None;
            Reconnect.initialDelayMs := Some 250;
            Reconnect.maxDelayMs := None |} in
  0 <= 3
  /\ Reconnect.opt_maxDelayMs (Reconnect.withDefaults options) = 30000
  /\ Reconnect.calculateBackoff 3 options = Z.min (250 * 2 ^ 3) 30000
  /\ Reconnect.calculateBackoff 3 options <= 30000
  /\ Reconnect.calculateBackoff 3 options <= Reconnect.calculateBackoff (3 + 1) options.
Proof.
  intros options. split; [lia |]. split; [reflexivity |].
  apply (X15_calculateBackoff_options 3 options).
  - lia.
  - simpl. lia.
  - simpl. lia.
Defined.

Section ReconnectManagerFacts.
Import ReconnectManager.

#[local] Arguments Reconnect.calculateBackoff : simpl never.

Lemma repeat_snoc {A : Type} (x : A) (n : nat) :
  repeat x n ++ [x] = repeat x (S n).
Proof.
  induction n as [| n IH]; simpl; [reflexivity |].
  now rewrite IH.
Qed.

Lemma scheduleReconnect_fresh (options : Reconnect.Options)
    (name : string) (config : ServerConfig.t) (n : nat) :
  Reconnect.opt_maxAttempts options = Z.of_nat n ->
  scheduleReconnect
    {| activeRetries := []; options := options; armed := []; inFlight := [];
       nextTimer := 0; reconnectCalls := [] |} name config
  = match n with
    | O => gaveUp options name config 0
    | S _ => waiting options name config 0
    end.
Proof.
  intros Hmax. unfold scheduleReconnect. simpl. rewrite Hmax.
  destruct n as [| n].
  - reflexivity.
  - replace (Z.of_nat (S n) <=? 0) with false by (symmetry; apply Z.leb_gt; lia).
    reflexivity.
Qed.

Lemma failRetry_waiting (options : Reconnect.Options)
    (name : string) (config : ServerConfig.t) (n k : nat) :
  Reconnect.opt_maxAttempts options = Z.of_nat n ->
  (k < n)%nat ->
  failRetry name (waiting options name config k)
  = if (S k <? n)%nat then waiting options name config (S k)
    else gaveUp options name config n.
Proof.
  intros Hmax Hk. unfold failRetry, waiting. simpl.
  rewrite String.eqb_refl. simpl.
  unfold expire. simpl. unfold hasId at 1. simpl. rewrite Nat.eqb_refl.
  unfold settle. simpl. unfold hasId at 1. simpl. rewrite Nat.eqb_refl.
  unfold clearTimeout, hasId. simpl. rewrite Nat.eqb_refl. simpl.
  unfold scheduleReconnect. simpl. rewrite String.eqb_refl. simpl.
  rewrite Hmax, repeat_snoc.
  destruct (S k <? n)%nat eqn:E.
  - apply Nat.ltb_lt in E.
    replace (Z.of_nat n <=? Z.of_nat k + 1) with false
      by (symmetry; apply Z.leb_gt; lia).
    unfold retryTimer.
    replace (Z.of_nat k + 1) with (Z.of_nat (S k)) by lia.
    reflexivity.
  - apply Nat.ltb_ge in E.
    replace (Z.of_nat n <=? Z.of_nat k + 1) with true
      by (symmetry; apply Z.leb_le; lia).
    unfold withRetries, gaveUp. simpl.
    replace n with (S k) by lia. reflexivity.
Qed.

Lemma failRetry_gaveUp (options : Reconnect.Options)
    (name : string) (config : ServerConfig.t) (n : nat) :
  failRetry name (gaveUp options name config n) = gaveUp options name config n.
Proof. reflexivity. Qed.

Lemma retries_state (options : Reconnect.Options)
    (name : string) (config : ServerConfig.t) (n : nat) :
  Reconnect.opt_maxAttempts options = Z.of_nat n ->
  forall k,
    Nat.iter k (failRetry name)
      (scheduleReconnect
         {| activeRetries := []; options := options; armed := [];
            inFlight := []; nextTimer := 0; reconnectCalls := [] |}
         name config)
    = if (k <? n)%nat then waiting options name config k
      else gaveUp options name config n.
Proof.
  intros Hmax k. induction k as [| k IH].
  - simpl Nat.iter. rewrite (scheduleReconnect_fresh _ _ _ n Hmax).
    destruct n; reflexivity.
  - simpl Nat.iter. rewrite IH.
    destruct (k <? n)%nat eqn:E.
    + apply Nat.ltb_lt in E. apply (failRetry_waiting _ _ _ n k Hmax E).
    + apply Nat.ltb_ge in E. rewrite failRetry_gaveUp.
      replace (S k <? n)%nat with false by (symmetry; apply Nat.ltb_ge; lia).
      reflexivity.
Qed.

End ReconnectManagerFacts.

(** X16.  A server whose reconnects are all rejected is retried exactly
    [maxAttempts] times and then given up: after [k] rejected reconnects
    the manager has called [reconnectFn] [min(k, maxAttempts)] times,
    each time for that server and configuration; while [k < maxAttempts]
    one retry is pending, its timer armed with the back-off of attempt
    [k]; from [k = maxAttempts] on nothing is pending and no timer is
    armed. *)
Theorem X16_gives_up_after_maxAttempts
    (options : option Reconnect.ReconnectOptions)
    (name : string) (config : ServerConfig.t) (n k : nat) :
  Reconnect.opt_maxAttempts (Reconnect.withDefaults options) = Z.of_nat n ->
  let st :=
    Nat.iter k (failRetry name)
      (ReconnectManager.scheduleReconnect (ReconnectManager.create options)
                                          name config) in
  ReconnectManager.reconnectCalls st = repeat (name, config) (Nat.min k n)
  /\ ReconnectManager.pendingReconnects st = (if (k <? n)%nat then 1 else 0)%nat
  /\ map ReconnectManager.timer_delay (ReconnectManager.armed st)
     = (if (k <? n)%nat
        then [Reconnect.calculateBackoff (Z.of_nat k) options]
        else [])
  /\ ReconnectManager.inFlight st = [].
Proof.
  intros Hmax st. subst st. unfold ReconnectManager.create.
  rewrite (retries_state _ name config n Hmax k).
  destruct (k <? n)%nat eqn:E.
  - apply Nat.ltb_lt in E. simpl.
    rewrite Nat.min_l by lia.
    repeat split; reflexivity.
  - apply Nat.ltb_ge in E. simpl. rewrite Nat.min_r by lia.
    repeat split; reflexivity.
Qed.

Lemma X16_gives_up_witness :
  let st :=
    Nat.iter 5 (failRetry "chess")
      (ReconnectManager.scheduleReconnect (ReconnectManager.create None)
                                          "chess" (Scenario.stdio "chess")) in
  Reconnect.opt_maxAttempts (Reconnect.withDefaults None) = Z.of_nat 5
  /\ ReconnectManager.pendingReconnects st = 0%nat
  /\ List.length (ReconnectManager.reconnectCalls st) = 5%nat
  /\ ReconnectManager.armed st = [].
Proof.
  intros st. split; [reflexivity |].
  destruct (X16_gives_up_after_maxAttempts None "chess"
              (Scenario.stdio "chess") 5 5 eq_refl) as (Hcalls & Hpending & _).
  split; [exact Hpending |]. split; [| reflexivity].
  unfold st. rewrite Hcalls. reflexivity.
Defined.

Section ReconnectInvariant.
Import ReconnectManager.

#[local] Arguments Reconnect.calculateBackoff : simpl never.

Lemma find_Some {A : Type} (p : A -> bool) (l : list A) (x : A) :
  Js.find p l = Some x -> In x l /\ p x = true.
Proof.
  induction l as [| y l IH]; simpl; [discriminate |].
  destruct (p y) eqn:E.
  - intros [= ->]. auto.
  - intros Hf. destruct (IH Hf). auto.
Qed.

Lemma In_clearTimeout (timers : list Timer) (id : nat) (t : Timer) :
  In t (clearTimeout timers id) <-> In t timers /\ timer_id t <> id.
Proof.
  unfold clearTimeout, hasId. rewrite filter_In, negb_true_iff, Nat.eqb_neq.
  reflexivity.
Qed.

Lemma In_cleared (entries : list (string * Retry)) :
  forall (timers : list Timer) (t : Timer),
    In t (fold_left (fun timers entry => clearTimeout timers (timer (snd entry)))
                    entries timers)
    <-> In t timers
        /\ forall name retry, In (name, retry) entries -> timer_id t <> timer retry.
Proof.
  induction entries as [| [n r] entries IH]; intros timers t; simpl.
  - split; [intros Hin; split; [exact Hin | intros ? ? []] | tauto].
  - rewrite IH, In_clearTimeout. simpl. split.
    + intros ((Hin & Hne) & Hrest). split; [exact Hin |].
      intros name retry [[= <- <-] | Hin']; [exact Hne | eauto].
    + intros (Hin & Hall). split; [split; [exact Hin |] |].
      * apply (Hall n r). now left.
      * intros name retry Hin'. apply (Hall name retry). now right.
Qed.

Lemma get_remove_Some {V : Type} (o : list (string * V)) (k k' : string) (v : V) :
  Obj.get (Obj.remove o k) k' = Some v -> k' <> k /\ Obj.get o k' = Some v.
Proof.
  intros Hget. destruct (string_dec k' k) as [-> | Hne].
  - rewrite get_remove in Hget. discriminate.
  - split; [exact Hne |]. rewrite get_remove_other in Hget by congruence.
    exact Hget.
Qed.

Lemma get_set_Some {V : Type} (o : list (string * V)) (k k' : string) (v w : V) :
  Obj.get (Obj.set o k v) k' = Some w ->
  (k' = k /\ w = v) \/ (k' <> k /\ Obj.get o k' = Some w).
Proof.
  intros Hget. destruct (string_dec k' k) as [-> | Hne].
  - rewrite set_get_same in Hget. left. split; congruence.
  - rewrite set_get_other in Hget by exact Hne. now right.
Qed.

(** [scheduleReconnect(name)] restores the invariant even when the entry
    of [name] has lost its timer. *)
Lemma scheduleReconnect_invariant (st : t) (name : string) (config : ServerConfig.t) :
  (forall t, In t (liveTimers st) ->
     0 <= timer_attempt t < Reconnect.opt_maxAttempts (options st)
     /\ timer_delay t
        = Reconnect.calculateBackoff (timer_attempt t)
            (Some (asOptions (options st)))) ->
  (forall n retry, Obj.get (activeRetries st) n = Some retry ->
     0 <= attempt retry < Reconnect.opt_maxAttempts (options st)
     /\ (n <> name ->
         exists t, In t (liveTimers st) /\ timer_id t = timer retry
                   /\ timer_server t = n)) ->
  timersDistinct st ->
  reconnectInvariant (scheduleReconnect st name config)
  /\ timersDistinct (scheduleReconnect st name config).
Proof.
  intros Htimers Hentries [Hinj Hfresh]. unfold scheduleReconnect.
  set (a := match Obj.get (activeRetries st) name with
            | Some existing => attempt existing + 1
            | None => 0
            end).
  assert (Ha : 0 <= a).
  { unfold a. destruct (Obj.get (activeRetries st) name) as [existing |] eqn:E;
      [| lia].
    destruct (Hentries _ _ E) as [Hb _]. lia. }
  destruct (Reconnect.opt_maxAttempts (options st) <=? a) eqn:Emax.
  - split; [split |].
    + exact Htimers.
    + simpl. intros n retry Hget. apply get_remove_Some in Hget.
      destruct Hget as [Hne Hget]. destruct (Hentries _ _ Hget) as [Hb Hlive].
      split; [exact Hb | apply Hlive; exact Hne].
    + split; [exact Hinj | exact Hfresh].
  - apply Z.leb_gt in Emax.
    set (new := {| timer_id := nextTimer st;
                   timer_delay :=
                     Reconnect.calculateBackoff a (Some (asOptions (options st)));
                   timer_server := name; timer_config := config;
                   timer_attempt := a |}).
    assert (Hlive : forall t,
              In t ((armed st ++ [new]) ++ inFlight st)
              <-> t = new \/ In t (liveTimers st)).
    { intros t. unfold liveTimers. rewrite !in_app_iff. simpl.
      split; intros Hin; intuition auto. }
    split; [split |].
    + unfold liveTimers. simpl. intros t Hin. apply Hlive in Hin.
      destruct Hin as [-> | Hin]; [| apply Htimers; exact Hin].
      simpl. split; [lia | reflexivity].
    + unfold liveTimers. simpl. intros n retry Hget.
      apply get_set_Some in Hget.
      destruct Hget as [[-> ->] | [Hne Hget]].
      * simpl. split; [lia |]. exists new. split; [apply Hlive; now left |].
        split; reflexivity.
      * destruct (Hentries _ _ Hget) as [Hb Hl]. split; [exact Hb |].
        destruct (Hl Hne) as (t & Hin & Hid & Hs). exists t.
        split; [apply Hlive; now right | auto].
    + unfold timersDistinct, liveTimers. simpl. split.
      * intros t1 t2 H1 H2 Hid. apply Hlive in H1, H2.
        destruct H1 as [-> | H1], H2 as [-> | H2].
        -- reflexivity.
        -- apply Hfresh in H2. simpl in Hid. lia.
        -- apply Hfresh in H1. simpl in Hid. lia.
        -- apply Hinj; assumption.
      * intros t Hin. apply Hlive in Hin.
        destruct Hin as [-> | Hin]; [simpl; lia |].
        apply Hfresh in Hin. lia.
Qed.

Lemma applyEvent_options (st : t) (e : ReconnectEvent) :
  options (applyEvent st e) = options st.
Proof.
  destruct e as [name config | id | id succeeded |]; simpl.
  - unfold scheduleReconnect.
    destruct (Reconnect.opt_maxAttempts (options st) <=? _); reflexivity.
  - unfold expire. destruct (Js.find (hasId id) (armed st)); reflexivity.
  - unfold settle. destruct (Js.find (hasId id) (inFlight st)); [| reflexivity].
    destruct succeeded; [reflexivity |].
    unfold scheduleReconnect. simpl.
    destruct (Reconnect.opt_maxAttempts (options st) <=? _); reflexivity.
  - reflexivity.
Qed.

(** Dropping live timers keeps what is known of the remaining ones. *)
Lemma fewer_timers (st st' : t) :
  options st' = options st -> nextTimer st' = nextTimer st ->
  (forall t, In t (liveTimers st') -> In t (liveTimers st)) ->
  (forall t, In t (liveTimers st) ->
     0 <= timer_attempt t < Reconnect.opt_maxAttempts (options st)
     /\ timer_delay t
        = Reconnect.calculateBackoff (timer_attempt t)
            (Some (asOptions (options st)))) ->
  timersDistinct st ->
  (forall t, In t (liveTimers st') ->
     0 <= timer_attempt t < Reconnect.opt_maxAttempts (options st')
     /\ timer_delay t
        = Reconnect.calculateBackoff (timer_attempt t)
            (Some (asOptions (options st'))))
  /\ timersDistinct st'.
Proof.
  intros Ho Hn Hsub Htimers [Hinj Hfresh]. rewrite Ho. split; [| split].
  - intros t Hin. apply Htimers, Hsub, Hin.
  - intros t1 t2 H1 H2. apply Hinj; apply Hsub; assumption.
  - intros t Hin. rewrite Hn. apply Hfresh, Hsub, Hin.
Qed.

Lemma applyEvent_invariant (st : t) (e : ReconnectEvent) :
  reconnectInvariant st -> timersDistinct st ->
  reconnectInvariant (applyEvent st e) /\ timersDistinct (applyEvent st e).
Proof.
  intros [Htimers Hentries] Hdistinct.
  pose proof Hdistinct as [Hinj Hfresh].
  destruct e as [name config | id | id succeeded |]; simpl.
  - apply scheduleReconnect_invariant.
    + exact Htimers.
    + intros n retry Hget. destruct (Hentries _ _ Hget) as [Hb Hl]. auto.
    + exact Hdistinct.
  - unfold expire.
    destruct (Js.find (hasId id) (armed st)) as [fired |] eqn:Efind;
      [| split; [split; assumption | exact Hdistinct]].
    apply find_Some in Efind. destruct Efind as [Hfired Hid].
    unfold hasId in Hid. apply Nat.eqb_eq in Hid.
    set (st' := {| activeRetries := activeRetries st; options := options st;
                   armed := clearTimeout (armed st) id;
                   inFlight := inFlight st ++ [fired];
                   nextTimer := nextTimer st;
                   reconnectCalls :=
                     reconnectCalls st ++ [(timer_server fired, timer_config fired)] |}).
    assert (Hsub : forall t, In t (liveTimers st') -> In t (liveTimers st)).
    { intros t. unfold liveTimers. simpl. rewrite !in_app_iff, In_clearTimeout.
      simpl. intros [[Hin _] | [Hin | [<- | []]]]; auto. }
    assert (Hsup : forall t, In t (liveTimers st) -> In t (liveTimers st')).
    { intros t Hin. unfold liveTimers. simpl.
      rewrite !in_app_iff, In_clearTimeout. simpl.
      destruct (Nat.eq_dec (timer_id t) id) as [Heq | Hne].
      - right. right. left. apply Hinj.
        + unfold liveTimers. apply in_or_app. now left.
        + exact Hin.
        + congruence.
      - unfold liveTimers in Hin. apply in_app_or in Hin.
        destruct Hin as [Hin | Hin]; auto. }
    destruct (fewer_timers st st' eq_refl eq_refl Hsub Htimers Hdistinct)
      as [Htimers' Hdistinct'].
    split; [split |]; [exact Htimers' | | exact Hdistinct'].
    intros n retry Hget. destruct (Hentries _ _ Hget) as [Hb (t & Hin & Hrest)].
    split; [exact Hb |]. exists t. split; [apply Hsup; exact Hin | exact Hrest].
  - unfold settle.
    destruct (Js.find (hasId id) (inFlight st)) as [fired |] eqn:Efind;
      [| split; [split; assumption | exact Hdistinct]].
    apply find_Some in Efind. destruct Efind as [Hfired Hid].
    unfold hasId in Hid. apply Nat.eqb_eq in Hid.
    set (st' := {| activeRetries := activeRetries st; options := options st;
                   armed := armed st;
                   inFlight := clearTimeout (inFlight st) id;
                   nextTimer := nextTimer st;
                   reconnectCalls := reconnectCalls st |}).
    assert (Hsub : forall t, In t (liveTimers st') -> In t (liveTimers st)).
    { intros t. unfold liveTimers. simpl. rewrite !in_app_iff, In_clearTimeout.
      tauto. }
    assert (Hkeep : forall t, In t (liveTimers st) ->
                              timer_server t <> timer_server fired ->
                              In t (liveTimers st')).
    { intros t Hin Hserver. unfold liveTimers. simpl.
      rewrite in_app_iff, In_clearTimeout.
      unfold liveTimers in Hin. apply in_app_or in Hin.
      destruct Hin as [Hin | Hin]; [now left | right].
      split; [exact Hin |]. intros Heq. apply Hserver. f_equal.
      apply Hinj; unfold liveTimers; rewrite ?in_app_iff; auto. congruence. }
    destruct (fewer_timers st st' eq_refl eq_refl Hsub Htimers Hdistinct)
      as [Htimers' Hdistinct'].
    assert (Hentries' : forall n retry,
              Obj.get (activeRetries st') n = Some retry ->
              0 <= attempt retry < Reconnect.opt_maxAttempts (options st')
              /\ (n <> timer_server fired ->
                  exists t, In t (liveTimers st') /\ timer_id t = timer retry
                            /\ timer_server t = n)).
    { intros n retry Hget. destruct (Hentries _ _ Hget) as [Hb (t & Hin & Ht & Hs)].
      split; [exact Hb |]. intros Hne. exists t.
      split; [apply Hkeep; [exact Hin | congruence] | auto]. }
    destruct succeeded.
    + split; [split |]; [exact Htimers' | | exact Hdistinct'].
      simpl. intros n retry Hget. apply get_remove_Some in Hget.
      destruct Hget as [Hne Hget].
      destruct (Hentries' _ _ Hget) as [Hb Hl]. split; [exact Hb | auto].
    + apply (scheduleReconnect_invariant st'); assumption.
  - unfold cancelAll.
    set (st' := {| activeRetries := []; options := options st;
                   armed := fold_left
                              (fun timers entry =>
                                 clearTimeout timers (timer (snd entry)))
                              (activeRetries st) (armed st);
                   inFlight := inFlight st; nextTimer := nextTimer st;
                   reconnectCalls := reconnectCalls st |}).
    assert (Hsub : forall t, In t (liveTimers st') -> In t (liveTimers st)).
    { intros t. unfold liveTimers. simpl. rewrite !in_app_iff, In_cleared.
      tauto. }
    destruct (fewer_timers st st' eq_refl eq_refl Hsub Htimers Hdistinct)
      as [Htimers' Hdistinct'].
    split; [split |]; [exact Htimers' | | exact Hdistinct'].
    simpl. intros n retry Hget. discriminate.
Qed.

Lemma runEvents_invariant (events : list ReconnectEvent) :
  forall st,
    reconnectInvariant st -> timersDistinct st ->
    reconnectInvariant (runEvents events st) /\ timersDistinct (runEvents events st).
Proof.
  induction events as [| e events IH]; intros st Hinv Hdistinct; simpl.
  - auto.
  - destruct (applyEvent_invariant st e Hinv Hdistinct) as [Hinv' Hdistinct'].
    apply IH; assumption.
Qed.

Lemma runEvents_options (events : list ReconnectEvent) :
  forall st, options (runEvents events st) = options st.
Proof.
  induction events as [| e events IH]; intros st; simpl; [reflexivity |].
  unfold runEvents in IH. rewrite IH. apply applyEvent_options.
Qed.

End ReconnectInvariant.

(** X17.  Whatever is scheduled, whichever timers expire, however the
    reconnects settle and whenever [cancelAll] is called, the reconnect
    manager keeps its books: every live timer is for an attempt in
    [0, maxAttempts) and waits the back-off of that attempt, and every
    pending entry is for an attempt in [0, maxAttempts) and has a live
    timer of its own server. *)
Theorem X17_reconnect_manager_invariant
    (options : option Reconnect.ReconnectOptions)
    (events : list ReconnectEvent) :
  reconnectInvariant (runEvents events (ReconnectManager.create options))
  /\ ReconnectManager.options (runEvents events (ReconnectManager.create options))
     = Reconnect.withDefaults options.
Proof.
  split; [| apply runEvents_options].
  apply runEvents_invariant.
  - split.
    + intros t [].
    + intros name retry Hget. discriminate.
  - split.
    + intros t1 t2 [].
    + intros t [].
Qed.

(** X18.  [cancelAll] leaves nothing pending and clears the timer of
    every entry, but it does not reach a reconnect that is in flight:
    when that reconnect is rejected afterwards (and [maxAttempts] is
    positive) the server is scheduled again, from attempt [0]. *)
Theorem X18_cancelAll_misses_in_flight (st : ReconnectManager.t) :
  ReconnectManager.pendingReconnects (ReconnectManager.cancelAll st) = 0%nat
  /\ (forall name retry t,
        Obj.get (ReconnectManager.activeRetries st) name = Some retry ->
        In t (ReconnectManager.armed (ReconnectManager.cancelAll st)) ->
        ReconnectManager.timer_id t <> ReconnectManager.timer retry)
  /\ ReconnectManager.inFlight (ReconnectManager.cancelAll st)
     = ReconnectManager.inFlight st
  /\ (forall id t,
        Js.find (ReconnectManager.hasId id) (ReconnectManager.inFlight st) = Some t ->
        0 < Reconnect.opt_maxAttempts (ReconnectManager.options st) ->
        ReconnectManager.activeRetries
          (ReconnectManager.settle (ReconnectManager.cancelAll st) id false)
        = [ (ReconnectManager.timer_server t,
             {| ReconnectManager.timer := ReconnectManager.nextTimer st;
                ReconnectManager.attempt := 0 |}) ]).
Proof.
  split; [reflexivity |]. split; [| split; [reflexivity |]].
  - intros name retry t Hget Hin. simpl in Hin. apply In_cleared in Hin.
    destruct Hin as [_ Hall]. apply (Hall name). apply get_In. exact Hget.
  - intros id t Hfind Hmax. unfold ReconnectManager.settle. simpl.
    rewrite Hfind. unfold ReconnectManager.scheduleReconnect. simpl.
    replace (Reconnect.opt_maxAttempts (ReconnectManager.options st) <=? 0)
      with false by (symmetry; apply Z.leb_gt; exact Hmax).
    reflexivity.
Qed.

(* ===================================================================== *)
(** * Further properties: fuzzy matching *)
(* ===================================================================== *)

Section FuzzyMore.
Import Fuzzy.

Lemma matched_sublist (tl : list ascii) :
  forall (ql : list ascii) (pos : nat),
    snd (matchPositions tl ql pos) = [] ->
    sublist (map toLowerChar ql) (map toLowerChar tl).
Proof.
  induction tl as [| c tl IH]; intros ql pos Hall.
  - destruct ql as [| d ql]; simpl in Hall; [constructor | discriminate].
  - destruct ql as [| d ql]; [apply sublist_nil_l |].
    simpl in Hall. simpl.
    destruct (Ascii.eqb (toLowerChar c) (toLowerChar d)) eqn:E.
    + apply Ascii.eqb_eq in E. rewrite E.
      destruct (matchPositions tl ql (S pos)) as [ps un] eqn:Em.
      simpl in Hall. apply sublist_skip.
      apply (IH ql (S pos)). now rewrite Em.
    + apply sublist_cons. apply (IH (d :: ql) (S pos)). exact Hall.
Qed.

Lemma unmatched_scores_nothing (query target : string) :
  snd (matchPositions (list_ascii_of_string target)
                      (list_ascii_of_string query) 0) <> [] ->
  fuzzyScore query target = 0.
Proof.
  intros Hun. rewrite fuzzyScore_exact.
  unfold referenceScore, matchesAtStart.
  destruct (matchPositions (list_ascii_of_string target)
                           (list_ascii_of_string query) 0) as [ps un].
  simpl in Hun. destruct un as [| u un]; [congruence |].
  destruct ps as [| [| p] ps]; reflexivity.
Qed.

Lemma toLowerCase_empty (s : string) :
  String.eqb s "" = String.eqb (toLowerCase s) "".
Proof. destruct s; reflexivity. Qed.

Lemma fuzzyScore_query_case (query query' target : string) :
  toLowerCase query = toLowerCase query' ->
  fuzzyScore query target = fuzzyScore query' target.
Proof.
  intros Hq. unfold fuzzyScore.
  rewrite (toLowerCase_empty query), (toLowerCase_empty query'), Hq.
  reflexivity.
Qed.

Lemma map_fst_scored {T : Type} (score : T -> Z) (keep : Z -> bool)
    (items : list T) :
  map fst (List.filter (fun entry : T * Z => keep (snd entry))
                       (map (fun item => (item, score item)) items))
  = List.filter (fun item => keep (score item)) items.
Proof.
  induction items as [| x items IH]; simpl; [reflexivity |].
  destruct (keep (score x)); simpl; now rewrite IH.
Qed.

Lemma sorted_by_score {T : Type} (score : T -> Z) (l : list (T * Z)) :
  (forall entry, In entry l -> snd entry = score (fst entry)) ->
  StronglySorted (fun a b : T * Z => (snd b <=? snd a) = true) l ->
  StronglySorted (fun x y => score y <= score x) (map fst l).
Proof.
  intros Hscore Hsorted. induction Hsorted as [| a l Hsorted IH Hall]; simpl.
  - constructor.
  - constructor.
    + apply IH. intros entry Hin. apply Hscore. now right.
    + rewrite List.Forall_forall in Hall. apply List.Forall_forall.
      intros y Hy. apply in_map_iff in Hy. destruct Hy as (b & <- & Hb).
      specialize (Hall b Hb). apply Z.leb_le in Hall.
      rewrite <- (Hscore a) by now left.
      rewrite <- (Hscore b) by now right. exact Hall.
Qed.

End FuzzyMore.

(** X19.  [fuzzyScore] looks at the query only up to case, and it is [0]
    unless the characters of the query occur in the target in their
    order, ignoring case (a match with long gaps can still score [0] or
    less). *)
Theorem X19_fuzzyScore_subsequence (query target : string) :
  (forall query',
     Fuzzy.toLowerCase query' = Fuzzy.toLowerCase query ->
     Fuzzy.fuzzyScore query' target = Fuzzy.fuzzyScore query target)
  /\ (Fuzzy.fuzzyScore query target <> 0 ->
      sublist (lowerChars query) (lowerChars target)).
Proof.
  split.
  - intros query' Hq. apply fuzzyScore_query_case. exact Hq.
  - intros Hscore. unfold lowerChars.
    apply (matched_sublist _ _ 0%nat).
    destruct (snd (Fuzzy.matchPositions (list_ascii_of_string target)
                                        (list_ascii_of_string query) 0))
      as [| u un] eqn:Hun; [reflexivity |].
    exfalso. apply Hscore. apply unmatched_scores_nothing.
    rewrite Hun. discriminate.
Qed.

(** X20.  For a non-empty query [fuzzyFilter] returns the items whose
    score is positive, each as often as it was given, in order of
    decreasing score. *)
Theorem X20_fuzzyFilter_ranked {T : Type} (query : string) (items : list T)
    (getText : T -> string) :
  query <> ""%string ->
  Permutation (Fuzzy.fuzzyFilter query items getText)
              (List.filter (fun item => 0 <? Fuzzy.fuzzyScore query (getText item))
                           items)
  /\ StronglySorted
       (fun x y => Fuzzy.fuzzyScore query (getText y)
                   <= Fuzzy.fuzzyScore query (getText x))
       (Fuzzy.fuzzyFilter query items getText).
Proof.
  intros Hq. unfold Fuzzy.fuzzyFilter.
  replace (String.eqb query "") with false
    by (symmetry; apply String.eqb_neq; exact Hq).
  set (score := fun item => Fuzzy.fuzzyScore query (getText item)).
  set (before := fun a b : T * Z => snd b <=? snd a).
  set (scored := List.filter (fun entry : T * Z => 0 <? snd entry)
                             (map (fun item => (item, score item)) items)).
  split.
  - apply perm_trans with (l' := map fst scored).
    + apply Permutation_map. apply sort_Permutation.
    + pose proof (map_fst_scored score (fun z => 0 <? z) items) as Heq.
      change (map fst scored
              = List.filter
                  (fun item => 0 <? Fuzzy.fuzzyScore query (getText item)) items)
        in Heq.
      rewrite Heq. reflexivity.
  - apply (sorted_by_score score).
    + intros entry Hin. apply sort_In in Hin. unfold scored in Hin.
      apply filter_In in Hin. destruct Hin as [Hin _].
      apply in_map_iff in Hin. destruct Hin as (item & <- & _). reflexivity.
    + apply sort_sorted.
      * intros x y Hxy. unfold before in *. apply Z.leb_gt in Hxy.
        apply Z.leb_le. lia.
      * intros x y z Hxy Hyz. unfold before in *.
        apply Z.leb_le in Hxy, Hyz. apply Z.leb_le. lia.
Qed.

Lemma X20_fuzzyFilter_witness :
  "crt"%string <> ""%string
  /\ Fuzzy.fuzzyFilter "crt" ["chess_resign"; "create_game"; "list"]%string
                       (fun name => name)
     = ["create_game"]%string
  /\ StronglySorted
       (fun x y => Fuzzy.fuzzyScore "crt" y <= Fuzzy.fuzzyScore "crt" x)
       (Fuzzy.fuzzyFilter "crt" ["chess_resign"; "create_game"; "list"]%string
                          (fun name => name)).
Proof.
  assert (Hq : "crt"%string <> ""%string) by discriminate.
  split; [exact Hq |]. split; [vm_compute; reflexivity |].
  apply (X20_fuzzyFilter_ranked "crt"
           ["chess_resign"; "create_game"; "list"]%string (fun name => name) Hq).
Defined.

(* ===================================================================== *)
(** * Further properties: the agent loop *)
(* ===================================================================== *)

Section AgentLoopMore.
Context `{JsRuntime} {C : Type} (client : AgentLoop.ChatClient C).
Import AgentLoop.

Lemma requestsOf_app (a b : list Event) :
  Scenario.requestsOf (a ++ b) = Scenario.requestsOf a ++ Scenario.requestsOf b.
Proof. unfold Scenario.requestsOf. apply flat_map_app. Qed.

Lemma requestsOf_deltas (texts : list string) :
  Scenario.requestsOf (map TextDelta texts) = [].
Proof. induction texts as [| x texts IH]; simpl; [reflexivity | exact IH]. Qed.

Lemma sameFleet_refl (m : ServerManager.t) : sameFleet m m.
Proof. repeat split. Qed.

Lemma sameFleet_trans (m1 m2 m3 : ServerManager.t) :
  sameFleet m1 m2 -> sameFleet m2 m3 -> sameFleet m1 m3.
Proof.
  intros (Hu & Hc & Hs & Hn & Ht) (Hu' & Hc' & Hs' & Hn' & Ht').
  repeat split; try congruence.
  intros Hnone. specialize (Ht Hnone). subst m2. auto.
Qed.

Lemma callTool_sameFleet (m : ServerManager.t) (name : string) (args : JsObject) :
  sameFleet m (snd (ServerManager.callTool m name args)).
Proof.
  unfold ServerManager.callTool, ServerManager.callToolWith.
  destruct (ServerManager.toolsetManager m) as [tm |] eqn:Etm.
  - destruct (ToolsetManager.isMetaTool name).
    + destruct (ToolsetManager.handleMetaTool tm name args) as [r tm'].
      simpl. repeat split. congruence.
    + destruct (ServerManager.noPrefix m); apply sameFleet_refl.
  - destruct (ServerManager.noPrefix m); apply sameFleet_refl.
Qed.

Lemma executeToolCall_sameFleet (m : ServerManager.t) (name : string)
    (input : JsObject) :
  sameFleet m (snd (ToolAdapter.executeToolCall m name input)).
Proof.
  unfold ToolAdapter.executeToolCall.
  pose proof (callTool_sameFleet m name input) as Hsame.
  destruct (ServerManager.callTool m name input) as [[r | err] m']; exact Hsame.
Qed.


Lemma resolveServerName_thrown (m : ServerManager.t) (name err : string) :
  resolveServerName m name = Throw err <-> ServerManager.getAllTools m = Throw err.
Proof.
  unfold resolveServerName.
  destruct (ServerManager.getAllTools m) as [allTools | err'].
  - destruct (Js.find _ allTools); split; discriminate.
  - split; intros [= <-]; reflexivity.
Qed.

Lemma getFilteredTools_returns (m : ServerManager.t) (name : string)
    (c : UpstreamClient.t) :
  questionFreeFleet m ->
  exists filtered, ServerManager.getFilteredTools m name c = Return filtered.
Proof.
  intros Hfree. unfold ServerManager.getFilteredTools.
  apply filterTools_returns.
  destruct (ServerManager.serverConfigs m !! name) as [config |] eqn:Hc;
    [| reflexivity].
  simpl. apply (Hfree name config Hc).
Qed.

Lemma questionFreeFleet_returns (m : ServerManager.t) :
  questionFreeFleet m ->
  exists catalog, ServerManager.getAllTools m = Return catalog.
Proof.
  intros Hfree. apply getAllTools_returns. intros name c _ _.
  apply getFilteredTools_returns. exact Hfree.
Qed.

Lemma questionFreeFleet_sameFleet (m m' : ServerManager.t) :
  sameFleet m m' -> questionFreeFleet m -> questionFreeFleet m'.
Proof.
  intros (_ & Hc & _) Hfree name config Hget. rewrite Hc in Hget.
  apply (Hfree name config Hget).
Qed.

(** The tool calls of one turn. *)
Lemma runToolCalls_spec (uses : list ContentBlock) :
  forall (manager : ServerManager.t) (events : list Event)
         (toolResults : list ContentBlock),
  exists new results,
    snd (fst (runToolCalls uses manager events toolResults)) = events ++ new
    /\ Scenario.requestsOf new = []
    /\ snd (runToolCalls uses manager events toolResults) = toolResults ++ results
    /\ sameFleet manager
         (snd (fst (fst (runToolCalls uses manager events toolResults))))
    /\ match fst (fst (fst (runToolCalls uses manager events toolResults))) with
       | Return _ => Forall2 answers (toolUseBlocks uses) results
       | Throw err =>
           exists answered use unanswered,
             toolUseBlocks uses = answered ++ use :: unanswered
             /\ Forall2 answers answered results
             /\ ServerManager.getAllTools
                  (snd (fst (fst (runToolCalls uses manager events toolResults))))
                = Throw err
       end
    /\ (questionFreeFleet manager ->
        fst (fst (fst (runToolCalls uses manager events toolResults)))
        = Return tt).
Proof.
  induction uses as [| block uses IH]; intros manager events toolResults.
  - exists [], []. simpl. rewrite !app_nil_r.
    repeat split; try reflexivity. constructor.
  - destruct block as [text | id name input | id content err | raw];
      simpl; try apply IH.
    destruct (resolveServerName manager name) as [serverName | err] eqn:Hres.
    + pose proof (executeToolCall_sameFleet manager name input) as Hstep.
      destruct (ToolAdapter.executeToolCall manager name input) as [executed m'].
      simpl in Hstep.
      destruct (IH m'
                  ((events ++ [ToolCall name; ToolCallStart id name serverName input])
                   ++ [ToolCallEnd id (ToolAdapter.result executed)
                                   (ToolAdapter.isError executed)])
                  (toolResults
                   ++ [ToolResult id (ToolAdapter.result executed)
                                  (ToolAdapter.isError executed)]))
        as (new & results & Hnew & Hreq & Hresults & Hsame & Hpair & Hreturns).
      exists ([ToolCall name;
               ToolCallStart id name serverName input;
               ToolCallEnd id (ToolAdapter.result executed)
                           (ToolAdapter.isError executed)] ++ new),
             (ToolResult id (ToolAdapter.result executed)
                         (ToolAdapter.isError executed) :: results).
      split; [rewrite Hnew, <- !app_assoc; reflexivity |].
      split; [simpl; exact Hreq |].
      split; [rewrite Hresults, <- !app_assoc; reflexivity |].
      split; [eapply sameFleet_trans; [exact Hstep | exact Hsame] |].
      split.
      * destruct (fst (fst (fst (runToolCalls uses m' _ _)))) as [done | err].
        -- simpl. constructor; [reflexivity | exact Hpair].
        -- destruct Hpair as (answered & use & unanswered & Huses & Hans & Hthrown).
           exists (ToolUse id name input :: answered), use, unanswered.
           split; [simpl; now rewrite Huses |].
           split; [constructor; [reflexivity | exact Hans] | exact Hthrown].
      * intros Hfree. apply Hreturns.
        eapply questionFreeFleet_sameFleet; [exact Hstep | exact Hfree].
    + exists [], []. simpl. rewrite !app_nil_r.
      split; [reflexivity |]. split; [reflexivity |]. split; [reflexivity |].
      split; [apply sameFleet_refl |]. split.
      * exists [], (ToolUse id name input), (toolUseBlocks uses).
        split; [reflexivity |]. split; [constructor |].
        apply resolveServerName_thrown in Hres. exact Hres.
      * intros Hfree. apply resolveServerName_thrown in Hres.
        destruct (questionFreeFleet_returns manager Hfree) as [catalog Hc].
        congruence.
Qed.

#[local] Arguments runToolCalls : simpl never.

(** The turns of the loop. *)
Lemma turns_spec (tools : list Tool.t) (maxTurns remaining : nat) :
  forall (turn : nat) (st : State C),
  exists newEvents newMessages,
    events (snd (turns client tools maxTurns remaining turn st))
    = events st ++ newEvents
    /\ (List.length (Scenario.requestsOf newEvents) <= remaining)%nat
    /\ messages (snd (turns client tools maxTurns remaining turn st))
       = messages st ++ newMessages
    /\ sameFleet (manager st)
                 (manager (snd (turns client tools maxTurns remaining turn st))).
Proof.
  induction remaining as [| remaining IH]; intros turn st; simpl.
  - exists [TextDelta reachedMaximum], []. rewrite app_nil_r.
    repeat split; try reflexivity; simpl; lia.
  - destruct (createStream client (clientState st) (messages st) tools)
      as [[response | err] c]; simpl.
    + destruct (toolUseBlocks (blocks response)) as [| use uses] eqn:Euses; simpl.
      * eexists. eexists.
        split; [rewrite <- !app_assoc; reflexivity |].
        split; [| split; [reflexivity | apply sameFleet_refl]].
        simpl. rewrite requestsOf_app, requestsOf_deltas. simpl. lia.
      * pose proof (runToolCalls_spec (use :: uses) (manager st)
                      (((events st ++ [TurnStart (turn + 1) maxTurns])
                        ++ [Request (messages st) tools])
                       ++ map TextDelta (textDeltas response)) [])
          as (new & results & Hnew & Hreq & _ & Hsame & _).
        destruct (runToolCalls (use :: uses) (manager st) _ [])
          as [[[[done | err] manager'] events'] toolResults];
          simpl in Hnew, Hsame; subst events'.
        -- edestruct IH as (newEvents & newMessages & Hev & Hcount & Hmsg & Hsame').
           eexists. eexists.
           split; [rewrite Hev; simpl; rewrite <- !app_assoc; reflexivity |].
           split; [| split; [rewrite Hmsg; simpl; rewrite <- !app_assoc;
                             reflexivity |]].
           ++ simpl. rewrite !requestsOf_app, requestsOf_deltas, Hreq. simpl. lia.
           ++ eapply sameFleet_trans; [exact Hsame | exact Hsame'].
        -- simpl. eexists. eexists.
           split; [rewrite <- !app_assoc; reflexivity |].
           split; [| split; [reflexivity | exact Hsame]].
           simpl. rewrite !requestsOf_app, requestsOf_deltas, Hreq. simpl. lia.
    + eexists. exists [].
      split; [rewrite <- !app_assoc; reflexivity |].
      split; [simpl; lia |].
      split; [now rewrite app_nil_r | apply sameFleet_refl].
Qed.

End AgentLoopMore.

(** X21.  When the fleet cannot read its catalog on entry, [runAgentLoop]
    throws that error and leaves the conversation, the manager and the
    chat client as they were: nothing is sent and the user's message is
    not recorded.  Otherwise it sends at most [maxTurns] requests to the
    chat client (20 when no maximum is given), and it only appends to the
    conversation: the messages afterwards are the messages before, then
    the user's message, then what the turns added. *)
Theorem X21_agent_loop_bounded `{JsRuntime} {C : Type}
    (client : AgentLoop.ChatClient C) (userMessage : AgentLoop.Content)
    (maxTurns : option nat) (st : AgentLoop.State C) :
  match ServerManager.getAllTools (AgentLoop.manager st) with
  | Throw err =>
      AgentLoop.runAgentLoop client userMessage maxTurns st = (Throw err, st)
  | Return _ =>
      exists newEvents newMessages,
        AgentLoop.events
          (snd (AgentLoop.runAgentLoop client userMessage maxTurns st))
        = AgentLoop.events st ++ newEvents
        /\ (List.length (Scenario.requestsOf newEvents)
            <= default 20 maxTurns)%nat
        /\ AgentLoop.messages
             (snd (AgentLoop.runAgentLoop client userMessage maxTurns st))
           = AgentLoop.messages st
             ++ {| AgentLoop.role := AgentLoop.user;
                   AgentLoop.content := userMessage |} :: newMessages
  end.
Proof.
  unfold AgentLoop.runAgentLoop.
  destruct (ServerManager.getAllTools (AgentLoop.manager st))
    as [catalog | err]; [| reflexivity].
  match goal with
  | |- context [AgentLoop.turns client ?tools ?n ?n 0%nat ?st0] =>
      destruct (turns_spec client tools n n 0%nat st0)
        as (newEvents & newMessages & Hev & Hcount & Hmsg & _)
  end.
  exists newEvents, newMessages. simpl in Hev, Hmsg.
  rewrite Hev, Hmsg, <- app_assoc. auto.
Qed.

(** X22.  [runAgentLoop] never connects, disconnects or reconfigures an
    upstream: afterwards the manager has the same upstreams in the same
    order, the same configurations and the same naming mode; without a
    toolset controller it is unchanged altogether. *)
Theorem X22_agent_loop_keeps_fleet `{JsRuntime} {C : Type}
    (client : AgentLoop.ChatClient C) (userMessage : AgentLoop.Content)
    (maxTurns : option nat) (st : AgentLoop.State C) :
  sameFleet (AgentLoop.manager st)
            (AgentLoop.manager
               (snd (AgentLoop.runAgentLoop client userMessage maxTurns st))).
Proof.
  unfold AgentLoop.runAgentLoop.
  destruct (ServerManager.getAllTools (AgentLoop.manager st))
    as [catalog | err]; [| apply sameFleet_refl].
  match goal with
  | |- context [AgentLoop.turns client ?tools ?n ?n 0%nat ?st0] =>
      destruct (turns_spec client tools n n 0%nat st0)
        as (_ & _ & _ & _ & _ & Hsame)
  end.
  exact Hsame.
Qed.


(** A turn that stops early.  The upstream [vitest] has the filter
    [{allowed: ["?"]}] and is hidden behind the toolset [testing]; the
    response asks to load [testing] and then to create a chess game.  The
    first call is answered (with the error of the count), the toolset is
    loaded all the same, and the second call finds the catalog
    unreadable: the loop throws with one result for two [tool_use]
    blocks. *)
Example tool_calls_stop_early :
  let m := ServerManager.setToolsetManager Scenario.questionFleet
             (ToolsetManager.create
                [ ("testing"%string,
                   {| ToolsetManager.servers := ["vitest"%string];
                      ToolsetManager.description := None |}) ]
                (Scenario.toolCount Scenario.questionFleet)) in
  let uses := [ AgentLoop.ToolUse "t1" "spike__load_toolset"
                  [("name"%string, JStr "testing")];
                AgentLoop.ToolUse "t2" "chess__chess_create_game" [] ] in
  let out := AgentLoop.runToolCalls (H := scenarioRuntime) uses m [] [] in
  (exists catalog, ServerManager.getAllTools m = Return catalog)
  /\ fst (fst (fst out)) = Throw (Glob.nothingToRepeat "?")
  /\ snd out
     = [ AgentLoop.ToolResult "t1" ("Error: " +:+ Glob.nothingToRepeat "?")
                              true ].
Proof. cbv zeta. split; [eexists |]; vm_compute; auto. Qed.

(* ===================================================================== *)
(** * Further properties: slash commands *)
(* ===================================================================== *)

Section SlashMore.
Context `{JsRuntime}.
Import Slash.

Lemma find_In {A : Type} (p : A -> bool) (l : list A) (x : A) :
  Js.find p l = Some x -> In x l.
Proof.
  induction l as [| y l IH]; simpl; [discriminate |].
  destruct (p y); [intros [= ->]; now left | intros Hf; right; auto].
Qed.

Lemma fuzzyFilter_In {T : Type} (query : string) (items : list T)
    (getText : T -> string) (x : T) :
  In x (Fuzzy.fuzzyFilter query items getText) -> In x items.
Proof.
  unfold Fuzzy.fuzzyFilter. destruct (String.eqb query ""); [intros [] |].
  intros Hin. apply in_map_iff in Hin. destruct Hin as ([y s] & <- & Hin).
  apply sort_In in Hin. apply filter_In in Hin. destruct Hin as [Hin _].
  apply in_map_iff in Hin. destruct Hin as (z & [= <- _] & Hz). exact Hz.
Qed.

Lemma resolveToolName_In (command : string) (tools : list NamespacedTool.t)
    (tool : NamespacedTool.t) :
  resolveToolName command tools = Some tool -> In tool tools.
Proof.
  unfold resolveToolName.
  destruct (Js.find (fun t => String.eqb (NamespacedTool.namespacedName t) command)
                    tools) as [byName |] eqn:E1.
  { intros Heq. injection Heq as <-. eapply find_In. exact E1. }
  destruct (Js.find (fun t => String.eqb (NamespacedTool.originalName t) command)
                    tools) as [byOriginal |] eqn:E2.
  { intros Heq. injection Heq as <-. eapply find_In. exact E2. }
  destruct (Js.find (fun t => String.eqb (strippedOf t) command) tools)
    as [byStripped |] eqn:E3.
  { intros Heq. injection Heq as <-. eapply find_In. exact E3. }
  destruct (Fuzzy.fuzzyFilter command tools strippedOf) as [| best rest] eqn:E4;
    [discriminate |].
  assert (Hbest : In best tools).
  { apply (fuzzyFilter_In command tools strippedOf). rewrite E4. now left. }
  destruct rest as [| runnerUp rest];
    [intros Heq; injection Heq as <-; exact Hbest |].
  destruct (_ <=? _); intros Heq; injection Heq as <-; exact Hbest.
Qed.

(** What [execute] does. *)
Lemma execute_spec (ctx : SlashCommandContext) (tool : NamespacedTool.t)
    (mergedArgs : JsObject) :
  let executed :=
    ToolAdapter.executeToolCall (manager ctx)
      (NamespacedTool.namespacedName tool) mergedArgs in
  execute ctx tool mergedArgs
  = (Called tool mergedArgs (ToolAdapter.result (fst executed))
            (ToolAdapter.isError (fst executed)),
     {| manager := snd executed;
        sessionState :=
          bookkeeping (sessionState ctx) tool
                      (ToolAdapter.result (fst executed))
                      (ToolAdapter.isError (fst executed));
        rl := rl ctx |}).
Proof.
  unfold execute.
  destruct (ToolAdapter.executeToolCall (manager ctx)
              (NamespacedTool.namespacedName tool) mergedArgs) as [executed m'].
  reflexivity.
Qed.

(** The outcomes of a direct invocation. *)
Lemma handleDirectToolCall_cases (command argsRaw : string)
    (ctx : SlashCommandContext) :
  (notCalled (fst (handleDirectToolCall command argsRaw ctx))
   /\ snd (handleDirectToolCall command argsRaw ctx) = ctx)
  \/ exists catalog tool mergedArgs,
       ServerManager.getAllTools (manager ctx) = Return catalog
       /\ In tool catalog
       /\ handleDirectToolCall command argsRaw ctx = execute ctx tool mergedArgs.
Proof.
  unfold handleDirectToolCall.
  destruct (ServerManager.getAllTools (manager ctx)) as [catalog | err];
    [| left; split; [exact I | reflexivity]].
  unfold directCall.
  destruct (resolveToolName command catalog)
    as [tool |] eqn:Etool; [| left; split; [exact I | reflexivity]].
  apply resolveToolName_In in Etool.
  destruct (if String.eqb argsRaw "" then Some (JObj []) else JSON_parse argsRaw)
    as [userArgs |]; [| left; split; [exact I | reflexivity]].
  destruct (List.filter _ (ToolAdapter.getRequiredParams _)) as [| p missing'].
  { right. eauto 6. }
  destruct (rl ctx) as [ask |]; [| left; split; [exact I | reflexivity]].
  match goal with
  | |- context [promptAll ?a ?b ?c ?d] => destruct (promptAll a b c d) as [args | name]
  end.
  - right. eauto 6.
  - left. split; [exact I | reflexivity].
Qed.

Lemma handleBuiltinCommand_notCalled (command argsRaw : string)
    (ctx : SlashCommandContext) :
  notCalled (handleBuiltinCommand command argsRaw ctx).
Proof.
  unfold handleBuiltinCommand.
  destruct (String.eqb command "tools");
    [destruct (ServerManager.getAllTools (manager ctx)); exact I |].
  destruct (String.eqb command "servers"); [| exact I].
  destruct (mapThrowing _ _); exact I.
Qed.

Lemma indexOf_app_space (cmd rest : string) :
  noWhitespace cmd = true ->
  Js.indexOf (cmd +:+ String " " rest) " " = Some (String.length cmd).
Proof.
  induction cmd as [| c cmd IH]; intros Hno.
  - reflexivity.
  - unfold noWhitespace in Hno. simpl in Hno. apply andb_prop in Hno.
    destruct Hno as [Hc Hno]. rewrite append_cons. simpl.
    destruct (Ascii.eqb c " ") eqn:E.
    + apply Ascii.eqb_eq in E. subst c. discriminate Hc.
    + rewrite (IH Hno). reflexivity.
Qed.

Lemma indexOf_none (cmd : string) :
  noWhitespace cmd = true -> Js.indexOf cmd " " = None.
Proof.
  induction cmd as [| c cmd IH]; intros Hno; [reflexivity |].
  unfold noWhitespace in Hno. simpl in Hno. apply andb_prop in Hno.
  destruct Hno as [Hc Hno]. simpl.
  destruct (Ascii.eqb c " ") eqn:E.
  - apply Ascii.eqb_eq in E. subst c. discriminate Hc.
  - rewrite (IH Hno). reflexivity.
Qed.

Lemma sliceTo_app (p r : string) : Js.sliceTo (p +:+ r) (String.length p) = p.
Proof.
  induction p as [| c p IH]; [reflexivity |].
  rewrite append_cons. simpl. now rewrite IH.
Qed.

Lemma trimStart_noWhitespace (s : string) :
  noWhitespace s = true -> trimStart s = s.
Proof.
  destruct s as [| c s]; [reflexivity |].
  unfold noWhitespace. simpl. intros Hno. apply andb_prop in Hno.
  destruct Hno as [Hc _]. apply negb_true_iff in Hc. now rewrite Hc.
Qed.

Lemma trimEnd_noWhitespace (s : string) :
  noWhitespace s = true -> trimEnd s = s.
Proof.
  induction s as [| c s IH]; [reflexivity |].
  unfold noWhitespace. simpl. intros Hno. apply andb_prop in Hno.
  destruct Hno as [Hc Hno]. apply negb_true_iff in Hc.
  rewrite (IH Hno). destruct s; [now rewrite Hc | reflexivity].
Qed.

Lemma trim_noWhitespace (s : string) : noWhitespace s = true -> trim s = s.
Proof.
  intros Hno. unfold trim. rewrite (trimStart_noWhitespace s Hno).
  apply trimEnd_noWhitespace. exact Hno.
Qed.

End SlashMore.

(** X24.  A slash command either calls no tool and leaves the manager and
    the session exactly as they were (built-in command, unreadable
    catalog, no matching tool, invalid JSON arguments, cancelled prompt,
    missing parameters), or it calls one tool of the catalog under its
    namespaced name, once, reports the text and error flag of that call,
    and records it in the session. *)
Theorem X24_slash_command_effects `{JsRuntime} (input : string)
    (ctx : Slash.SlashCommandContext) :
  (notCalled (fst (Slash.handleSlashCommand input ctx))
   /\ snd (Slash.handleSlashCommand input ctx) = ctx)
  \/ exists catalog tool mergedArgs,
       ServerManager.getAllTools (Slash.manager ctx) = Return catalog
       /\ In tool catalog
       /\ Slash.handleSlashCommand input ctx
          = (Slash.Called tool mergedArgs
               (ToolAdapter.result
                  (fst (ToolAdapter.executeToolCall (Slash.manager ctx)
                          (NamespacedTool.namespacedName tool) mergedArgs)))
               (ToolAdapter.isError
                  (fst (ToolAdapter.executeToolCall (Slash.manager ctx)
                          (NamespacedTool.namespacedName tool) mergedArgs))),
             {| Slash.manager :=
                  snd (ToolAdapter.executeToolCall (Slash.manager ctx)
                         (NamespacedTool.namespacedName tool) mergedArgs);
                Slash.sessionState :=
                  Slash.bookkeeping (Slash.sessionState ctx) tool
                    (ToolAdapter.result
                       (fst (ToolAdapter.executeToolCall (Slash.manager ctx)
                               (NamespacedTool.namespacedName tool) mergedArgs)))
                    (ToolAdapter.isError
                       (fst (ToolAdapter.executeToolCall (Slash.manager ctx)
                               (NamespacedTool.namespacedName tool) mergedArgs)));
                Slash.rl := Slash.rl ctx |}).
Proof.
  unfold Slash.handleSlashCommand.
  destruct (existsb _ Slash.BUILTIN_COMMANDS);
    [left; split; [apply handleBuiltinCommand_notCalled | reflexivity] |].
  destruct (handleDirectToolCall_cases
              (Slash.command (Slash.parseSlashInput input))
              (Slash.argsRaw (Slash.parseSlashInput input)) ctx)
    as [Hnone | (catalog & tool & mergedArgs & Hcatalog & Hin & Hrun)];
    [left; exact Hnone | right].
  exists catalog, tool, mergedArgs.
  split; [exact Hcatalog |]. split; [exact Hin |].
  rewrite Hrun. apply execute_spec.
Qed.

(** X25.  For a call that succeeded, the hook of the agent loop records
    in the session exactly what a direct invocation of the same tool
    records; for a tool name that is not in the catalog it records
    nothing. *)
Theorem X25_session_paths_agree `{JsRuntime} (toolName result : string)
    (allTools : list NamespacedTool.t) (s : SessionState.t) :
  match Js.find (fun t => String.eqb (NamespacedTool.namespacedName t) toolName)
                allTools with
  | Some tool =>
      Slash.trackToolCallForSession toolName result false allTools s
      = Slash.bookkeeping s tool result false
  | None => Slash.trackToolCallForSession toolName result false allTools s = s
  end.
Proof.
  unfold Slash.trackToolCallForSession.
  destruct (Js.find _ allTools) as [tool |] eqn:Efind; [| reflexivity].
  assert (Hname : NamespacedTool.namespacedName tool = toolName).
  { apply find_Some in Efind. destruct Efind as [_ Heq].
    apply String.eqb_eq in Heq. exact Heq. }
  unfold Slash.bookkeeping, Slash.strippedOf. rewrite Hname. simpl negb. cbv iota.
  destruct (Js.includes toolName "create" || Js.includes toolName "bootstrap");
    reflexivity.
Qed.

(** X26.  [parseSlashInput] splits at the first space: for a command
    word without white space, ["/" + word + " " + rest] parses to the word
    and the trimmed rest, and ["/" + word] parses to the word with no
    arguments. *)
Theorem X26_parseSlashInput_splits (word rest : string) :
  noWhitespace word = true ->
  Slash.parseSlashInput (String "/" (word +:+ String " " rest))
  = {| Slash.command := word; Slash.argsRaw := Slash.trim rest |}
  /\ Slash.parseSlashInput (String "/" word)
     = {| Slash.command := word; Slash.argsRaw := "" |}.
Proof.
  intros Hno. unfold Slash.parseSlashInput. simpl Js.slice. split.
  - rewrite (indexOf_app_space word rest Hno).
    rewrite sliceTo_app, (trim_noWhitespace word Hno).
    replace (String.length word + 1)%nat
      with (String.length (word +:+ " ")) by (rewrite length_append; reflexivity).
    replace (word +:+ String " " rest) with ((word +:+ " ") +:+ rest)
      by (rewrite append_assoc; reflexivity).
    rewrite slice_app. reflexivity.
  - rewrite (indexOf_none word Hno), (trim_noWhitespace word Hno). reflexivity.
Qed.

Lemma X26_parseSlashInput_witness :
  noWhitespace "chess_create_game" = true
  /\ Slash.parseSlashInput
       (String "/" ("chess_create_game" +:+ String " " "  {}  "))
     = {| Slash.command := "chess_create_game"; Slash.argsRaw := "{}" |}
  /\ Slash.parseSlashInput (String "/" "chess_create_game")
     = {| Slash.command := "chess_create_game"; Slash.argsRaw := "" |}.
Proof.
  split; [reflexivity |].
  apply (X26_parseSlashInput_splits "chess_create_game" "  {}  "). reflexivity.
Defined.

Section DirectCallArguments.
Context `{JsRuntime}.
Import Slash.

Lemma has_of_get (o : JsObject) (key : string) (v : json) :
  Obj.get o key = Some v -> Obj.has o key = true.
Proof. intros Hget. unfold Obj.has. now rewrite Hget. Qed.

Lemma spread_other (b : JsObject) :
  forall (a : JsObject) (key : string),
    ~ In key (Obj.keys b) ->
    Obj.get (Obj.spread a b) key = Obj.get a key.
Proof.
  unfold Obj.spread.
  induction b as [| [k v] b IH]; intros a key Hnot; simpl; [reflexivity |].
  rewrite IH by (intros Hin; apply Hnot; now right).
  apply set_get_other. intros ->. apply Hnot. now left.
Qed.

Lemma spread_wins (b : JsObject) :
  forall (a : JsObject) (key : string) (v : json),
    NoDup (Obj.keys b) ->
    Obj.get b key = Some v ->
    Obj.get (Obj.spread a b) key = Some v.
Proof.
  unfold Obj.spread.
  induction b as [| [k w] b IH]; intros a key v Hnd Hget; simpl in *;
    [discriminate |].
  apply NoDup_cons in Hnd. destruct Hnd as [Hk Hnd].
  rewrite list_elem_of_In in Hk.
  destruct (String.eqb k key) eqn:E.
  - apply String.eqb_eq in E. subst k. injection Hget as ->.
    pose proof (spread_other b (Obj.set a key v) key Hk) as Hother.
    unfold Obj.spread in Hother. rewrite Hother. apply set_get_same.
  - apply IH; assumption.
Qed.

Lemma autoFill_keeps (sessionState : SessionState.t) (required : list string) :
  forall (mergedArgs : JsObject) (key : string) (v : json),
    Obj.get mergedArgs key = Some v ->
    Obj.get (autoFill sessionState required mergedArgs) key = Some v.
Proof.
  unfold autoFill.
  induction required as [| p required IH]; intros mergedArgs key v Hget; simpl;
    [exact Hget |].
  apply IH.
  destruct (Obj.has mergedArgs p) eqn:Ehas; [exact Hget |].
  destruct (Js.endsWith p "_id" || String.eqb p "id"); [| exact Hget].
  destruct (SessionState.getLatestId sessionState p) as [latestId |];
    [| exact Hget].
  destruct (negb (String.eqb latestId "")); [| exact Hget].
  rewrite get_set_other; [exact Hget |].
  intros ->. rewrite (has_of_get _ _ _ Hget) in Ehas. discriminate.
Qed.

Lemma promptAll_keeps (ask : Readline) (missingParams : list ToolAdapter.ParamInfo) :
  forall (asked : nat) (mergedArgs completed : JsObject) (key : string),
    (forall p, In p missingParams -> ToolAdapter.param_name p <> key) ->
    promptAll ask asked missingParams mergedArgs = inl completed ->
    Obj.get completed key = Obj.get mergedArgs key.
Proof.
  induction missingParams as [| p missingParams IH];
    intros asked mergedArgs completed key Hne Hrun; simpl in Hrun.
  - injection Hrun as <-. reflexivity.
  - destruct (String.eqb (trim (ask asked)) ""); [discriminate |].
    rewrite (IH _ _ _ key (fun q Hq => Hne q (or_intror Hq)) Hrun).
    apply get_set_other. intros ->. apply (Hne p); [now left | reflexivity].
Qed.

End DirectCallArguments.

(** X27.  A direct invocation never overrides an argument the user
    typed: when the arguments parse to an object and the tool is called,
    every property of that object is passed to the call with the value
    typed, whatever the defaults of the schema, the identifiers of the
    session and the answers to the prompts are. *)
Theorem X27_user_arguments_kept `{JsRuntime} (command argsRaw : string)
    (ctx : Slash.SlashCommandContext) (fields : JsObject)
    (tool : NamespacedTool.t) (mergedArgs : JsObject) (result : string)
    (isError : bool) :
  argsRaw <> ""%string ->
  JSON_parse argsRaw = Some (JObj fields) ->
  NoDup (Obj.keys fields) ->
  fst (Slash.handleDirectToolCall command argsRaw ctx)
  = Slash.Called tool mergedArgs result isError ->
  forall key value,
    Obj.get fields key = Some value -> Obj.get mergedArgs key = Some value.
Proof.
  intros Hne Hparse Hnd Hrun key value Hget.
  unfold Slash.handleDirectToolCall in Hrun.
  destruct (ServerManager.getAllTools (Slash.manager ctx)) as [catalog | err];
    [| discriminate].
  unfold Slash.directCall in Hrun.
  destruct (Slash.resolveToolName command catalog) as [found |];
    [| discriminate].
  replace (String.eqb argsRaw "") with false in Hrun
    by (symmetry; apply String.eqb_neq; exact Hne).
  rewrite Hparse in Hrun. simpl Obj.ownProps in Hrun.
  set (merged := Slash.autoFill (Slash.sessionState ctx)
                   (ToolAdapter.requiredOf (NamespacedTool.inputSchema found))
                   (Obj.spread
                      (ToolAdapter.extractDefaults (NamespacedTool.inputSchema found))
                      fields)) in *.
  assert (Hmerged : Obj.get merged key = Some value).
  { apply autoFill_keeps. apply spread_wins; assumption. }
  destruct (List.filter
              (fun p => negb (Obj.has merged (ToolAdapter.param_name p)))
              (ToolAdapter.getRequiredParams (NamespacedTool.inputSchema found)))
    as [| p missing] eqn:Emissing.
  - rewrite execute_spec in Hrun. simpl in Hrun. injection Hrun as _ <- _ _.
    exact Hmerged.
  - destruct (Slash.rl ctx) as [ask |]; [| discriminate].
    destruct (Slash.promptAll ask 0 (p :: missing) merged) as [completed | name]
      eqn:Eprompt; [| discriminate].
    rewrite execute_spec in Hrun. simpl in Hrun. injection Hrun as _ <- _ _.
    rewrite (promptAll_keeps ask (p :: missing) 0 merged completed key);
      [exact Hmerged | | exact Eprompt].
    intros q Hq Hname. rewrite <- Emissing in Hq. apply filter_In in Hq.
    destruct Hq as [_ Hhas]. rewrite Hname in Hhas.
    rewrite (has_of_get _ _ _ Hmerged) in Hhas. discriminate.
Qed.

Lemma X27_user_arguments_witness :
  let m := Scenario.fleet
             (Scenario.chessRemote (Scenario.ok "created")
                                   (fun _ => Scenario.ok "moved"))
             (Scenario.vitestRemote (Scenario.ok "3 tests passed")) in
  let ctx := Scenario.session m SessionState.empty None in
  let argsRaw := Scenario.single "time_control" "RAPID_10" in
  @JSON_parse scenarioRuntime argsRaw
  = Some (JObj [("time_control"%string, JStr "RAPID_10")])
  /\ fst (Slash.handleDirectToolCall (H := scenarioRuntime)
            "chess_create_game" argsRaw ctx)
     = Slash.Called Scenario.createEntry
         [("time_control"%string, JStr "RAPID_10")] "created" false
  /\ Obj.get [("time_control"%string, JStr "RAPID_10")] "time_control"
     = Some (JStr "RAPID_10").
Proof.
  intros m ctx argsRaw.
  assert (Hparse : @JSON_parse scenarioRuntime argsRaw
                   = Some (JObj [("time_control"%string, JStr "RAPID_10")]))
    by (vm_compute; reflexivity).
  assert (Hrun : fst (Slash.handleDirectToolCall (H := scenarioRuntime)
                        "chess_create_game" argsRaw ctx)
                 = Slash.Called Scenario.createEntry
                     [("time_control"%string, JStr "RAPID_10")] "created" false)
    by (vm_compute; reflexivity).
  split; [exact Hparse |]. split; [exact Hrun |].
  apply (X27_user_arguments_kept (H := scenarioRuntime)
           "chess_create_game" argsRaw ctx
           [("time_control"%string, JStr "RAPID_10")]
           Scenario.createEntry
           [("time_control"%string, JStr "RAPID_10")] "created" false).
  - discriminate.
  - exact Hparse.
  - apply NoDup_singleton.
  - exact Hrun.
  - reflexivity.
Defined.

(* ===================================================================== *)
(** * Further properties: tool groups and tool visibility *)
(* ===================================================================== *)

Section VisibilityFacts.
Context `{JsRuntime}.
Import Visibility.

Lemma view_closed_form (shown : NamespacedTool.t -> bool)
    (tools : list NamespacedTool.t) :
  forall acc,
    fold_left (fun acc tool => if shown tool then show acc tool else hide acc)
              tools acc
    = {| visible := visible acc ++ List.filter shown tools;
         hidden := hidden acc
                   + List.length (List.filter (fun t => negb (shown t)) tools) |}.
Proof.
  induction tools as [| t tools IH]; intros acc; simpl.
  - rewrite app_nil_r, Nat.add_0_r. destruct acc; reflexivity.
  - rewrite IH. destruct (shown t); simpl.
    + rewrite <- app_assoc. reflexivity.
    + f_equal. lia.
Qed.

Lemma fold_left_same {A B : Type} (f g : A -> B -> A) (l : list B) :
  (forall a x, f a x = g a x) -> forall a, fold_left f l a = fold_left g l a.
Proof.
  intros Hfg. induction l as [| x l IH]; intros a; simpl; [reflexivity |].
  now rewrite Hfg, IH.
Qed.

Lemma getVisibleTools_closed_form (tools : list NamespacedTool.t)
    (s : SessionState.t) (separator : string) :
  getVisibleTools tools s separator
  = {| visible := List.filter (shownBasic s separator) tools;
       hidden := List.length
                   (List.filter (fun t => negb (shownBasic s separator t)) tools) |}.
Proof.
  unfold getVisibleTools.
  rewrite (fold_left_same _
             (fun acc tool =>
                if shownBasic s separator tool then show acc tool else hide acc)).
  - rewrite view_closed_form. reflexivity.
  - intros acc tool. unfold shownBasic.
    destruct (isEntryPointTool tool); [reflexivity |].
    destruct (isDependentTool tool); reflexivity.
Qed.

Lemma getVisibleToolsEnhanced_closed_form (tools : list NamespacedTool.t)
    (s : SessionState.t) (separator : string) :
  getVisibleToolsEnhanced tools s separator
  = {| visible := List.filter (shownEnhanced s separator) tools;
       hidden := List.length
                   (List.filter (fun t => negb (shownEnhanced s separator t))
                                tools) |}.
Proof.
  unfold getVisibleToolsEnhanced.
  rewrite (fold_left_same _
             (fun acc tool =>
                if shownEnhanced s separator tool then show acc tool
                else hide acc)).
  - rewrite view_closed_form. reflexivity.
  - intros acc tool. unfold shownEnhanced.
    destruct (isBlockedByConfig tool s separator); [reflexivity |].
    destruct (isEntryPointTool tool); [reflexivity |].
    destruct (isDependentTool tool); [| reflexivity].
    simpl. destruct (forallb _ (getRequiredIdParams tool)); reflexivity.
Qed.

Lemma filter_partition_length {A : Type} (p : A -> bool) (l : list A) :
  (List.length (List.filter p l)
   + List.length (List.filter (fun x => negb (p x)) l))%nat
  = List.length l.
Proof.
  induction l as [| x l IH]; simpl; [reflexivity |].
  destruct (p x); simpl; lia.
Qed.

Lemma filter_sublist {A : Type} (p : A -> bool) (l : list A) :
  sublist (List.filter p l) l.
Proof.
  induction l as [| x l IH]; simpl; [constructor |].
  destruct (p x); [apply sublist_skip | apply sublist_cons]; exact IH.
Qed.

Lemma blockedLoop_grows (entries : list (string * list string))
    (stripped : string) (s s' : SessionState.t) :
  (forall name, SessionState.hasConfigBeenCalled s name = true ->
                SessionState.hasConfigBeenCalled s' name = true) ->
  blockedLoop entries stripped s = false ->
  blockedLoop entries stripped s' = false.
Proof.
  intros Hgrow. induction entries as [| [configTool dependents] entries IH];
    simpl; [reflexivity |].
  destruct (includes dependents stripped); simpl; [| exact IH].
  destruct (SessionState.hasConfigBeenCalled s configTool) eqn:E; simpl;
    [| discriminate].
  rewrite (Hgrow _ E). simpl. exact IH.
Qed.

Lemma shownEnhanced_grows (s s' : SessionState.t) (separator : string)
    (tool : NamespacedTool.t) :
  sessionGrows s s' ->
  shownEnhanced s separator tool = true ->
  shownEnhanced s' separator tool = true.
Proof.
  intros (Hconfig & Hid & Hcreated). unfold shownEnhanced.
  rewrite !andb_true_iff, !orb_true_iff, !negb_true_iff.
  intros [Hblocked Hshown]. split.
  - unfold isBlockedByConfig in *. eapply blockedLoop_grows; eauto.
  - destruct Hshown as [[[Hentry | Hdep] | Hids] | Hc]; auto.
    left. right. rewrite forallb_forall in *. intros p Hp. auto.
Qed.

Lemma shownBasic_grows (s s' : SessionState.t) (separator : string)
    (tool : NamespacedTool.t) :
  sessionGrows s s' ->
  shownBasic s separator tool = true ->
  shownBasic s' separator tool = true.
Proof.
  intros (_ & _ & Hcreated). unfold shownBasic.
  rewrite !orb_true_iff. intros [[Hentry | Hdep] | Hc]; auto.
Qed.

Lemma pushId_nonempty (ids : gmap string (list string)) (key value param : string) :
  (exists x xs, ids !! param = Some (x :: xs)) ->
  exists x xs, SessionState.pushId ids key value !! param = Some (x :: xs).
Proof.
  intros (x & xs & Hget). unfold SessionState.pushId.
  destruct (string_dec key param) as [-> | Hne].
  - rewrite lookup_insert_eq, Hget. simpl. eauto.
  - rewrite lookup_insert_ne by exact Hne. eauto.
Qed.

Lemma recordEntry_nonempty (ids : gmap string (list string))
    (entry : string * json) (param : string) :
  (exists x xs, ids !! param = Some (x :: xs)) ->
  exists x xs, SessionState.recordEntry ids entry !! param = Some (x :: xs).
Proof.
  intros Hne. unfold SessionState.recordEntry. destruct entry as [key value].
  destruct value; try exact Hne.
  destruct (Js.endsWith key "_id"); destruct (String.eqb key "id");
    repeat apply pushId_nonempty; exact Hne.
Qed.

Lemma recordEntries_nonempty (entries : list (string * json)) :
  forall (ids : gmap string (list string)) (param : string),
    (exists x xs, ids !! param = Some (x :: xs)) ->
    exists x xs,
      fold_left SessionState.recordEntry entries ids !! param = Some (x :: xs).
Proof.
  induction entries as [| e entries IH]; intros ids param Hne; simpl;
    [exact Hne |].
  apply IH. apply recordEntry_nonempty. exact Hne.
Qed.

Lemma hasId_nonempty (s : SessionState.t) (param : string) :
  SessionState.hasId s param = true
  <-> exists x xs, SessionState.idsByKey s !! param = Some (x :: xs).
Proof.
  unfold SessionState.hasId.
  destruct (SessionState.idsByKey s !! param) as [[| x xs] |]; split;
    try discriminate; eauto.
  - intros (? & ? & ?). discriminate.
  - intros (? & ? & ?). discriminate.
Qed.

Lemma sessionGrows_refl (s : SessionState.t) : sessionGrows s s.
Proof. repeat split; auto. Qed.

Lemma sessionGrows_trans (s1 s2 s3 : SessionState.t) :
  sessionGrows s1 s2 -> sessionGrows s2 s3 -> sessionGrows s1 s3.
Proof.
  intros (A1 & B1 & C1) (A2 & B2 & C2). repeat split; auto.
Qed.

Lemma recordIds_grows (s : SessionState.t) (result : string) :
  sessionGrows s (SessionState.recordIds s result).
Proof.
  unfold SessionState.recordIds.
  destruct (JSON_parse result) as [parsed |]; [| apply sessionGrows_refl].
  destruct parsed; try apply sessionGrows_refl.
  - repeat split; auto. intros param Hid.
    apply hasId_nonempty. apply hasId_nonempty in Hid. simpl.
    apply recordEntries_nonempty. exact Hid.
  - repeat split; auto. intros param Hid.
    apply hasId_nonempty. apply hasId_nonempty in Hid. simpl.
    apply recordEntries_nonempty. exact Hid.
Qed.

Lemma recordConfigCall_grows (s : SessionState.t) (name : string) :
  sessionGrows s (SessionState.recordConfigCall s name).
Proof.
  repeat split; auto. intros n.
  unfold SessionState.hasConfigBeenCalled, SessionState.recordConfigCall. simpl.
  intros Hin. apply bool_decide_eq_true in Hin.
  apply bool_decide_eq_true. set_solver.
Qed.

Lemma recordCreate_grows (s : SessionState.t) (prefix : string)
    (ids : list string) :
  sessionGrows s (SessionState.recordCreate s prefix ids).
Proof.
  repeat split; auto. intros p.
  unfold SessionState.hasCreated, SessionState.recordCreate. simpl.
  destruct (string_dec prefix p) as [-> | Hne].
  - rewrite lookup_insert_eq.
    destruct (SessionState.created s !! p) as [[| x xs] |]; simpl;
      try discriminate. reflexivity.
  - rewrite lookup_insert_ne by exact Hne. auto.
Qed.

Lemma bookkeeping_grows (s : SessionState.t) (tool : NamespacedTool.t)
    (result : string) (isError : bool) :
  sessionGrows s (Slash.bookkeeping s tool result isError).
Proof.
  unfold Slash.bookkeeping.
  set (s1 := if negb isError then SessionState.recordIds s result else s).
  assert (H1 : sessionGrows s s1).
  { unfold s1. destruct isError; simpl;
      [apply sessionGrows_refl | apply recordIds_grows]. }
  set (s2 := if Slash.isConfigPrerequisite (Slash.strippedOf tool)
             then SessionState.recordConfigCall s1 (Slash.strippedOf tool)
             else s1).
  assert (H2 : sessionGrows s s2).
  { unfold s2. destruct (Slash.isConfigPrerequisite (Slash.strippedOf tool));
      [| exact H1].
    eapply sessionGrows_trans; [exact H1 | apply recordConfigCall_grows]. }
  destruct (Js.includes _ "create" || Js.includes _ "bootstrap"); [| exact H2].
  destruct (Slash.extractIdsFromResult result);
    (eapply sessionGrows_trans; [exact H2 | apply recordCreate_grows]).
Qed.

Lemma groups_closed_form (separator : string) (tools : list NamespacedTool.t) :
  forall (groups : list (string * ToolGroup)) (key : string),
    Obj.get
      (fold_left
         (fun groups tool =>
            let prefix :=
              Slash.extractPrefix (NamespacedTool.namespacedName tool)
                                  (NamespacedTool.serverName tool) separator in
            match Obj.get groups prefix with
            | Some group =>
                Obj.set groups prefix
                  {| prefix := Visibility.prefix group;
                     tools := Visibility.tools group ++ [tool] |}
            | None => Obj.set groups prefix {| prefix := prefix; tools := [tool] |}
            end)
         tools groups) key
    = match Obj.get groups key,
            List.filter (fun t => String.eqb (prefixOf separator t) key) tools with
      | Some group, more =>
          Some {| prefix := Visibility.prefix group;
                  tools := Visibility.tools group ++ more |}
      | None, [] => None
      | None, t :: more => Some {| prefix := key; tools := t :: more |}
      end.
Proof.
  induction tools as [| t tools IH]; intros groups key; simpl.
  - destruct (Obj.get groups key) as [[p ts] |]; [| reflexivity].
    simpl. now rewrite app_nil_r.
  - rewrite IH. fold (prefixOf separator t).
    destruct (String.eqb (prefixOf separator t) key) eqn:E.
    + apply String.eqb_eq in E. rewrite E.
      destruct (Obj.get groups key) as [[p ts] |] eqn:Eg.
      * rewrite set_get_same. simpl. now rewrite <- app_assoc.
      * rewrite set_get_same. simpl. reflexivity.
    + apply String.eqb_neq in E.
      destruct (Obj.get groups (prefixOf separator t)) as [[p ts] |];
        rewrite set_get_other by congruence; reflexivity.
Qed.

End VisibilityFacts.

(** X28.  For tools whose schemas have a [required] that is absent,
    [null] or an array of strings: both tool views keep the catalog order
    and count every tool once, shown or hidden.  The enhanced view shows
    exactly the tools that are not waiting for a configuration call and
    that are entry points, depend on no identifier, have every required
    [_id] parameter seen in the session, or belong to a category in which
    something was created; the basic view ignores configuration calls and
    seen identifiers. *)
Theorem X28_tool_views (tools : list NamespacedTool.t) (s : SessionState.t)
    (separator : string) :
  schemasWellFormed tools = true ->
  Visibility.visible (Visibility.getVisibleToolsEnhanced tools s separator)
  = List.filter (shownEnhanced s separator) tools
  /\ Visibility.visible (Visibility.getVisibleTools tools s separator)
     = List.filter (shownBasic s separator) tools
  /\ (List.length
        (Visibility.visible (Visibility.getVisibleToolsEnhanced tools s separator))
      + Visibility.hidden (Visibility.getVisibleToolsEnhanced tools s separator)
      = List.length tools)%nat
  /\ (List.length (Visibility.visible (Visibility.getVisibleTools tools s separator))
      + Visibility.hidden (Visibility.getVisibleTools tools s separator)
      = List.length tools)%nat
  /\ sublist
       (Visibility.visible (Visibility.getVisibleToolsEnhanced tools s separator))
       tools
  /\ sublist (Visibility.visible (Visibility.getVisibleTools tools s separator))
             tools.
Proof.
  intros _.
  rewrite getVisibleTools_closed_form, getVisibleToolsEnhanced_closed_form.
  simpl. repeat split; try reflexivity;
    try apply filter_partition_length; apply filter_sublist.
Qed.

Lemma X28_tool_views_witness :
  let tools := [Scenario.createEntry; Scenario.moveEntry] in
  let s := SessionState.empty in
  schemasWellFormed tools = true
  /\ Visibility.visible (Visibility.getVisibleToolsEnhanced tools s "__")
     = List.filter (shownEnhanced s "__") tools
  /\ Visibility.visible (Visibility.getVisibleTools tools s "__")
     = List.filter (shownBasic s "__") tools
  /\ Visibility.getVisibleToolsEnhanced tools s "__"
     = {| Visibility.visible := [Scenario.createEntry];
          Visibility.hidden := 1 |}.
Proof.
  intros tools s.
  destruct (X28_tool_views tools s "__" eq_refl) as (Henhanced & Hbasic & _).
  split; [reflexivity |]. split; [exact Henhanced |].
  split; [exact Hbasic |]. vm_compute. reflexivity.
Defined.

(** X29.  For tools whose schemas have a [required] that is absent,
    [null] or an array of strings: a tool that is visible stays visible
    after any direct tool call is recorded in the session, in both views:
    the bookkeeping of [handleDirectToolCall] only adds to what the
    session knows. *)
Theorem X29_visible_stays_visible `{JsRuntime}
    (tools : list NamespacedTool.t) (s : SessionState.t) (separator : string)
    (called : NamespacedTool.t) (result : string) (isError : bool) :
  schemasWellFormed tools = true ->
  incl (Visibility.visible (Visibility.getVisibleToolsEnhanced tools s separator))
       (Visibility.visible
          (Visibility.getVisibleToolsEnhanced tools
             (Slash.bookkeeping s called result isError) separator))
  /\ incl (Visibility.visible (Visibility.getVisibleTools tools s separator))
          (Visibility.visible
             (Visibility.getVisibleTools tools
                (Slash.bookkeeping s called result isError) separator)).
Proof.
  intros _.
  rewrite !getVisibleTools_closed_form, !getVisibleToolsEnhanced_closed_form.
  simpl. pose proof (bookkeeping_grows s called result isError) as Hgrow.
  split; intros t Hin; apply filter_In in Hin; destruct Hin as [Hin Hshown];
    apply filter_In; (split; [exact Hin |]).
  - eapply shownEnhanced_grows; eauto.
  - eapply shownBasic_grows; eauto.
Qed.

Lemma X29_visible_stays_witness :
  let tools := [Scenario.createEntry; Scenario.moveEntry] in
  let s := SessionState.empty in
  let s' := Slash.bookkeeping (H := scenarioRuntime) s Scenario.createEntry
              (Scenario.single "game_id" "game_abc") false in
  schemasWellFormed tools = true
  /\ incl (Visibility.visible (Visibility.getVisibleToolsEnhanced tools s "__"))
          (Visibility.visible (Visibility.getVisibleToolsEnhanced tools s' "__"))
  /\ incl (Visibility.visible (Visibility.getVisibleTools tools s "__"))
          (Visibility.visible (Visibility.getVisibleTools tools s' "__"))
  /\ Visibility.visible (Visibility.getVisibleToolsEnhanced tools s "__")
     = [Scenario.createEntry]
  /\ Visibility.visible (Visibility.getVisibleToolsEnhanced tools s' "__")
     = [Scenario.createEntry; Scenario.moveEntry].
Proof.
  intros tools s s'.
  destruct (X29_visible_stays_visible (H := scenarioRuntime) tools s "__"
              Scenario.createEntry (Scenario.single "game_id" "game_abc") false
              eq_refl) as (Henhanced & Hbasic).
  split; [reflexivity |]. split; [exact Henhanced |].
  split; [exact Hbasic |]. split; vm_compute; reflexivity.
Defined.

(** X30.  [groupToolsByPrefix] puts every tool in the group of its own
    category and nowhere else: the group stored under a key holds exactly
    the tools whose category is that key, in catalog order, and a key
    that is the category of no tool has no group. *)
Theorem X30_groups_partition (tools : list NamespacedTool.t)
    (separator key : string) :
  Obj.get (Visibility.groupToolsByPrefix tools separator) key
  = match List.filter (fun t => String.eqb (prefixOf separator t) key) tools with
    | [] => None
    | members => Some {| Visibility.prefix := key; Visibility.tools := members |}
    end.
Proof.
  unfold Visibility.groupToolsByPrefix. rewrite groups_closed_form. simpl.
  destruct (List.filter _ tools); reflexivity.
Qed.
